(** * goose-js: the migration engine and its SQL migration parser

    A shallow embedding of [src/utils/sql_parser.ts], [src/utils/common.ts],
    [src/db/init.ts], [src/core/migrate.ts], [src/core/create.ts] and
    [src/utils/dsn_parser.ts], followed by the properties of the engine
    that the specification states and further properties of the code.

    Conventions of the embedding.
    - A JavaScript string is a [string]: a sequence of code units, of which
      the model covers those below 256.
    - A [bigint] is a [Z]; [BigInt(s)] is [BigInt s : option Z], [None]
      standing for the [SyntaxError] it throws.
    - A function that may throw returns a [Result].  Code that talks to the
      database lives in the monad [M], which threads the database and
      keeps it when an error is thrown.
    - The client that [knex] is given is a [Driver]: what the engine's
      code depends on is how it returns a [bigint] column, as a string or
      as a number, and whether a refused insert uses up a value of [id].
    - [console] output has no influence on control flow and is left out. *)

From Stdlib Require Import List String Ascii ZArith NArith Bool Lia.
From Stdlib Require Import Permutation Sorted.
From Stdlib Require Import DecimalString DecimalN DecimalPos DecimalFacts.
Import ListNotations.

Set Implicit Arguments.
Open Scope string_scope.

(* ================================================================= *)
(** ** JavaScript strings *)

Module Js.

Definition LF : ascii := "010"%char.
Definition CR : ascii := "013"%char.

(** ["\n"], as in [line + "\n"]. *)
Definition nl : string := String LF "".

(** White space and line terminators removed by [String.prototype.trim]
    (and skipped by [BigInt]), among the code units below 256: TAB, LF, VT,
    FF, CR, SP and NBSP. *)
Definition isWhiteSpace (c : ascii) : bool :=
  let n := N_of_ascii c in
  ((9 <=? n) && (n <=? 13) || (n =? 32) || (n =? 160))%N.

Fixpoint trimStart (s : string) : string :=
  match s with
  | String c r => if isWhiteSpace c then trimStart r else s
  | EmptyString => EmptyString
  end.

Fixpoint trimEnd (s : string) : string :=
  match s with
  | String c r =>
      match trimEnd r with
      | EmptyString => if isWhiteSpace c then EmptyString else String c EmptyString
      | r' => String c r'
      end
  | EmptyString => EmptyString
  end.

(** [s.trim()] *)
Definition trim (s : string) : string := trimEnd (trimStart s).

(** [s.startsWith(p)] *)
Definition startsWith (s p : string) : bool := String.prefix p s.

(** [s.endsWith(p)] *)
Definition endsWith (s p : string) : bool :=
  let n := String.length s in
  let m := String.length p in
  if (m <=? n)%nat then String.eqb (String.substring (n - m) m s) p else false.

(** [s.includes(p)] *)
Fixpoint includes (s p : string) : bool :=
  String.prefix p s ||
  match s with
  | String _ r => includes r p
  | EmptyString => false
  end.

(** [s.split(/\r?\n/)]: the separators are LF and CR LF; a CR that is not
    followed by LF stays in its line.  The result is never empty. *)
Fixpoint splitLines (s : string) : list string :=
  match s with
  | EmptyString => [EmptyString]
  | String c r =>
      if Ascii.eqb c LF then EmptyString :: splitLines r
      else
        match r with
        | String c' r' =>
            if Ascii.eqb c CR && Ascii.eqb c' LF then EmptyString :: splitLines r'
            else
              match splitLines r with
              | l :: ls => String c l :: ls
              | [] => [String c EmptyString]
              end
        | EmptyString => [String c EmptyString]
        end
  end.

(** *** [BigInt(string)] *)

(** Value of a digit in the given radix; letters in either case. *)
Definition digitValue (radix : N) (c : ascii) : option N :=
  let n := N_of_ascii c in
  let v :=
    if ((48 <=? n) && (n <=? 57))%N then Some (n - 48)%N
    else if ((97 <=? n) && (n <=? 122))%N then Some (n - 87)%N
    else if ((65 <=? n) && (n <=? 90))%N then Some (n - 55)%N
    else None in
  match v with
  | Some d => if (d <? radix)%N then Some d else None
  | None => None
  end.

Fixpoint parseDigits (radix : N) (acc : N) (s : string) : option N :=
  match s with
  | EmptyString => Some acc
  | String c r =>
      match digitValue radix c with
      | Some d => parseDigits radix (acc * radix + d)%N r
      | None => None
      end
  end.

(** One or more digits of the radix, for the literals [0x..], [0o..] and
    [0b..]. *)
Definition parseNat (radix : N) (s : string) : option N :=
  match s with
  | EmptyString => None
  | _ => parseDigits radix 0%N s
  end.

(** One or more decimal digits. *)
Definition parseDecimal (s : string) : option N :=
  option_map N.of_uint (NilZero.uint_of_string s).

(** [s.slice(n)] *)
Fixpoint slice (n : nat) (s : string) : string :=
  match n, s with
  | S n', String _ r => slice n' r
  | _, _ => s
  end.

Definition negative (n : N) : Z := (- Z.of_N n)%Z.

(** [StringToBigInt]: surrounding white space is skipped; the empty string
    is [0n]; a decimal literal may carry a sign; [0x], [0o] and [0b]
    literals carry none; anything else is a [SyntaxError]. *)
Definition BigInt (s : string) : option Z :=
  let t := trim s in
  if t =? "" then Some 0%Z
  else if startsWith t "-" then option_map negative (parseDecimal (slice 1 t))
  else if startsWith t "+" then option_map Z.of_N (parseDecimal (slice 1 t))
  else if startsWith t "0x" || startsWith t "0X" then option_map Z.of_N (parseNat 16 (slice 2 t))
  else if startsWith t "0o" || startsWith t "0O" then option_map Z.of_N (parseNat 8 (slice 2 t))
  else if startsWith t "0b" || startsWith t "0B" then option_map Z.of_N (parseNat 2 (slice 2 t))
  else option_map Z.of_N (parseDecimal t).

(** [String(z)] for a bigint: the canonical decimal numeral. *)
Definition toString (z : Z) : string :=
  match z with
  | Z0 => "0"
  | Zpos p => NilZero.string_of_uint (Pos.to_uint p)
  | Zneg p => String "-" (NilZero.string_of_uint (Pos.to_uint p))
  end.

End Js.

(* ================================================================= *)
(** ** [src/utils/sql_parser.ts] *)

Module SqlParser.
Import Js.

Inductive SectionName := SecNone | SecUp | SecDown.

(** The local variables of [parseSqlMigration]. *)
Record State := mkState {
  section : SectionName;
  inStatement : bool;
  currentStatement : string;
  upStatements : list string;
  downStatements : list string
}.

Definition initial : State := mkState SecNone false "" [] [].

Definition isNone (s : SectionName) : bool :=
  match s with SecNone => true | _ => false end.

(** The body of the [for (const line of lines)] loop. *)
Definition step (st : State) (line : string) : State :=
  let trimmedLine := trim line in
  let '(mkState sec inStmt cur ups downs) := st in
  (* section markers *)
  if trimmedLine =? "-- +goose Up" then mkState SecUp inStmt cur ups downs
  else if trimmedLine =? "-- +goose Down" then mkState SecDown inStmt cur ups downs
  (* comments and empty lines outside of statements *)
  else if negb inStmt && ((trimmedLine =? "") || startsWith trimmedLine "--") then st
  (* statement begin/end markers *)
  else if trimmedLine =? "-- +goose StatementBegin" then mkState sec true "" ups downs
  else if trimmedLine =? "-- +goose StatementEnd" then
    match sec with
    | SecUp => mkState sec false cur (ups ++ [cur])%list downs
    | SecDown => mkState sec false cur ups (downs ++ [cur])%list
    | SecNone => mkState sec false cur ups downs
    end
  else if inStmt then mkState sec inStmt (cur ++ line ++ nl) ups downs
  else if negb (isNone sec) && negb (trimmedLine =? "") && negb (startsWith trimmedLine "--") then
    let cur' := cur ++ line ++ nl in
    if endsWith trimmedLine ";" then
      match sec with
      | SecUp => mkState sec inStmt "" (ups ++ [cur'])%list downs
      | _ => mkState sec inStmt "" ups (downs ++ [cur'])%list
      end
    else mkState sec inStmt cur' ups downs
  else st.

(** The loop over [sql.split(/\r?\n/)]. *)
Definition run (lines : list string) : State := fold_left step lines initial.

Definition parseStatements (sql : string) : State := run (splitLines sql).

End SqlParser.

(* ================================================================= *)
(** ** Errors *)

(** What the engine can throw, or let through from the file system, the
    database and the migrations' own code. *)
Inductive Error :=
| InvalidFilename (filename : string)  (* [getVersionFromFilename] *)
| TypeError (filename : string)        (* an export of the wrong type *)
| SyntaxError (s : string)             (* [BigInt(s)] *)
| IoError (filename : string)          (* [readFile] or [import] rejected *)
| Thrown (msg : string)                (* raised by a migration's code or by a rejected statement *)
| NoSuchTable
| BadValue (s : string)                (* not a value of the [bigint] column *)
| UniqueViolation (version : Z).

Inductive Result (A : Type) :=
| Ok (a : A)
| Err (e : Error).
Arguments Err {A} e.

Definition isOk {A} (r : Result A) : bool :=
  match r with Ok _ => true | Err _ => false end.

(* ================================================================= *)
(** ** [src/utils/common.ts] *)

Definition isDigit (c : ascii) : bool :=
  let n := N_of_ascii c in ((48 <=? n) && (n <=? 57))%N.

(** The longest prefix of digits, and what follows it. *)
Fixpoint spanDigits (s : string) : string * string :=
  match s with
  | String c r =>
      if isDigit c then let '(d, t) := spanDigits r in (String c d, t)
      else (EmptyString, s)
  | EmptyString => (EmptyString, EmptyString)
  end.

(** [(/^(\d+)_/).exec(filename)]: the first capture group, if the
    expression matches. *)
Definition matchVersionPrefix (filename : string) : option string :=
  match spanDigits filename with
  | (String c d, String "_" _) => Some (String c d)
  | _ => None
  end.

Definition getVersionFromFilename (filename : string) : Result string :=
  match matchVersionPrefix filename with
  | None => Err (InvalidFilename filename)
  | Some v => Ok v
  end.

(** [BigInt(s)] at the places where [s] is numeric by construction: a
    filename prefix matched by [\d+], or a [version_id] read from the
    [bigint] column as a string.  There [BigInt] does not throw
    ([BigInt_digits] and [BigInt_toString] below); the value for other
    strings is unused. *)
Definition bigintOf (s : string) : Z :=
  match Js.BigInt s with
  | Some z => z
  | None => 0%Z
  end.

(** [array.sort(compareFn)]: a stable sort, of which only the sign of
    [compareFn] matters. *)
Section Sort.
Variable A : Type.
Variable compareFn : A -> A -> Z.

Fixpoint insertSorted (x : A) (l : list A) : list A :=
  match l with
  | [] => [x]
  | y :: l' => if (compareFn x y <=? 0)%Z then x :: l else y :: insertSorted x l'
  end.

Definition sort (l : list A) : list A := fold_right insertSorted [] l.
End Sort.

(* ================================================================= *)
(** ** The database and the engine *)

Section Engine.

(** The tables of the user's schema, which only the migrations touch.
    The engine never inspects them. *)
Variable Store : Type.

(** What a migration's [up] or [down] does when called with a handle: it
    changes the user's tables and resolves or rejects.  Migrations do not
    touch the ledger table, which is the engine's. *)
Definition Action : Type := Store -> Result unit * Store.

(** [db.raw(statement)] for one statement of an SQL migration. *)
Variable raw : string -> Action.

(** *** The ledger table of [src/db/init.ts] *)

(** A row of the table created by [initializeDb]: [id] (bigIncrements),
    [version_id] (bigint, unique), [is_applied], [tstamp]. *)
Record Row := mkRow {
  col_id : N;
  col_version_id : Z;
  col_is_applied : N;
  col_tstamp : N
}.

(** A call of a migration's [up] or [down], by filename. *)
Inductive Call :=
| CallUp (filename : string)
| CallDown (filename : string).

(** What the engine's code depends on in the client that [knex] is given:
    [dsnParser] accepts several, and they differ in two ways.
    - How a [bigint] column is read.  pg returns it as a decimal string,
      and so does mysql with the options [supportBigNumbers] and
      [bigNumberStrings] that [initializeDb] sets; sqlite3 and
      better-sqlite3 return a number.
    - Whether an insert that the unique column refuses has used up a value
      of [id]: it has on pg and mysql, and has not on sqlite. *)
Record Driver := mkDriver {
  bigintAsString : bool;
  refusedInsertTakesId : bool
}.

(** The database behind the [Knex] handle.  [calls] is a ghost trace of
    the migration actions invoked so far; it is not rolled back. *)
Record Db := mkDb {
  table : option (list Row);
  nextId : N;
  now : N;
  store : Store;
  calls : list Call;
  driver : Driver
}.

(** The value of a [bigint] column in a record: a string or a number. *)
Inductive Scalar :=
| StringValue (s : string)
| NumberValue (z : Z).

(** A 64-bit integer as a number: the nearest double, ties to the even
    one.  Up to 53 bits the value is exact. *)
Definition toDouble (z : Z) : Z :=
  let a := Z.abs z in
  let k := (Z.log2 a - 52)%Z in
  if (k <=? 0)%Z then z
  else
    let q := Z.shiftr a k in
    let r := Z.land a (Z.ones k) in
    let half := Z.shiftl 1 (k - 1) in
    let q' := if (half <? r)%Z || ((r =? half)%Z && Z.odd q) then (q + 1)%Z else q in
    (Z.sgn z * Z.shiftl q' k)%Z.

Definition readBigint (d : Driver) (z : Z) : Scalar :=
  if bigintAsString d then StringValue (Js.toString z) else NumberValue (toDouble z).

(** [MigrationRecord]: a row as the driver returns it.  The interface
    declares [id] and [version_id] as strings; they are what the driver
    gives for the two [bigint] columns.  As a string, a version written to
    the column as 07 is read back as 7. *)
Record MigrationRecord := mkRecord {
  id : Scalar;
  version_id : Scalar;
  is_applied : N;
  tstamp : N
}.

Definition toRecord (d : Driver) (r : Row) : MigrationRecord :=
  mkRecord (readBigint d (Z.of_N (col_id r))) (readBigint d (col_version_id r))
           (col_is_applied r) (col_tstamp r).

(** [v === s] for a string [s]: a number is never equal to it. *)
Definition strictEquals (v : Scalar) (s : string) : bool :=
  match v with
  | StringValue t => t =? s
  | NumberValue _ => false
  end.

(** [BigInt(v)]: a number read from the column is an integer, for which
    [BigInt] does not throw. *)
Definition BigIntOf (v : Scalar) : option Z :=
  match v with
  | StringValue s => Js.BigInt s
  | NumberValue z => Some z
  end.

(** [BigInt(v)] at the places where it does not throw: on a value read
    from the column. *)
Definition bigintOfScalar (v : Scalar) : Z :=
  match v with
  | StringValue s => bigintOf s
  | NumberValue z => z
  end.

(** [String(v)], for the message of the error. *)
Definition textOf (v : Scalar) : string :=
  match v with
  | StringValue s => s
  | NumberValue z => Js.toString z
  end.

(** Code that uses the database: the state is kept when an error is
    thrown. *)
Definition M (A : Type) : Type := Db -> Result A * Db.

Definition ret {A} (a : A) : M A := fun db => (Ok a, db).

Definition throw {A} (e : Error) : M A := fun db => (Err e, db).

Definition bind {A B} (c : M A) (k : A -> M B) : M B :=
  fun db =>
    match c db with
    | (Ok a, db') => k a db'
    | (Err e, db') => (Err e, db')
    end.

Notation "x <- c ;; k" := (bind c (fun x => k))
  (at level 61, c at next level, right associativity).
Notation "c ;;; k" := (bind c (fun _ => k))
  (at level 61, right associativity).

Definition liftResult {A} (r : Result A) : M A :=
  match r with
  | Ok a => ret a
  | Err e => throw e
  end.

Definition inBigintRange (z : Z) : bool :=
  ((- 2 ^ 63 <=? z) && (z <? 2 ^ 63))%Z.

(** The value a [bigint] column takes from a string parameter: a decimal
    numeral, with an optional minus sign, in the range of 64 bits. *)
Definition columnValue (s : string) : option Z :=
  let v :=
    if Js.startsWith s "-" then option_map Js.negative (Js.parseDecimal (Js.slice 1 s))
    else option_map Z.of_N (Js.parseDecimal s) in
  match v with
  | Some z => if inBigintRange z then Some z else None
  | None => None
  end.

(** [schema.hasTable(table)] *)
Definition hasTable : M bool :=
  fun db => (Ok (match table db with Some _ => true | None => false end), db).

(** [schema.createTable(table, ...)] *)
Definition createTable : M unit :=
  fun db => (Ok tt, mkDb (Some []) (nextId db) (now db) (store db) (calls db) (driver db)).

Definition compareId (a b : Row) : Z := (Z.of_N (col_id a) - Z.of_N (col_id b))%Z.

(** [db(table).select("*").orderBy("id", "asc")] *)
Definition selectAll : M (list MigrationRecord) :=
  fun db =>
    match table db with
    | None => (Err NoSuchTable, db)
    | Some rows => (Ok (map (toRecord (driver db)) (sort compareId rows)), db)
    end.

(** [table(...).select("id").where("version_id", v).first()] *)
Definition selectFirst (v : Z) : M (option MigrationRecord) :=
  fun db =>
    match table db with
    | None => (Err NoSuchTable, db)
    | Some rows =>
        (Ok (option_map (toRecord (driver db))
                        (find (fun r => (col_version_id r =? v)%Z) rows)), db)
    end.

(** [insert({ version_id: v, is_applied: 1 })] with a number: [id] and
    [tstamp] take their defaults; [version_id] is unique.  An insert that
    is refused leaves the table as it is; whether it has used up a value
    of [id] depends on the driver. *)
Definition insertVersion (v : Z) : M unit :=
  fun db =>
    match table db with
    | None => (Err NoSuchTable, db)
    | Some rows =>
        if existsb (fun r => (col_version_id r =? v)%Z) rows
        then (Err (UniqueViolation v),
              mkDb (table db)
                   (if refusedInsertTakesId (driver db) then nextId db + 1 else nextId db)
                   (now db) (store db) (calls db) (driver db))
        else (Ok tt, mkDb (Some (rows ++ [mkRow (nextId db) v 1 (now db)])%list)
                          (nextId db + 1) (now db) (store db) (calls db) (driver db))
    end.

(** [insert({ version_id: s, is_applied: 1 })] with a string. *)
Definition insert (s : string) : M unit :=
  match columnValue s with
  | Some v => insertVersion v
  | None => throw (BadValue s)
  end.

(** [where("version_id", s).delete()] *)
Definition deleteWhere (s : string) : M unit :=
  match columnValue s with
  | Some v =>
      fun db =>
        match table db with
        | None => (Err NoSuchTable, db)
        | Some rows =>
            (Ok tt, mkDb (Some (filter (fun r => negb (col_version_id r =? v)%Z) rows))
                         (nextId db) (now db) (store db) (calls db) (driver db))
        end
  | None => throw (BadValue s)
  end.

(** [db.transaction(async (trx) => body)]: commits when [body] resolves;
    when it rejects, the tables are as before and the error is rethrown.
    A value of [id] that was used up is not given back. *)
Definition transaction {A} (body : M A) : M A :=
  fun db =>
    match body db with
    | (Ok a, db') => (Ok a, db')
    | (Err e, db') =>
        (Err e, mkDb (table db) (nextId db') (now db') (store db) (calls db') (driver db'))
    end.

(** Calling a migration's action with the handle. *)
Definition invoke (c : Call) (a : Action) : M unit :=
  fun db =>
    let '(r, s) := a (store db) in
    (r, mkDb (table db) (nextId db) (now db) s (calls db ++ [c])%list (driver db)).

(** [initializeDb], from the point where the connection exists. *)
Definition initializeDb : M unit :=
  tableExists <- hasTable ;;
  if negb tableExists then
    createTable ;;;
    first <- selectFirst 0 ;;
    match first with
    | None => insertVersion 0
    | Some _ => ret tt
    end
  else ret tt.

(** *** Migration modules and the directory *)

Record MigrationModule := mkModule {
  up : Action;
  down : option Action;
  noTransaction : bool;
  irreversible : bool
}.

(** [MigrationFile]; [filepath] is [filename] inside the one directory of
    the model and is left out. *)
Record MigrationFile := mkFile {
  version : string;
  filename : string;
  module : MigrationModule
}.

(** [for (const statement of statements) { await db.raw(statement); }] *)
Fixpoint runStatements (statements : list string) : Action :=
  fun s =>
    match statements with
    | [] => (Ok tt, s)
    | statement :: rest =>
        match raw statement s with
        | (Ok _, s') => runStatements rest s'
        | (Err e, s') => (Err e, s')
        end
    end.

(** [parseSqlMigration]: the loop of [SqlParser], then the module built
    from its statement lists. *)
Definition parseSqlMigration (sql : string) : MigrationModule :=
  let st := SqlParser.parseStatements sql in
  mkModule
    (runStatements (SqlParser.upStatements st))
    (if (0 <? List.length (SqlParser.downStatements st))%nat
     then Some (runStatements (SqlParser.downStatements st))
     else None)
    (Js.includes sql "-- +goose NO TRANSACTION")
    (Js.includes sql "-- +goose IRREVERSIBLE").

(** A value exported by a JavaScript migration, as far as the loader
    looks at it: [undefined], a function, a boolean, or anything else. *)
Inductive JsValue :=
| Undefined
| Function (f : Action)
| Boolean (b : bool)
| Other.

Record JsExports := mkExports {
  export_up : JsValue;
  export_down : JsValue;
  export_noTransaction : JsValue;
  export_irreversible : JsValue
}.

(** A directory entry the way its loader sees it: the text [readFile]
    returns, the exports [import] returns, or a file that neither can
    load. *)
Inductive FileBody :=
| Text (content : string)
| Script (exports : JsExports)
| Unreadable.

Definition Directory : Type := list (string * FileBody).

(** [fs.readdir(migrationsDir)] *)
Definition readdir (dir : Directory) : list string := map fst dir.

Definition lookupFile (dir : Directory) (filename : string) : option FileBody :=
  option_map snd (find (fun e => fst e =? filename) dir).

(** [Boolean(v)] for a value that is [undefined] or a boolean. *)
Definition toBoolean (v : JsValue) : bool :=
  match v with
  | Boolean b => b
  | _ => false
  end.

(** The checks on the exports of a JavaScript migration. *)
Definition importModule (filename : string) (e : JsExports) : Result MigrationModule :=
  match export_up e with
  | Function f =>
      match export_down e with
      | Boolean _ | Other => Err (TypeError filename)
      | d =>
          match export_noTransaction e with
          | Function _ | Other => Err (TypeError filename)
          | _ =>
              match export_irreversible e with
              | Function _ | Other => Err (TypeError filename)
              | _ =>
                  Ok (mkModule f
                        (match d with Function g => Some g | _ => None end)
                        (toBoolean (export_noTransaction e))
                        (toBoolean (export_irreversible e)))
              end
          end
      end
  | _ => Err (TypeError filename)
  end.

(** The body of the [try] in the loop of [getMigrationFiles]. *)
Definition loadModule (dir : Directory) (filename : string) : Result MigrationModule :=
  if Js.endsWith filename ".sql" then
    match lookupFile dir filename with
    | Some (Text sqlContent) => Ok (parseSqlMigration sqlContent)
    | _ => Err (IoError filename)
    end
  else
    match lookupFile dir filename with
    | Some (Script importedModule) => importModule filename importedModule
    | _ => Err (IoError filename)
    end.

(** The filter of [getMigrationFiles]. *)
Definition isMigrationFile (file : string) : bool :=
  (Js.endsWith file ".js" || Js.endsWith file ".sql")
  && match matchVersionPrefix file with Some _ => true | None => false end.

(** The version of a file name as a number; the file names that reach it
    have passed [isMigrationFile]. *)
Definition versionNumber (file : string) : Z :=
  match getVersionFromFilename file with
  | Ok v => bigintOf v
  | Err _ => 0%Z
  end.

Definition compareFiles (a b : string) : Z := (versionNumber a - versionNumber b)%Z.

Fixpoint loadAll (dir : Directory) (migrationFiles : list string) : Result (list MigrationFile) :=
  match migrationFiles with
  | [] => Ok []
  | filename :: rest =>
      match getVersionFromFilename filename with
      | Err e => Err e
      | Ok version =>
          match loadModule dir filename with
          | Err e => Err e
          | Ok module =>
              match loadAll dir rest with
              | Err e => Err e
              | Ok migrations => Ok (mkFile version filename module :: migrations)
              end
          end
      end
  end.

(** The [migrationFiles] of [getMigrationFiles]: the names that pass the
    filter, sorted by version. *)
Definition migrationFilesOf (migrationsDir : Directory) : list string :=
  let files := readdir migrationsDir in
  sort compareFiles (filter isMigrationFile files).

Definition getMigrationFiles (migrationsDir : Directory) : Result (list MigrationFile) :=
  loadAll migrationsDir (migrationFilesOf migrationsDir).

Definition getAppliedMigrations : M (list MigrationRecord) := selectAll.

(** *** The runner *)

(** The body of the loop of [applyMigrations]. *)
Definition applyMigration (migration : MigrationFile) : M unit :=
  let run :=
    invoke (CallUp (filename migration)) (up (module migration)) ;;;
    insert (version migration) in
  if noTransaction (module migration) then run else transaction run.

Fixpoint applyMigrations (migrations : list MigrationFile) : M unit :=
  match migrations with
  | [] => ret tt
  | migration :: rest => applyMigration migration ;;; applyMigrations rest
  end.

(** [applied.version_id === migration.version] *)
Definition isApplied (appliedMigrations : list MigrationRecord) (migration : MigrationFile) : bool :=
  existsb (fun applied => strictEquals (version_id applied) (version migration))
          appliedMigrations.

(** The [pendingMigrations] of [upMigration] and [upByOneMigration],
    before the bound on the version. *)
Definition pendingOf (migrations : list MigrationFile)
    (appliedMigrations : list MigrationRecord) : list MigrationFile :=
  filter (fun migration => negb (isApplied appliedMigrations migration)) migrations.

(** The bound of [upMigration], whose optional argument [version] is
    [target] here: [BigInt(version)] is evaluated only when something is
    pending. *)
Definition boundPending (target : option string) (pendingMigrations : list MigrationFile)
    : Result (list MigrationFile) :=
  match target with
  | Some v =>
      if (0 <? List.length pendingMigrations)%nat then
        match Js.BigInt v with
        | Some targetVersion =>
            Ok (filter (fun migration => (bigintOf (version migration) <=? targetVersion)%Z)
                       pendingMigrations)
        | None => Err (SyntaxError v)
        end
      else Ok pendingMigrations
  | None => Ok pendingMigrations
  end.

Definition upMigration (dir : Directory) (target : option string) : M unit :=
  migrations <- liftResult (getMigrationFiles dir) ;;
  appliedMigrations <- getAppliedMigrations ;;
  pendingMigrations <- liftResult (boundPending target (pendingOf migrations appliedMigrations)) ;;
  match pendingMigrations with
  | [] => ret tt
  | _ => applyMigrations pendingMigrations
  end.

Definition upByOneMigration (dir : Directory) : M unit :=
  migrations <- liftResult (getMigrationFiles dir) ;;
  appliedMigrations <- getAppliedMigrations ;;
  match pendingOf migrations appliedMigrations with
  | [] => ret tt
  | first :: _ => applyMigrations [first]
  end.

(** [sortedAppliedMigrations]: by [BigInt(version_id)], greatest first. *)
Definition compareApplied (a b : MigrationRecord) : Z :=
  (bigintOfScalar (version_id b) - bigintOfScalar (version_id a))%Z.

Definition sortedAppliedMigrations (appliedMigrations : list MigrationRecord)
    : list MigrationRecord :=
  sort compareApplied appliedMigrations.

(** [BigInt(m.version_id) > BigInt(version)], per element. *)
Fixpoint filterAbove (target : string) (l : list MigrationRecord)
    : Result (list MigrationRecord) :=
  match l with
  | [] => Ok []
  | m :: rest =>
      match BigIntOf (version_id m), Js.BigInt target with
      | Some v, Some t =>
          match filterAbove target rest with
          | Ok rest' => Ok (if (v >? t)%Z then m :: rest' else rest')
          | Err e => Err e
          end
      | None, _ => Err (SyntaxError (textOf (version_id m)))
      | _, None => Err (SyntaxError target)
      end
  end.

(** [migrationsToRollback], for a ledger that is not empty. *)
Definition migrationsToRollback (appliedMigrations : list MigrationRecord)
    (target : option string) : Result (list MigrationRecord) :=
  let sorted := sortedAppliedMigrations appliedMigrations in
  match target with
  | None => Ok (firstn 1 sorted)
  | Some v => filterAbove v sorted
  end.

(** The body of the [try] in the loop of [downToMigration], after the
    test of [irreversible]. *)
Definition rollbackMigration (migration : MigrationFile) : M unit :=
  let run :=
    match down (module migration) with
    | Some d => invoke (CallDown (filename migration)) d
    | None => ret tt
    end ;;;
    deleteWhere (version migration) in
  if noTransaction (module migration) then run else transaction run.

(** [migrations.find((m) => m.version === appliedMigration.version_id)] *)
Definition findMigration (migrations : list MigrationFile)
    (appliedMigration : MigrationRecord) : option MigrationFile :=
  find (fun m => strictEquals (version_id appliedMigration) (version m)) migrations.

(** The loop of [downToMigration]: [continue] when no file has the
    version, [break] at an irreversible migration. *)
Fixpoint rollbackLoop (migrations : list MigrationFile)
    (toRollback : list MigrationRecord) : M unit :=
  match toRollback with
  | [] => ret tt
  | appliedMigration :: rest =>
      match findMigration migrations appliedMigration with
      | None => rollbackLoop migrations rest
      | Some migration =>
          if irreversible (module migration) then ret tt
          else rollbackMigration migration ;;; rollbackLoop migrations rest
      end
  end.

Definition downToMigration (dir : Directory) (target : option string) : M unit :=
  migrations <- liftResult (getMigrationFiles dir) ;;
  appliedMigrations <- getAppliedMigrations ;;
  match appliedMigrations with
  | [] => ret tt
  | _ =>
      toRollback <- liftResult (migrationsToRollback appliedMigrations target) ;;
      rollbackLoop migrations toRollback
  end.

(** A line of [statusMigration]: the file, and the time of application
    when it is applied. *)
Definition statusLine (appliedMigrations : list MigrationRecord)
    (migration : MigrationFile) : string * option N :=
  (filename migration,
   option_map tstamp
     (find (fun applied => strictEquals (version_id applied) (version migration))
           appliedMigrations)).

(** [statusMigration]; the result is what it prints. *)
Definition statusMigration (dir : Directory) : M (list (string * option N)) :=
  migrations <- liftResult (getMigrationFiles dir) ;;
  appliedMigrations <- getAppliedMigrations ;;
  ret (map (statusLine appliedMigrations) migrations).

End Engine.

Arguments Undefined {Store}.
Arguments Boolean {Store} b.
Arguments Other {Store}.
Arguments Text {Store} content.
Arguments Unreadable {Store}.

(* ================================================================= *)
(** ** Notions used in the statements *)

(** The text whose lines are [ls], each ended by a line feed. *)
Definition joinLines (ls : list string) : string :=
  fold_right (fun l acc => l ++ Js.nl ++ acc) "" ls.

(** Ascending order of a key. *)
Definition keyLe {A : Type} (key : A -> Z) (a b : A) : Prop := (key a <= key b)%Z.

(** A line that the parser keeps outside a block: not blank and not a
    comment. *)
Definition isPlain (l : string) : bool :=
  negb (Js.trim l =? "") && negb (Js.startsWith (Js.trim l) "--").

(** A line that ends its statement. *)
Definition isTerminated (l : string) : bool := Js.endsWith (Js.trim l) ";".

(** A statement-begin marker without a statement-end marker after it. *)
Fixpoint unmatchedBegin (open : bool) (lines : list string) : bool :=
  match lines with
  | [] => open
  | l :: rest =>
      if Js.trim l =? "-- +goose StatementBegin" then unmatchedBegin true rest
      else if Js.trim l =? "-- +goose StatementEnd" then unmatchedBegin false rest
      else unmatchedBegin open rest
  end.

Definition hasUnterminatedBlock (sql : string) : bool :=
  unmatchedBegin false (Js.splitLines sql).

Fixpoint allDigits (s : string) : bool :=
  match s with
  | String c r => isDigit c && allDigits r
  | EmptyString => true
  end.

(** A numeral that is not the one the [bigint] column gives back: it has
    a leading zero. *)
Definition hasLeadingZero (v : string) : bool :=
  Js.startsWith v "0" && negb (v =? "0").

(** The ledger holds the baseline: a row of version 0. *)
Definition hasBaseline {Store : Type} (db : Db Store) : bool :=
  match table db with
  | Some rows => existsb (fun r => (col_version_id r =? 0)%Z) rows
  | None => false
  end.

(** The definitions loaded from a directory, none if loading fails. *)
Definition definitionsOf {Store : Type} (raw : string -> Action Store)
    (dir : Directory Store) : list (MigrationFile Store) :=
  match getMigrationFiles raw dir with
  | Ok ms => ms
  | Err _ => []
  end.

(** The ledger as [getAppliedMigrations] returns it, empty if it fails. *)
Definition recordsOf {Store : Type} (db : Db Store) : list MigrationRecord :=
  match getAppliedMigrations db with
  | (Ok l, _) => l
  | (Err _, _) => []
  end.

(** The version of a ledger entry, as a number. *)
Definition versionOf (a : MigrationRecord) : Z := bigintOfScalar (version_id a).

(** A ledger entry as a driver returns it: its [version_id] is the
    numeral of a value of the column, or a number. *)
Definition fromColumn (a : MigrationRecord) : Prop :=
  exists z, version_id a = StringValue (Js.toString z) \/ version_id a = NumberValue z.

(** Descending order of the version. *)
Definition versionGe (a b : MigrationRecord) : Prop := (versionOf b <= versionOf a)%Z.

(** The entries in descending order of [id], given in ascending order as
    [getAppliedMigrations] returns them: the most recently inserted
    first. *)
Definition mostRecentFirst (applied : list MigrationRecord) : list MigrationRecord :=
  rev applied.

(** A database for the examples: the store lists the statements run
    against it, and every statement is accepted. *)
Module Sample.

Definition Store : Type := list string.

Definition raw (statement : string) : Action Store :=
  fun s => (Ok tt, (s ++ [statement])%list).

(** A new database: no ledger table yet. *)
(** The two kinds of driver. *)
Definition postgres : Driver := mkDriver true true.

Definition sqlite : Driver := mkDriver false false.

Definition fresh : Db Store := mkDb None 1 0 [] [] postgres.

(** The database after [initializeDb]. *)
Definition seeded : Db Store := snd (initializeDb fresh).

(** An SQL migration that creates a table, and drops it on the way down. *)
Definition sqlFile (t : string) : FileBody Store :=
  Text (joinLines ["-- +goose Up"; "CREATE TABLE " ++ t ++ ";";
                   "-- +goose Down"; "DROP TABLE " ++ t ++ ";"]).

(** One explicit block of two statements in the Up section. *)
Definition blockText : string :=
  joinLines ["-- +goose Up"; "-- +goose StatementBegin";
             "SELECT 1;"; "SELECT 2;"; "-- +goose StatementEnd"].

(** A block that is begun and not ended. *)
Definition unterminatedText : string :=
  joinLines ["-- +goose Up"; "-- +goose StatementBegin"; "SELECT 1;"].

Definition unterminatedDir : Directory Store :=
  [("1_a.sql", Text unterminatedText)].

(** Two files of version 1. *)
Definition duplicateDir : Directory Store :=
  [("1_a.sql", sqlFile "a"); ("1_b.sql", sqlFile "b")].

(** An SQL migration flagged irreversible. *)
Definition irreversibleFile (t : string) : FileBody Store :=
  Text (joinLines ["-- +goose IRREVERSIBLE"; "-- +goose Up"; "CREATE TABLE " ++ t ++ ";";
                   "-- +goose Down"; "DROP TABLE " ++ t ++ ";"]).

(** Versions 1, 2 and 3, of which 2 is irreversible, applied in that order. *)
Definition savePointDir : Directory Store :=
  [("1_a.sql", sqlFile "a"); ("2_b.sql", irreversibleFile "b"); ("3_c.sql", sqlFile "c")].

Definition savePointDb : Db Store := snd (upMigration raw savePointDir None seeded).

(** Version 3 applied before version 2: the file of version 2 is added
    after the first run. *)
Definition lateDirBefore : Directory Store := [("3_c.sql", sqlFile "c")].

Definition lateDir : Directory Store :=
  [("2_b.sql", sqlFile "b"); ("3_c.sql", sqlFile "c")].

Definition outOfOrderDb : Db Store :=
  snd (upMigration raw lateDir None (snd (upMigration raw lateDirBefore None seeded))).

(** A JavaScript migration outside a transaction, whose [up] changes the
    store and then throws. *)
Definition failingUp : Action Store :=
  fun s => (Err (Thrown "boom"), (s ++ ["partial"])%list).

Definition failingDir : Directory Store :=
  [("1_a.js", Script (mkExports (Function failingUp) Undefined (Boolean true) Undefined));
   ("2_b.sql", sqlFile "b")].

(** A file of version 0, the version of the baseline. *)
Definition zeroDir : Directory Store := [("0_base.sql", sqlFile "base")].

(** A file whose version has a leading zero. *)
Definition paddedDir : Directory Store := [("07_g.sql", sqlFile "g")].

(** Two files of the version 7, one written with a leading zero. *)
Definition sevenDir : Directory Store :=
  [("07_g.sql", sqlFile "g"); ("7_h.sql", sqlFile "h")].

(** A ledger with the baseline and the version 7. *)
Definition sevenDb : Db Store :=
  mkDb (Some [mkRow 1 0 1 0; mkRow 2 7 1 0]) 3 0 [] [] postgres.

(** The database after [initializeDb], on a driver that returns numbers. *)
Definition seededSqlite : Db Store := snd (initializeDb (mkDb None 1 0 [] [] sqlite)).

End Sample.

(* ================================================================= *)
(** ** Notions used in the further properties *)

(** The two markers that set the section. *)
Definition isUpMarker (l : string) : bool := Js.trim l =? "-- +goose Up".

Definition isDownMarker (l : string) : bool := Js.trim l =? "-- +goose Down".

Definition isSectionMarker (l : string) : bool := isUpMarker l || isDownMarker l.

(** The statements of a list, one after the other. *)
Definition flatten (statements : list string) : string :=
  fold_right append "" statements.

(** The text whose lines are [ls], each ended by CR LF. *)
Definition joinCRLF (ls : list string) : string :=
  fold_right (fun l acc => l ++ String Js.CR Js.nl ++ acc) "" ls.

(** A line holds neither LF nor CR. *)
Fixpoint noLineBreak (l : string) : bool :=
  match l with
  | String c r => negb (Ascii.eqb c Js.LF) && negb (Ascii.eqb c Js.CR) && noLineBreak r
  | EmptyString => true
  end.


(* ================================================================= *)
(** ** More of [src/utils/common.ts] *)

Fixpoint repeatString (n : nat) (p : string) : string :=
  match n with
  | O => EmptyString
  | S n' => p ++ repeatString n' p
  end.

(** [s.padStart(targetLength, padString)] *)
Definition padStart (s : string) (targetLength : nat) (padString : string) : string :=
  let len := String.length s in
  if (targetLength <=? len)%nat then s
  else if padString =? "" then s
  else String.substring 0 (targetLength - len) (repeatString (targetLength - len) padString) ++ s.

(** [pad]: [String(n)] of an integer is its decimal numeral. *)
Definition pad (n : Z) : string := padStart (Js.toString n) 2 "0".

(** A [Date], as far as [formatDate] reads it. *)
Record DateValue := mkDate {
  getFullYear : Z;
  getMonth : Z;
  getDate : Z;
  getHours : Z;
  getMinutes : Z;
  getSeconds : Z
}.

Definition formatDate (date : DateValue) : string :=
  let year := getFullYear date in
  let month := pad (getMonth date + 1) in
  let day := pad (getDate date) in
  let hours := pad (getHours date) in
  let minutes := pad (getMinutes date) in
  let seconds := pad (getSeconds date) in
  Js.toString year ++ "/" ++ month ++ "/" ++ day ++ " " ++ hours ++ ":" ++ minutes ++ ":" ++ seconds.

(* ================================================================= *)
(** ** [src/core/create.ts] *)

(** [s.replaceAll(/[...]/g, "")] for a class of characters. *)
Fixpoint removeAll (inClass : ascii -> bool) (s : string) : string :=
  match s with
  | String c r => if inClass c then removeAll inClass r else String c (removeAll inClass r)
  | EmptyString => EmptyString
  end.

(** [s.replace(c, "")] for a string of one character: the first
    occurrence goes. *)
Fixpoint removeFirst (c : ascii) (s : string) : string :=
  match s with
  | String x r => if Ascii.eqb x c then r else String x (removeFirst c r)
  | EmptyString => EmptyString
  end.

(** [s.split(c)[0]] for a string of one character. *)
Fixpoint beforeFirst (c : ascii) (s : string) : string :=
  match s with
  | String x r => if Ascii.eqb x c then EmptyString else String x (beforeFirst c r)
  | EmptyString => EmptyString
  end.

(** [toLowerCase] on the code units below 256: A to Z, and the capital
    letters of Latin-1. *)
Definition lowerChar (c : ascii) : ascii :=
  let n := N_of_ascii c in
  if ((65 <=? n) && (n <=? 90) || (192 <=? n) && (n <=? 222) && negb (n =? 215))%N
  then ascii_of_N (n + 32)
  else c.

Fixpoint toLowerCase (s : string) : string :=
  match s with
  | String c r => String (lowerChar c) (toLowerCase r)
  | EmptyString => EmptyString
  end.

(** [s.replaceAll(/\s+/g, "_")]: each run of white space becomes one
    underscore.  [inRun] tells that the character before was white
    space. *)
Fixpoint replaceSpaces (inRun : bool) (s : string) : string :=
  match s with
  | String c r =>
      if Js.isWhiteSpace c then
        if inRun then replaceSpaces true r else String "_" (replaceSpaces true r)
      else String c (replaceSpaces false r)
  | EmptyString => EmptyString
  end.

Definition isDashOrColon (c : ascii) : bool := Ascii.eqb c "-" || Ascii.eqb c ":".

(** The [timestamp] of [createMigration], from [new Date().toISOString()]. *)
Definition timestampOf (isoNow : string) : string :=
  beforeFirst "." (removeFirst "T" (removeAll isDashOrColon isoNow)).

Definition formattedNameOf (name : string) : string :=
  replaceSpaces false (toLowerCase name).

Definition templateSql : string :=
  joinLines ["-- +goose Up"; "-- +goose StatementBegin"; "SELECT 'up SQL query';";
             "-- +goose StatementEnd"; ""; "-- +goose Down"; "-- +goose StatementBegin";
             "SELECT 'down SQL query';"; "-- +goose StatementEnd"].

(** A character that stands for itself in a file name, in a path and in
    a URL: a letter of the alphabet, a digit, [_], [-] or [.]. *)
Definition isNameChar (c : ascii) : bool :=
  let n := N_of_ascii c in
  ((48 <=? n) && (n <=? 57) || (65 <=? n) && (n <=? 90) || (97 <=? n) && (n <=? 122)
   || (n =? 95) || (n =? 45) || (n =? 46))%N.

Fixpoint allChars (inClass : ascii -> bool) (s : string) : bool :=
  match s with
  | String c r => inClass c && allChars inClass r
  | EmptyString => true
  end.

(** A name that is one segment of a path on every system: of such
    characters, not empty, neither [.] nor [..], and of at most 255
    characters. *)
Definition isPlainName (filename : string) : bool :=
  allChars isNameChar filename
  && negb (filename =? "") && negb (filename =? ".") && negb (filename =? "..")
  && (String.length filename <=? 255)%nat.

Section Create.
Variable Store : Type.

(** What importing the text of [templateJs] gives: an [up] and a [down]
    that do nothing, and no flags. *)
Definition templateJsExports : JsExports Store :=
  mkExports (Function (fun s => (Ok tt, s))) (Function (fun s => (Ok tt, s)))
            Undefined Undefined.

(** [fs.writeFile(filePath, content)]: the file is created, or replaced. *)
Definition writeFile (dir : Directory Store) (filename : string) (body : FileBody Store)
    : Directory Store :=
  (filter (fun e => negb (fst e =? filename)) dir ++ [(filename, body)])%list.

(** Whether the loader's [import] of [file:] and the path reads the file
    that [fs] finds at the path.  It does when the directory is given by
    an absolute path of plain names; a relative path after [file:] is
    resolved as a URL, and not against the working directory. *)
Variable importReadsDirectory : bool.

(** The calls of [createMigration] that the directory of the model
    follows, an entry being what the loader gets for a name.  The type is
    one of the two the function is written for, and for a JavaScript file
    the loader's [import] reads the directory.  The name of the file is a
    plain one, so that [path.join] names a file of the directory itself,
    the name stands for itself in the URL, and the name inside the comment
    of [templateJs] does not end the comment.  And the name is not that of
    an entry that cannot be read, which may be a directory. *)
Definition follows (migrationsDir : Directory Store) (filename migrationType : string) : bool :=
  ((migrationType =? "sql") || (migrationType =? "js") && importReadsDirectory)
  && isPlainName filename
  && match lookupFile migrationsDir filename with
     | Some Unreadable => false
     | _ => true
     end.

(** [createMigration]: the name of the new file, and the directory with
    it.  [isoNow] is [new Date().toISOString()].  For a call that the
    directory does not follow, where the path may leave the directory,
    the write may be refused or the loader may read another file, there
    is no result. *)
Definition createMigration (isoNow name migrationType : string)
    (migrationsDir : Directory Store) : option (string * Directory Store) :=
  let timestamp := timestampOf isoNow in
  let formattedName := formattedNameOf name in
  let filename := timestamp ++ "_" ++ formattedName ++ "." ++ migrationType in
  if follows migrationsDir filename migrationType then
    Some (filename,
          writeFile migrationsDir filename
            (if migrationType =? "sql" then Text templateSql else Script templateJsExports))
  else None.

End Create.

(* ================================================================= *)
(** ** Notions on the ledger *)

(** The ledger is in order: no version twice, the rows in ascending order
    of [id], every [id] below the next one to be given. *)
Definition ledgerOk {Store : Type} (db : Db Store) : Prop :=
  match table db with
  | Some rows =>
      NoDup (map col_version_id rows) /\
      StronglySorted (fun a b => (col_id a < col_id b)%N) rows /\
      Forall (fun r => (col_id r < nextId db)%N) rows
  | None => True
  end.

(** The call of the [up] of a definition. *)
Definition callUp {Store : Type} (m : MigrationFile Store) : Call := CallUp (filename m).

(** Ascending order of the version of a definition. *)
Definition versionLe {Store : Type} (a b : MigrationFile Store) : Prop :=
  (bigintOf (version a) <= bigintOf (version b))%Z.

(** The call a rollback makes for a ledger entry: the [down] of the
    definition found for it, if it has one. *)
Definition callsDown {Store : Type} (ms : list (MigrationFile Store))
    (a : MigrationRecord) : list Call :=
  match findMigration ms a with
  | Some m =>
      match down (module m) with
      | Some _ => [CallDown (filename m)]
      | None => []
      end
  | None => []
  end.

(* ================================================================= *)
(** ** [src/utils/dsn_parser.ts] *)

Definition SQLITE_DRIVERS : list string := ["sqlite3"; "better-sqlite3"].

Definition NON_SQLITE_DRIVERS : list string :=
  ["pg"; "pg-native"; "mysql"; "mysql2"; "oracledb"; "tedious"].

Definition ALL_DRIVERS : list string := (SQLITE_DRIVERS ++ NON_SQLITE_DRIVERS)%list.

(** [array.includes(s)] and [set.has(s)] on strings. *)
Definition hasString (l : list string) (s : string) : bool :=
  existsb (fun x => x =? s) l.

(** A character of the class [[a-z0-9-]], case ignored. *)
Definition isSchemeChar (c : ascii) : bool :=
  let n := N_of_ascii c in
  ((97 <=? n) && (n <=? 122) || (65 <=? n) && (n <=? 90) || (48 <=? n) && (n <=? 57)
   || (n =? 45))%N.

Fixpoint spanScheme (s : string) : string * string :=
  match s with
  | String c r =>
      if isSchemeChar c then let '(d, t) := spanScheme r in (String c d, t)
      else (EmptyString, s)
  | EmptyString => (EmptyString, EmptyString)
  end.

(** [(/^([a-z0-9-]+):\/\//i).exec(dsn)]: the first group, if the
    expression matches. *)
Definition matchedDriver (dsn : string) : option string :=
  match spanScheme dsn with
  | (String c d, rest) => if Js.startsWith rest "://" then Some (String c d) else None
  | (EmptyString, _) => None
  end.

(** [s.slice(0, -1)] *)
Fixpoint dropLast (s : string) : string :=
  match s with
  | String c EmptyString => EmptyString
  | String c r => String c (dropLast r)
  | EmptyString => EmptyString
  end.

(** The digits of the radix at the start of [s], as a number; [None]
    when there is none. *)
Fixpoint leadingDigits (radix : N) (acc : option N) (s : string) : option N :=
  match s with
  | String c r =>
      match Js.digitValue radix c with
      | Some d =>
          leadingDigits radix
            (Some (match acc with Some a => a * radix + d | None => d end)%N) r
      | None => acc
      end
  | EmptyString => acc
  end.

(** [Number.parseInt(s)] with no radix, for the integers a number holds
    exactly; [None] is [NaN]. *)
Definition parseInt (s : string) : option Z :=
  let t := Js.trimStart s in
  let negative := Js.startsWith t "-" in
  let u := if Js.startsWith t "-" || Js.startsWith t "+" then Js.slice 1 t else t in
  let magnitude :=
    if Js.startsWith u "0x" || Js.startsWith u "0X" then leadingDigits 16 None (Js.slice 2 u)
    else leadingDigits 10 None u in
  option_map (fun n => if negative then (- Z.of_N n)%Z else Z.of_N n) magnitude.

(** [Object.fromEntries(entries)], the object as the list of its entries:
    a later entry of a key replaces the value of the earlier one.  The
    order in which an object enumerates its keys is not modelled. *)
Fixpoint setEntry (k v : string) (o : list (string * string)) : list (string * string) :=
  match o with
  | (k', v') :: rest => if k' =? k then (k, v) :: rest else (k', v') :: setEntry k v rest
  | [] => [(k, v)]
  end.

Definition fromEntries (entries : list (string * string)) : list (string * string) :=
  fold_left (fun o e => setEntry (fst e) (snd e) o) entries [].

(** A [URL], as far as [dsnParser] reads it. *)
Record URL := mkURL {
  protocol : string;
  username : string;
  password : string;
  host : string;
  hostname : string;
  port : string;
  pathname : string;
  searchParams : list (string * string)
}.

Inductive DsnError :=
| DbStringRequired                       (* "db string is required" *)
| DriverRequired                         (* "Driver is required when db string does not specify one" *)
| UnsupportedDriver (driver : string)    (* "Unsupported driver: ..." *)
| InvalidFormat (dsn : string)           (* "Invalid db string format: ..." *)
| URIError.                              (* thrown by [decodeURI] *)

Inductive ConnectionParams :=
| SQLiteConnection (driver filename : string) (params : list (string * string))
| NonSQLiteConnection (driver : string) (user pass : option string) (hostName : string)
    (portNumber : option (option Z)) (database : string) (params : list (string * string)).

Definition driverOf (c : ConnectionParams) : string :=
  match c with
  | SQLiteConnection d _ _ => d
  | NonSQLiteConnection d _ _ _ _ _ _ => d
  end.

Section DsnParser.

(** [new URL(s)]: [None] when it throws. *)
Variable newURL : string -> option URL.

(** [decodeURI(s)]: [None] when it throws. *)
Variable decodeURI : string -> option string.

(** [s === "" ? undefined : decodeURI(s)] *)
Definition decodeUnlessEmpty (s : string) : option (option string) :=
  if s =? "" then Some None else option_map Some (decodeURI s).

(** The connection built from the parsed URL, for a supported driver. *)
Definition connectionOf (driver : string) (url : URL) : option ConnectionParams :=
  if hasString SQLITE_DRIVERS driver then
    match decodeURI (host url ++ pathname url) with
    | Some filename => Some (SQLiteConnection driver filename (fromEntries (searchParams url)))
    | None => None
    end
  else
    match decodeUnlessEmpty (username url), decodeUnlessEmpty (password url),
          decodeURI (hostname url), decodeURI (pathname url) with
    | Some user, Some pass, Some hostName, Some path =>
        Some (NonSQLiteConnection driver user pass hostName
                (if port url =? "" then None else Some (parseInt (port url)))
                (Js.slice 1 path) (fromEntries (searchParams url)))
    | _, _, _, _ => None
    end.

Definition dsnParser (dsn driver : option string) : DsnError + ConnectionParams :=
  match dsn with
  | None => inl DbStringRequired
  | Some dsn0 =>
      if Js.trim dsn0 =? "" then inl DbStringRequired
      else
        let dsn1 := Js.trim dsn0 in
        let prefixed :=
          match matchedDriver dsn1 with
          | Some _ => inr dsn1
          | None =>
              match driver with
              | None => inl DriverRequired
              | Some d =>
                  if hasString ALL_DRIVERS d then inr (d ++ "://" ++ dsn1)
                  else inl (UnsupportedDriver d)
              end
          end in
        match prefixed with
        | inl e => inl e
        | inr dsn2 =>
            match newURL (Js.trim dsn2) with
            | None => inl (InvalidFormat dsn2)
            | Some url =>
                let driver' := dropLast (protocol url) in
                if hasString ALL_DRIVERS driver' then
                  match connectionOf driver' url with
                  | Some c => inr c
                  | None => inl URIError
                  end
                else inl (UnsupportedDriver driver')
            end
        end
  end.

End DsnParser.

Unset Implicit Arguments.

(* ================================================================= *)
(** ** Strings *)

Lemma append_assoc (a b c : string) : (a ++ b) ++ c = a ++ (b ++ c).
Proof. induction a as [|x a IH]; simpl; [reflexivity | now rewrite IH]. Qed.

Lemma append_nil_r (a : string) : a ++ "" = a.
Proof. induction a as [|x a IH]; simpl; [reflexivity | now rewrite IH]. Qed.

Lemma startsWith_inv (s p : string) (c : ascii) :
  Js.startsWith s (String c p) = true ->
  exists r, s = String c r /\ Js.startsWith r p = true.
Proof.
  unfold Js.startsWith. destruct s as [|x r]; simpl; [discriminate|].
  destruct (ascii_dec c x) as [->|]; [|discriminate].
  intros H. now exists r.
Qed.

(* ================================================================= *)
(** ** The parser *)

Module ParserFacts.
Import Js SqlParser.

(** The step of the loop outside a block. *)
Lemma step_outside sec cur ups downs l :
  step (mkState sec false cur ups downs) l =
  if trim l =? "-- +goose Up" then mkState SecUp false cur ups downs
  else if trim l =? "-- +goose Down" then mkState SecDown false cur ups downs
  else if isPlain l then
    match sec with
    | SecNone => mkState sec false cur ups downs
    | SecUp =>
        if isTerminated l then mkState sec false "" (ups ++ [cur ++ l ++ nl]) downs
        else mkState sec false (cur ++ l ++ nl) ups downs
    | SecDown =>
        if isTerminated l then mkState sec false "" ups (downs ++ [cur ++ l ++ nl])
        else mkState sec false (cur ++ l ++ nl) ups downs
    end
  else mkState sec false cur ups downs.
Proof.
  unfold step, isPlain, isTerminated.
  destruct (trim l =? "-- +goose Up"); [reflexivity|].
  destruct (trim l =? "-- +goose Down"); [reflexivity|].
  destruct (trim l =? "") eqn:E1; [reflexivity|].
  destruct (startsWith (trim l) "--") eqn:E2; [reflexivity|].
  destruct (trim l =? "-- +goose StatementBegin") eqn:E3.
  { apply String.eqb_eq in E3. rewrite E3 in E2. discriminate E2. }
  destruct (trim l =? "-- +goose StatementEnd") eqn:E4.
  { apply String.eqb_eq in E4. rewrite E4 in E2. discriminate E2. }
  destruct sec; simpl; try reflexivity; now destruct (endsWith (trim l) ";").
Qed.

(** No line opens a block: the marker of a block's begin is itself a
    comment line, and the test for comments comes first. *)
Lemma step_inStatement st l :
  inStatement st = false -> inStatement (step st l) = false.
Proof.
  destruct st as [sec i cur ups downs]; cbn [inStatement]; intros ->.
  rewrite step_outside.
  repeat match goal with
         | |- context [if ?b then _ else _] => destruct b
         | |- context [match ?s with SecNone => _ | _ => _ end] => destruct s
         end; reflexivity.
Qed.

Lemma fold_inStatement lines st :
  inStatement st = false -> inStatement (fold_left step lines st) = false.
Proof.
  revert st. induction lines as [|l lines IH]; simpl; intros st H; [assumption|].
  apply IH. now apply step_inStatement.
Qed.

Lemma run_inStatement lines : inStatement (run lines) = false.
Proof. now apply fold_inStatement. Qed.

Lemma run_app pre post : run (pre ++ post) = fold_left step post (run pre).
Proof. unfold run. now rewrite fold_left_app. Qed.

(** A marker of the down section changes the section and nothing else. *)
Lemma step_down_marker sec cur ups downs marker :
  trim marker = "-- +goose Down" ->
  step (mkState sec false cur ups downs) marker = mkState SecDown false cur ups downs.
Proof. intros H. rewrite step_outside, H. reflexivity. Qed.

(** Lines that do not end a statement pile up in the accumulator. *)
Lemma fold_open_lines mid cur ups downs :
  Forall (fun l => isPlain l = true /\ isTerminated l = false) mid ->
  fold_left step mid (mkState SecDown false cur ups downs) =
  mkState SecDown false (cur ++ joinLines mid) ups downs.
Proof.
  revert cur. induction mid as [|l mid IH]; intros cur H;
    cbn [fold_left joinLines fold_right].
  - now rewrite append_nil_r.
  - inversion H as [|? ? [Hp Ht] Hmid]; subst.
    rewrite step_outside.
    assert (E1 : (trim l =? "-- +goose Up") = false).
    { apply String.eqb_neq. intros E. unfold isPlain in Hp. rewrite E in Hp. discriminate Hp. }
    assert (E2 : (trim l =? "-- +goose Down") = false).
    { apply String.eqb_neq. intros E. unfold isPlain in Hp. rewrite E in Hp. discriminate Hp. }
    rewrite E1, E2, Hp, Ht, IH by assumption.
    fold (joinLines mid). now rewrite !append_assoc.
Qed.

Lemma step_closing_line cur ups downs l :
  isPlain l = true -> isTerminated l = true ->
  step (mkState SecDown false cur ups downs) l =
  mkState SecDown false "" ups (downs ++ [cur ++ l ++ nl]).
Proof.
  intros Hp Ht. rewrite step_outside.
  assert (E1 : (trim l =? "-- +goose Up") = false).
  { apply String.eqb_neq. intros E. unfold isPlain in Hp. rewrite E in Hp. discriminate Hp. }
  assert (E2 : (trim l =? "-- +goose Down") = false).
  { apply String.eqb_neq. intros E. unfold isPlain in Hp. rewrite E in Hp. discriminate Hp. }
  now rewrite E1, E2, Hp, Ht.
Qed.

End ParserFacts.

(* ================================================================= *)
(** ** Numerals *)

Module NumberFacts.
Import Js.

Lemma isDigit_not_space c : isDigit c = true -> isWhiteSpace c = false.
Proof.
  destruct c as [[] [] [] [] [] [] [] []]; vm_compute; congruence.
Qed.

Lemma isDigit_uint_of_char c d :
  isDigit c = true -> exists d', uint_of_char c (Some d) = Some d'.
Proof.
  destruct c as [[] [] [] [] [] [] [] []]; vm_compute; intros H;
    try discriminate H; eexists; reflexivity.
Qed.

Lemma uint_of_char_isDigit c o d :
  uint_of_char c o = Some d -> isDigit c = true.
Proof.
  destruct o as [d0|]; [|discriminate].
  destruct c as [[] [] [] [] [] [] [] []]; simpl; intros H;
    try discriminate H; reflexivity.
Qed.

Lemma allDigits_NilEmpty s :
  allDigits s = true -> exists d, NilEmpty.uint_of_string s = Some d.
Proof.
  induction s as [|c r IH]; simpl; intros H.
  - now eexists.
  - apply andb_true_iff in H as [Hc Hr].
    destruct (IH Hr) as [d ->]. now apply isDigit_uint_of_char.
Qed.

Lemma NilEmpty_allDigits s d :
  NilEmpty.uint_of_string s = Some d -> allDigits s = true.
Proof.
  revert d. induction s as [|c r IH]; simpl; intros d H; [reflexivity|].
  rewrite (uint_of_char_isDigit _ _ _ H).
  destruct (NilEmpty.uint_of_string r) as [d0|] eqn:E.
  - now rewrite (IH d0).
  - destruct c as [[] [] [] [] [] [] [] []]; discriminate H.
Qed.

(** A string of one or more digits is a decimal numeral. *)
Lemma allDigits_parseDecimal s :
  s <> "" -> allDigits s = true ->
  exists d, NilZero.uint_of_string s = Some d /\ parseDecimal s = Some (N.of_uint d).
Proof.
  intros Hne H. destruct s as [|c r]; [congruence|].
  destruct (allDigits_NilEmpty _ H) as [d Hd].
  exists d. unfold parseDecimal, NilZero.uint_of_string. now rewrite Hd.
Qed.

Lemma trimStart_digits s : allDigits s = true -> trimStart s = s.
Proof.
  destruct s as [|c r]; simpl; [reflexivity|]. intros H.
  apply andb_true_iff in H as [Hc _]. now rewrite (isDigit_not_space _ Hc).
Qed.

Lemma trimEnd_digits s : allDigits s = true -> trimEnd s = s.
Proof.
  induction s as [|c r IH]; simpl; [reflexivity|]. intros H.
  apply andb_true_iff in H as [Hc Hr]. rewrite (IH Hr).
  destruct r; [now rewrite (isDigit_not_space _ Hc) | reflexivity].
Qed.

Lemma trim_digits s : allDigits s = true -> trim s = s.
Proof.
  intros H. unfold trim. rewrite (trimStart_digits _ H). now apply trimEnd_digits.
Qed.

(** A string of digits starts with none of the signs and prefixes that
    [BigInt] looks for. *)
Lemma startsWith_digits s (c : ascii) p :
  allDigits s = true -> isDigit c = false -> startsWith s (String c p) = false.
Proof.
  intros H Hc. destruct (startsWith s (String c p)) eqn:E; [|reflexivity].
  apply startsWith_inv in E as (r & -> & _). simpl in H.
  rewrite Hc in H. discriminate H.
Qed.

Lemma startsWith_digits2 s (c0 c : ascii) p :
  allDigits s = true -> isDigit c = false ->
  startsWith s (String c0 (String c p)) = false.
Proof.
  intros H Hc. destruct (startsWith s (String c0 (String c p))) eqn:E; [|reflexivity].
  apply startsWith_inv in E as (r & -> & E). simpl in H.
  apply andb_true_iff in H as [_ H].
  now rewrite (startsWith_digits _ _ _ H Hc) in E.
Qed.

(** [BigInt] does not throw on the version of a file name. *)
Lemma BigInt_digits s :
  s <> "" -> allDigits s = true ->
  exists d, NilZero.uint_of_string s = Some d /\ BigInt s = Some (Z.of_N (N.of_uint d)).
Proof.
  intros Hne H.
  destruct (allDigits_parseDecimal _ Hne H) as (d & Hd & Hp).
  exists d. split; [assumption|].
  unfold BigInt. rewrite (trim_digits _ H).
  apply String.eqb_neq in Hne. rewrite Hne.
  rewrite !startsWith_digits by (assumption || reflexivity).
  rewrite !startsWith_digits2 by (assumption || reflexivity).
  simpl. now rewrite Hp.
Qed.

Lemma string_of_uint_allDigits d : allDigits (NilEmpty.string_of_uint d) = true.
Proof. induction d; simpl; auto. Qed.

Lemma NilZero_string_allDigits d : allDigits (NilZero.string_of_uint d) = true.
Proof. destruct d; try reflexivity; apply (string_of_uint_allDigits). Qed.

Lemma NilZero_string_nonempty d : NilZero.string_of_uint d <> "".
Proof. destruct d; discriminate. Qed.

Lemma parseDecimal_pos p :
  parseDecimal (NilZero.string_of_uint (Pos.to_uint p)) = Some (N.pos p).
Proof.
  unfold parseDecimal.
  rewrite NilZero.usu by apply Unsigned.to_uint_nonnil.
  simpl. f_equal. apply Unsigned.of_to.
Qed.

(** The numeral of a non-negative number. *)
Lemma toString_of_N n : toString (Z.of_N n) = NilZero.string_of_uint (N.to_uint n).
Proof. destruct n; reflexivity. Qed.

(** [BigInt] reads back what [toString] writes: it does not throw on a
    [version_id] that comes from the [bigint] column. *)
Lemma BigInt_toString z : BigInt (toString z) = Some z.
Proof.
  destruct z as [|p|p].
  - reflexivity.
  - cbn [toString].
    destruct (BigInt_digits (NilZero.string_of_uint (Pos.to_uint p))) as (d & Hd & ->).
    + apply NilZero_string_nonempty.
    + apply NilZero_string_allDigits.
    + rewrite NilZero.usu in Hd by apply Unsigned.to_uint_nonnil.
      injection Hd as <-. unfold N.of_uint. now rewrite Unsigned.of_to.
  - cbn [toString]. unfold BigInt.
    pose proof (parseDecimal_pos p) as Hp.
    pose proof (NilZero_string_nonempty (Pos.to_uint p)) as Hne.
    pose proof (NilZero_string_allDigits (Pos.to_uint p)) as Ht.
    set (t := NilZero.string_of_uint (Pos.to_uint p)) in *. clearbody t.
    assert (Htrim : trim (String "-" t) = String "-" t).
    { unfold trim. cbn [trimStart]. change (isWhiteSpace "-") with false. cbv iota.
      cbn [trimEnd]. rewrite (trimEnd_digits _ Ht).
      destruct t; [congruence | reflexivity]. }
    rewrite Htrim. cbn -[parseDecimal]. rewrite Hp. now destruct t.
Qed.

Lemma bigintOf_toString z : bigintOf (toString z) = z.
Proof. unfold bigintOf. now rewrite BigInt_toString. Qed.

(** The [bigint] column reads back what [toString] writes. *)
Lemma columnValue_toString z :
  inBigintRange z = true -> columnValue (toString z) = Some z.
Proof.
  intros Hr. unfold columnValue. destruct z as [|p|p].
  - reflexivity.
  - cbn [toString].
    rewrite startsWith_digits by (apply NilZero_string_allDigits || reflexivity).
    rewrite parseDecimal_pos. cbn [option_map Z.of_N]. now rewrite Hr.
  - cbn [toString].
    pose proof (parseDecimal_pos p) as Hp.
    set (t := NilZero.string_of_uint (Pos.to_uint p)) in *. clearbody t.
    cbn -[parseDecimal inBigintRange]. rewrite Hp.
    destruct t; cbn -[inBigintRange]; now rewrite Hr.
Qed.

(** A numeral without a leading zero is the one its value is written as. *)
Lemma toString_canonical v d :
  NilZero.uint_of_string v = Some d -> hasLeadingZero v = false ->
  toString (Z.of_N (N.of_uint d)) = v.
Proof.
  intros Hd Hz. rewrite toString_of_N, DecimalN.Unsigned.to_of.
  pose proof (NilZero.sus _ _ Hd) as Hs.
  assert (Hu : Decimal.unorm d = d).
  { destruct d as [|d'|d'|d'|d'|d'|d'|d'|d'|d'|d']; try reflexivity.
    - now apply NilZero.uint_of_string_nonnil in Hd.
    - destruct d'; try reflexivity; exfalso;
        subst v; cbn in Hz; discriminate Hz. }
  now rewrite Hu.
Qed.

Lemma unorm_no_leading_zero d : hasLeadingZero (NilZero.string_of_uint (Decimal.unorm d)) = false.
Proof.
  induction d; try reflexivity. exact IHd.
Qed.

(** The numeral of a number has no leading zero. *)
Lemma toString_no_leading_zero z : hasLeadingZero (toString z) = false.
Proof.
  destruct z as [|p|p]; try reflexivity.
  cbn [toString].
  pose proof (Unsigned.to_of (Pos.to_uint p)) as E.
  rewrite Unsigned.of_to in E. cbn [N.to_uint] in E. rewrite E.
  apply unorm_no_leading_zero.
Qed.

End NumberFacts.

(* ================================================================= *)
(** ** Sorting *)

Section SortFacts.
Variable A : Type.
Variable compareFn : A -> A -> Z.

Lemma insertSorted_perm x l : Permutation (insertSorted compareFn x l) (x :: l).
Proof.
  induction l as [|y l IH]; simpl; [reflexivity|].
  destruct (compareFn x y <=? 0)%Z; [reflexivity|].
  rewrite IH. apply perm_swap.
Qed.

Lemma sort_perm l : Permutation (sort compareFn l) l.
Proof.
  induction l as [|x l IH]; simpl; [reflexivity|].
  rewrite insertSorted_perm. now constructor.
Qed.

Lemma sort_In x l : In x (sort compareFn l) <-> In x l.
Proof.
  split; apply Permutation_in; [| symmetry]; apply sort_perm.
Qed.

(** When [compareFn] is the difference of a key, the result is in
    ascending order of the key. *)
Variable key : A -> Z.
Hypothesis compareFn_key : forall a b, compareFn a b = (key a - key b)%Z.

Lemma insertSorted_sorted x l :
  StronglySorted (keyLe key) l -> StronglySorted (keyLe key) (insertSorted compareFn x l).
Proof.
  induction 1 as [|y l Hl IH Hy]; simpl.
  - repeat constructor.
  - rewrite compareFn_key. destruct (Z.leb_spec (key x - key y) 0) as [Hle|Hgt].
    + constructor; [now constructor|].
      constructor; [unfold keyLe; lia|].
      eapply Forall_impl; [|exact Hy]. unfold keyLe. intros; lia.
    + constructor; [assumption|].
      eapply Permutation_Forall; [symmetry; apply insertSorted_perm|].
      constructor; [unfold keyLe; lia | assumption].
Qed.

Lemma sort_sorted l : StronglySorted (keyLe key) (sort compareFn l).
Proof.
  induction l as [|x l IH]; simpl; [constructor | now apply insertSorted_sorted].
Qed.
End SortFacts.

(* ================================================================= *)
(** ** Loading the directory *)

Section LoaderFacts.
Variable Store : Type.
Variable raw : string -> Action Store.

Lemma spanDigits_allDigits s : allDigits (fst (spanDigits s)) = true.
Proof.
  induction s as [|c r IH]; simpl; [reflexivity|].
  destruct (isDigit c) eqn:E; [|reflexivity].
  destruct (spanDigits r) as [d t]. simpl in *. now rewrite E, IH.
Qed.

(** The version of a file name is one or more digits. *)
Lemma matchVersionPrefix_digits f v :
  matchVersionPrefix f = Some v -> v <> "" /\ allDigits v = true.
Proof.
  unfold matchVersionPrefix. pose proof (spanDigits_allDigits f) as H.
  destruct (spanDigits f) as [d t]. simpl in H.
  destruct d as [|c d]; [discriminate|].
  destruct t as [|c' t]; [discriminate|].
  destruct (Ascii.eqb_spec c' "_") as [->|Hne].
  - intros [= <-]. split; [discriminate | assumption].
  - destruct c' as [[] [] [] [] [] [] [] []]; try discriminate. now contradict Hne.
Qed.

(** After the filter, [getVersionFromFilename] does not throw. *)
Lemma isMigrationFile_version f :
  isMigrationFile f = true ->
  exists v, getVersionFromFilename f = Ok v /\ v <> "" /\ allDigits v = true.
Proof.
  unfold isMigrationFile, getVersionFromFilename. intros H.
  apply andb_true_iff in H as [_ H].
  destruct (matchVersionPrefix f) as [v|] eqn:E; [|discriminate].
  exists v. split; [reflexivity|]. now apply matchVersionPrefix_digits with f.
Qed.

Lemma getVersionFromFilename_digits f v :
  getVersionFromFilename f = Ok v -> v <> "" /\ allDigits v = true.
Proof.
  unfold getVersionFromFilename.
  destruct (matchVersionPrefix f) as [v'|] eqn:E; [|discriminate].
  intros [= <-]. now apply matchVersionPrefix_digits with f.
Qed.

(** What a successful load returns, file by file. *)
Lemma loadAll_spec dir fs ms :
  loadAll raw dir fs = Ok ms ->
  map (@filename Store) ms = fs /\
  Forall (fun m => getVersionFromFilename (filename m) = Ok (version m) /\
                   loadModule raw dir (filename m) = Ok (module m)) ms.
Proof.
  revert ms. induction fs as [|f fs IH]; simpl; intros ms H.
  - injection H as <-. split; constructor.
  - destruct (getVersionFromFilename f) as [v|] eqn:Ev; [|discriminate].
    destruct (loadModule raw dir f) as [md|] eqn:Em; [|discriminate].
    destruct (loadAll raw dir fs) as [ms'|]; [|discriminate].
    injection H as <-. destruct (IH ms' eq_refl) as [Hn Hf].
    split; simpl; [now rewrite Hn|]. constructor; [now split | assumption].
Qed.

(** The loop fails only where a file fails. *)
Lemma loadAll_ok dir fs :
  Forall (fun f => isMigrationFile f = true /\ isOk (loadModule raw dir f) = true) fs ->
  exists ms, loadAll raw dir fs = Ok ms.
Proof.
  induction 1 as [|f fs [Hf Hm] _ [ms IH]]; simpl.
  - now eexists.
  - destruct (isMigrationFile_version f Hf) as (v & -> & _).
    destruct (loadModule raw dir f) as [md|]; [|discriminate].
    rewrite IH. now eexists.
Qed.

Lemma migrationFilesOf_In (dir : Directory Store) f :
  In f (migrationFilesOf dir) <-> In f (readdir dir) /\ isMigrationFile f = true.
Proof.
  unfold migrationFilesOf. rewrite sort_In. apply filter_In.
Qed.

(** Loading succeeds when each migration file loads on its own, and
    returns the files in the order of the sort. *)
Lemma getMigrationFiles_ok dir :
  (forall f, In f (readdir dir) -> isMigrationFile f = true ->
             isOk (loadModule raw dir f) = true) ->
  exists ms, getMigrationFiles raw dir = Ok ms /\
             map (@filename Store) ms = migrationFilesOf dir.
Proof.
  intros H. unfold getMigrationFiles.
  destruct (loadAll_ok dir (migrationFilesOf dir)) as [ms Hms].
  - apply Forall_forall. intros f Hf. apply migrationFilesOf_In in Hf as [Hd Hm].
    split; [assumption | now apply H].
  - exists ms. split; [assumption|]. now apply loadAll_spec in Hms.
Qed.

(** Every loaded definition comes from a migration file of the
    directory, and its version is the prefix of the file name. *)
Lemma getMigrationFiles_spec dir ms :
  getMigrationFiles raw dir = Ok ms ->
  map (@filename Store) ms = migrationFilesOf dir /\
  Forall (fun m => In (filename m) (readdir dir) /\
                   isMigrationFile (filename m) = true /\
                   getVersionFromFilename (filename m) = Ok (version m) /\
                   loadModule raw dir (filename m) = Ok (module m)) ms.
Proof.
  unfold getMigrationFiles. intros H.
  apply loadAll_spec in H as [Hn Hf]. split; [assumption|].
  apply Forall_forall. intros m Hm.
  rewrite Forall_forall in Hf. destruct (Hf m Hm) as [Hv Hl].
  assert (Hin : In (filename m) (migrationFilesOf dir)).
  { rewrite <- Hn. now apply in_map. }
  apply migrationFilesOf_In in Hin as [Hd Hf'].
  repeat split; assumption.
Qed.
End LoaderFacts.

(* ================================================================= *)
(** ** The parser: claims *)

(** C7 (the code departs from the claim).  For the file whose Up section is
    one StatementBegin/StatementEnd block with the lines [SELECT 1;] and
    [SELECT 2;], the parser does not return the block as one statement: the
    begin marker is dropped as a comment before it is recognised, so the
    lines are split at their semicolons into two statements.
    [downStatements] is empty and there is no down action, as claimed. *)
Theorem C7_block_is_split_at_semicolons :
  SqlParser.upStatements (SqlParser.parseStatements Sample.blockText)
    = ["SELECT 1;" ++ Js.nl; "SELECT 2;" ++ Js.nl] /\
  SqlParser.upStatements (SqlParser.parseStatements Sample.blockText)
    <> ["SELECT 1;" ++ Js.nl ++ "SELECT 2;" ++ Js.nl] /\
  SqlParser.downStatements (SqlParser.parseStatements Sample.blockText) = [] /\
  down (parseSqlMigration Sample.raw Sample.blockText) = None.
Proof.
  repeat split; try reflexivity. vm_compute. discriminate.
Qed.

(** C2, as stated, fails: a file whose block is begun and never ended is
    loaded without error. *)
Lemma C2_counterexample :
  hasUnterminatedBlock Sample.unterminatedText = true /\
  isOk (getMigrationFiles Sample.raw Sample.unterminatedDir) = true.
Proof. split; reflexivity. Qed.

(** C2, amended.  The parser has no error: for every text, also one in
    which a block is begun and never ended, it returns a module.  So a
    directory whose migration files are all readable SQL files loads
    without error, whatever their texts are, and each definition is the
    module parsed from the text of its file. *)
Theorem C2_sql_text_never_aborts_load (Store : Type) (raw : string -> Action Store)
    (dir : Directory Store) :
  (forall f, In f (readdir dir) -> isMigrationFile f = true ->
     Js.endsWith f ".sql" = true /\ exists sql, lookupFile dir f = Some (Text sql)) ->
  exists ms, getMigrationFiles raw dir = Ok ms /\
    Forall (fun m => exists sql, lookupFile dir (filename m) = Some (Text sql) /\
                                 module m = parseSqlMigration raw sql) ms.
Proof.
  intros H.
  destruct (getMigrationFiles_ok Store raw dir) as (ms & Hms & _).
  { intros f Hin Hf. destruct (H f Hin Hf) as (He & sql & Hl).
    unfold loadModule. now rewrite He, Hl. }
  exists ms. split; [assumption|].
  apply getMigrationFiles_spec in Hms as [_ Hall].
  eapply Forall_impl; [|exact Hall]. cbv beta.
  intros m (Hin & Hf & _ & Hl).
  destruct (H _ Hin Hf) as (He & sql & Hs).
  exists sql. split; [assumption|].
  unfold loadModule in Hl. rewrite He, Hs in Hl. now injection Hl.
Qed.

Lemma C2_sql_text_never_aborts_load_witness :
  exists ms,
    getMigrationFiles Sample.raw Sample.unterminatedDir = Ok ms /\
    Forall (fun m => exists sql,
              lookupFile Sample.unterminatedDir (filename m) = Some (Text sql) /\
              module m = parseSqlMigration Sample.raw sql) ms.
Proof.
  apply (C2_sql_text_never_aborts_load Sample.Store Sample.raw Sample.unterminatedDir).
  intros f Hin _. simpl in Hin. destruct Hin as [<-|[]].
  split; [reflexivity | eexists; reflexivity].
Defined.

(* ================================================================= *)
(** ** The runner *)

Section RunnerFacts.
Variable Store : Type.


Lemma applyMigrations_app (pre post : list (MigrationFile Store)) db :
  applyMigrations (pre ++ post) db =
  match applyMigrations pre db with
  | (Ok _, db') => applyMigrations post db'
  | (Err e, db') => (Err e, db')
  end.
Proof.
  revert db. induction pre as [|m pre IH]; intros db; [reflexivity|].
  cbn [app applyMigrations]. unfold bind.
  destruct (applyMigration m db) as [[[]|e] db']; [apply IH | reflexivity].
Qed.

End RunnerFacts.



(** The same example through [downToMigration]: the rows of 0, 1 and 2
    stay, and the one action called is the [down] of 3. *)
Example rollback_to_zero_stops_at_save_point :
  let r := downToMigration Sample.raw Sample.savePointDir (Some "0") Sample.savePointDb in
  fst r = Ok tt /\
  option_map (map col_version_id) (table (snd r)) = Some [0; 1; 2]%Z /\
  calls (snd r) = (calls Sample.savePointDb ++ [CallDown "3_c.sql"])%list.
Proof. cbv zeta. repeat split. Qed.

(** C6.  In a batch, a migration outside a transaction whose [up] throws
    leaves the ledger table as it was before the migration: no row is
    inserted for its version.  What [up] did to the store before it threw
    stays.  The error is the result of the batch, and the migrations
    after it are not called: the trace ends with the call of the failed
    [up]. *)
Theorem C6_failed_up_outside_transaction (Store : Type)
    (pre rest : list (MigrationFile Store)) (migration : MigrationFile Store)
    (db db1 : Db Store) (e : Error) (s' : Store) :
  applyMigrations pre db = (Ok tt, db1) ->
  noTransaction (module migration) = true ->
  up (module migration) (store db1) = (Err e, s') ->
  applyMigrations (pre ++ migration :: rest) db =
    (Err e, mkDb (table db1) (nextId db1) (now db1) s'
                 (calls db1 ++ [CallUp (filename migration)]) (driver db1)).
Proof.
  intros Hpre Hn Hup. rewrite applyMigrations_app, Hpre.
  cbn [applyMigrations]. unfold bind at 1. unfold applyMigration. rewrite Hn.
  unfold bind, invoke. now rewrite Hup.
Qed.

Lemma C6_failed_up_outside_transaction_witness :
  applyMigrations (definitionsOf Sample.raw Sample.failingDir) Sample.seeded =
    (Err (Thrown "boom"),
     mkDb (table Sample.seeded) (nextId Sample.seeded) (now Sample.seeded)
          ["partial"] [CallUp "1_a.js"] (driver Sample.seeded)).
Proof.
  apply (C6_failed_up_outside_transaction Sample.Store []
           [mkFile "2" "2_b.sql"
              (parseSqlMigration Sample.raw
                 (joinLines ["-- +goose Up"; "CREATE TABLE b;";
                             "-- +goose Down"; "DROP TABLE b;"]))]
           (mkFile "1" "1_a.js" (mkModule Sample.failingUp None true false))
           Sample.seeded Sample.seeded (Thrown "boom") ["partial"]).
  - reflexivity.
  - reflexivity.
  - reflexivity.
Defined.

(** The same failure through [upMigration]: the error reaches the caller. *)
Example failed_up_reaches_caller :
  let r := upMigration Sample.raw Sample.failingDir None Sample.seeded in
  fst r = Err (Thrown "boom") /\
  table (snd r) = table Sample.seeded /\
  calls (snd r) = [CallUp "1_a.js"].
Proof. cbv zeta. repeat split. Qed.

(* ================================================================= *)
(** ** Applied or pending *)

Section MembershipFacts.
Variable Store : Type.

(** [v === s] holds when [v] is the string [s]. *)
Lemma strictEquals_true v s : strictEquals v s = true <-> v = StringValue s.
Proof.
  destruct v as [t|z]; cbn [strictEquals].
  - rewrite String.eqb_eq. split; congruence.
  - split; discriminate.
Qed.

Lemma isApplied_true (applied : list MigrationRecord) (m : MigrationFile Store) :
  isApplied applied m = true <->
  exists a, In a applied /\ version_id a = StringValue (version m).
Proof.
  unfold isApplied. rewrite existsb_exists.
  split; intros (a & Ha & E); exists a; (split; [assumption|]); now apply strictEquals_true.
Qed.

Lemma isApplied_false (applied : list MigrationRecord) (m : MigrationFile Store) :
  isApplied applied m = false <->
  forall a, In a applied -> version_id a <> StringValue (version m).
Proof.
  split.
  - intros H a Ha E.
    assert (isApplied applied m = true) by (apply isApplied_true; now exists a).
    congruence.
  - intros H. destruct (isApplied applied m) eqn:E; [|reflexivity].
    apply isApplied_true in E as (a & Ha & E). now apply H in Ha.
Qed.

Lemma pendingOf_In (migrations : list (MigrationFile Store)) applied m :
  In m (pendingOf migrations applied) <->
  In m migrations /\ isApplied applied m = false.
Proof.
  unfold pendingOf. rewrite filter_In. now rewrite negb_true_iff.
Qed.

Lemma findMigration_none (migrations : list (MigrationFile Store)) entry :
  (forall m, In m migrations -> version_id entry <> StringValue (version m)) ->
  findMigration migrations entry = None.
Proof.
  unfold findMigration. induction migrations as [|m ms IH]; intros H; [reflexivity|].
  cbn [find]. destruct (strictEquals (version_id entry) (version m)) eqn:E.
  - exfalso. apply (H m); [now left | now apply strictEquals_true].
  - apply IH. intros m' Hm'. apply H. now right.
Qed.

Lemma findMigration_some (migrations : list (MigrationFile Store)) entry m :
  findMigration migrations entry = Some m ->
  In m migrations /\ version_id entry = StringValue (version m).
Proof.
  unfold findMigration. intros H. apply find_some in H as [Hin E].
  split; [assumption | now apply strictEquals_true].
Qed.

(** The first definition of a version is the one that is found. *)
Lemma findMigration_first (migrations : list (MigrationFile Store)) entry m :
  In m migrations -> version_id entry = StringValue (version m) ->
  exists m', findMigration migrations entry = Some m' /\ version m' = version m.
Proof.
  unfold findMigration. intros Hin E.
  induction migrations as [|x ms IH]; [contradiction|]. cbn [find].
  destruct (strictEquals (version_id entry) (version x)) eqn:Ex.
  - exists x. split; [reflexivity|]. apply strictEquals_true in Ex. congruence.
  - destruct Hin as [->|Hin]; [|now apply IH].
    rewrite E in Ex. cbn in Ex. now rewrite String.eqb_refl in Ex.
Qed.

(** A number is no string: a record read as a number is the entry of no
    definition. *)
Lemma findMigration_number (migrations : list (MigrationFile Store)) entry z :
  version_id entry = NumberValue z -> findMigration migrations entry = None.
Proof.
  intros E. apply findMigration_none. intros m _. rewrite E. discriminate.
Qed.

Lemma migrationFilesOf_sorted (dir : Directory Store) :
  StronglySorted (keyLe versionNumber) (migrationFilesOf dir).
Proof. apply sort_sorted. reflexivity. Qed.

End MembershipFacts.

(* ================================================================= *)
(** ** Versions shared by two files *)

(** C3, as stated, fails: a directory with two files of version 1 loads
    without error, and the result holds both. *)
Lemma C3_counterexample :
  isOk (getMigrationFiles Sample.raw Sample.duplicateDir) = true /\
  map (fun m => (version m, filename m)) (definitionsOf Sample.raw Sample.duplicateDir)
    = [("1", "1_a.sql"); ("1", "1_b.sql")].
Proof. split; reflexivity. Qed.

(** C3, amended.  Loading does not compare the versions of the files with
    each other.  Whenever each migration file of the directory loads on
    its own, loading succeeds and returns one definition for each of them,
    those of files with the same version included, in ascending order of
    the version as a number; the version of a definition is the prefix of
    its file name. *)
Theorem C3_load_keeps_files_of_equal_version (Store : Type)
    (raw : string -> Action Store) (dir : Directory Store) :
  (forall f, In f (readdir dir) -> isMigrationFile f = true ->
             isOk (loadModule raw dir f) = true) ->
  exists ms,
    getMigrationFiles raw dir = Ok ms /\
    Permutation (map (@filename Store) ms) (filter isMigrationFile (readdir dir)) /\
    StronglySorted (keyLe versionNumber) (map (@filename Store) ms) /\
    Forall (fun m => getVersionFromFilename (filename m) = Ok (version m)) ms.
Proof.
  intros H. destruct (getMigrationFiles_ok Store raw dir H) as (ms & Hms & Hn).
  exists ms. split; [assumption|]. rewrite Hn.
  split; [apply sort_perm|].
  split; [apply migrationFilesOf_sorted|].
  apply getMigrationFiles_spec in Hms as [_ Hall].
  eapply Forall_impl; [|exact Hall]. cbv beta. now intros m (_ & _ & Hv & _).
Qed.

Lemma C3_load_keeps_files_of_equal_version_witness :
  exists ms,
    getMigrationFiles Sample.raw Sample.duplicateDir = Ok ms /\
    Permutation (map (@filename _) ms) (filter isMigrationFile (readdir Sample.duplicateDir)) /\
    StronglySorted (keyLe versionNumber) (map (@filename _) ms) /\
    Forall (fun m => getVersionFromFilename (filename m) = Ok (version m)) ms.
Proof.
  apply (C3_load_keeps_files_of_equal_version Sample.Store Sample.raw Sample.duplicateDir).
  intros f Hin _. simpl in Hin. destruct Hin as [<-|[<-|[]]]; reflexivity.
Defined.

(* ================================================================= *)
(** ** The ledger as it is read *)

Section LedgerFacts.
Variable Store : Type.

Lemma getAppliedMigrations_spec (db db' : Db Store) applied :
  getAppliedMigrations db = (Ok applied, db') ->
  db' = db /\
  exists rows, table db = Some rows /\
               applied = map (toRecord (driver db)) (sort compareId rows).
Proof.
  unfold getAppliedMigrations, selectAll.
  destruct (table db) as [rows|]; [|discriminate].
  intros [= <- <-]. split; [reflexivity|]. now exists rows.
Qed.

Lemma getAppliedMigrations_table (db : Db Store) rows :
  table db = Some rows ->
  getAppliedMigrations db = (Ok (map (toRecord (driver db)) (sort compareId rows)), db).
Proof. unfold getAppliedMigrations, selectAll. now intros ->. Qed.

Lemma toRecord_fromColumn d l : Forall fromColumn (map (toRecord d) l).
Proof.
  apply Forall_forall. intros a Ha. apply in_map_iff in Ha as (r & <- & _).
  unfold fromColumn, toRecord, readBigint. cbn [version_id].
  destruct (bigintAsString d); eexists; [left | right]; reflexivity.
Qed.

(** A value read from the column is one on which [BigInt] does not throw. *)
Lemma fromColumn_BigIntOf a : fromColumn a -> BigIntOf (version_id a) = Some (versionOf a).
Proof.
  unfold versionOf. intros [z [-> | ->]]; cbn [BigIntOf bigintOfScalar]; [|reflexivity].
  now rewrite NumberFacts.BigInt_toString, NumberFacts.bigintOf_toString.
Qed.

(** What a record tells of its row when its version is a string: the
    driver returns strings, and the string is the numeral of the column. *)
Lemma toRecord_string d r s :
  version_id (toRecord d r) = StringValue s ->
  bigintAsString d = true /\ s = Js.toString (col_version_id r).
Proof.
  unfold toRecord, readBigint. cbn [version_id].
  destruct (bigintAsString d); [|discriminate]. intros [= <-]. now split.
Qed.

Lemma toRecord_version d r :
  bigintAsString d = true ->
  version_id (toRecord d r) = StringValue (Js.toString (col_version_id r)) /\
  versionOf (toRecord d r) = col_version_id r.
Proof.
  intros Hd. unfold versionOf, toRecord, readBigint. cbn [version_id]. rewrite Hd.
  split; [reflexivity | apply NumberFacts.bigintOf_toString].
Qed.

Lemma toRecord_number d r :
  bigintAsString d = false ->
  version_id (toRecord d r) = NumberValue (toDouble (col_version_id r)).
Proof. intros Hd. unfold toRecord, readBigint. cbn [version_id]. now rewrite Hd. Qed.

Lemma getAppliedMigrations_fromColumn (db db' : Db Store) applied :
  getAppliedMigrations db = (Ok applied, db') -> Forall fromColumn applied.
Proof.
  intros H. apply getAppliedMigrations_spec in H as (_ & rows & _ & ->).
  apply toRecord_fromColumn.
Qed.

(** On entries read from the column, the filter of [downToMigration]
    does not throw. *)
Lemma filterAbove_fromColumn target t l :
  Js.BigInt target = Some t -> Forall fromColumn l ->
  filterAbove target l = Ok (filter (fun a => (versionOf a >? t)%Z) l).
Proof.
  intros Ht. induction 1 as [|a l Ha _ IH]; [reflexivity|].
  cbn [filterAbove filter]. now rewrite (fromColumn_BigIntOf a Ha), Ht, IH.
Qed.

Lemma StronglySorted_weaken {A : Type} (R R' : A -> A -> Prop) l :
  (forall a b, R a b -> R' a b) -> StronglySorted R l -> StronglySorted R' l.
Proof.
  intros H. induction 1 as [|a l _ IH Ha]; constructor; [assumption|].
  eapply Forall_impl; [|exact Ha]. intros b. apply H.
Qed.

Lemma sortedAppliedMigrations_perm applied :
  Permutation (sortedAppliedMigrations applied) applied.
Proof. apply sort_perm. Qed.

Lemma sortedAppliedMigrations_sorted applied :
  StronglySorted versionGe (sortedAppliedMigrations applied).
Proof.
  apply StronglySorted_weaken with (R := keyLe (fun a => (- versionOf a)%Z)).
  - unfold keyLe, versionGe. intros; lia.
  - apply sort_sorted. intros a b. unfold compareApplied, versionOf. lia.
Qed.

End LedgerFacts.

(** C1, as stated, fails.  Version 3 is applied, then version 2: the
    entry inserted last is that of version 2.  With no target the one
    candidate is the entry of version 3; with target 0 the walk takes the
    entry of version 3 before that of version 2. *)
Lemma C1_counterexample :
  let applied := recordsOf Sample.outOfOrderDb in
  map (fun a => (id a, version_id a)) applied
    = [(StringValue "1", StringValue "0"); (StringValue "2", StringValue "3");
       (StringValue "3", StringValue "2")] /\
  migrationsToRollback applied None = Ok [mkRecord (StringValue "2") (StringValue "3") 1 0] /\
  migrationsToRollback applied None <> Ok (firstn 1 (mostRecentFirst applied)) /\
  migrationsToRollback applied (Some "0")
    = Ok [mkRecord (StringValue "2") (StringValue "3") 1 0;
          mkRecord (StringValue "3") (StringValue "2") 1 0] /\
  migrationsToRollback applied (Some "0")
    <> Ok (filter (fun a => (versionOf a >? 0)%Z) (mostRecentFirst applied)).
Proof.
  cbv zeta. split; [reflexivity|]. split; [reflexivity|].
  split; [vm_compute; discriminate|]. split; [reflexivity|].
  vm_compute; discriminate.
Qed.

(** C1, amended.  The walk of a rollback takes its candidates in
    descending order of the version as a number.  The ledger entries are
    sorted by that order; with no target the one candidate is the first
    of them, an entry of the greatest version in the ledger; with a target
    the candidates are the entries of a version greater than the target,
    in that order. *)
Theorem C1_candidates_by_descending_version (Store : Type) (db : Db Store)
    (applied : list MigrationRecord) :
  getAppliedMigrations db = (Ok applied, db) ->
  Permutation (sortedAppliedMigrations applied) applied /\
  StronglySorted versionGe (sortedAppliedMigrations applied) /\
  (applied <> [] ->
   exists top, migrationsToRollback applied None = Ok [top] /\
               In top applied /\
               forall a, In a applied -> (versionOf a <= versionOf top)%Z) /\
  (forall target t, Js.BigInt target = Some t ->
     migrationsToRollback applied (Some target)
       = Ok (filter (fun a => (versionOf a >? t)%Z) (sortedAppliedMigrations applied))).
Proof.
  intros Hget.
  pose proof (sortedAppliedMigrations_perm applied) as Hperm.
  pose proof (sortedAppliedMigrations_sorted applied) as Hsorted.
  split; [assumption|]. split; [assumption|]. split.
  - intros Hne. unfold migrationsToRollback.
    destruct (sortedAppliedMigrations applied) as [|top others] eqn:E.
    + apply Permutation_nil in Hperm. congruence.
    + exists top. split; [reflexivity|].
      split; [apply (Permutation_in _ Hperm); now left|].
      intros a Ha. apply (Permutation_in _ (Permutation_sym Hperm)) in Ha.
      destruct Ha as [<-|Ha]; [lia|].
      apply StronglySorted_inv in Hsorted as [_ Hall].
      rewrite Forall_forall in Hall. now apply Hall.
  - intros target t Ht. unfold migrationsToRollback.
    apply filterAbove_fromColumn; [assumption|].
    eapply Permutation_Forall; [symmetry; exact Hperm|].
    now apply getAppliedMigrations_fromColumn with Store db db.
Qed.

Lemma C1_candidates_by_descending_version_witness :
  let applied := recordsOf Sample.outOfOrderDb in
  exists top, migrationsToRollback applied None = Ok [top] /\
              In top applied /\
              forall a, In a applied -> (versionOf a <= versionOf top)%Z.
Proof.
  intros applied.
  destruct (C1_candidates_by_descending_version Sample.Store Sample.outOfOrderDb applied)
    as (_ & _ & Htop & _).
  - reflexivity.
  - apply Htop. discriminate.
Defined.

(* ================================================================= *)
(** ** What the runner does to the ledger table *)

Section TableFacts.
Variable Store : Type.
Variable raw : string -> Action Store.

(** A migration that is applied adds one row, of its version; one that
    fails leaves the table as it was. *)
Lemma applyMigration_table (m : MigrationFile Store) db r db' :
  applyMigration m db = (r, db') ->
  match r with
  | Ok _ => exists rows z,
      table db = Some rows /\ columnValue (version m) = Some z /\
      table db' = Some (rows ++ [mkRow (nextId db) z 1 (now db)])%list
  | Err _ => table db' = table db
  end.
Proof.
  unfold applyMigration, transaction, bind, invoke, insert, insertVersion, throw.
  destruct (noTransaction (module m));
    destruct (up (module m) (store db)) as [[[]|e] s];
    destruct (columnValue (version m)) as [z|]; cbn [table nextId now];
    destruct (table db) as [rows|];
    try destruct (existsb _ rows);
    intros [= <- <-]; cbn [table]; try reflexivity;
    exists rows, z; auto.
Qed.

(** A migration that is rolled back loses the rows of its version; one
    whose rollback fails leaves the table as it was. *)
Lemma rollbackMigration_table (m : MigrationFile Store) db r db' :
  rollbackMigration m db = (r, db') ->
  match r with
  | Ok _ => exists rows z,
      table db = Some rows /\ columnValue (version m) = Some z /\
      table db' = Some (filter (fun x => negb (col_version_id x =? z)%Z) rows)
  | Err _ => table db' = table db
  end.
Proof.
  unfold rollbackMigration, transaction, bind, invoke, deleteWhere, throw, ret.
  destruct (noTransaction (module m));
    destruct (down (module m)) as [d|];
    try destruct (d (store db)) as [[[]|e] s];
    destruct (columnValue (version m)) as [z|]; cbn beta iota zeta delta [table nextId now];
    destruct (table db) as [rows|] eqn:Et;
    intros [= <- <-]; cbn [table]; try reflexivity; try assumption;
    exists rows, z; auto.
Qed.

Lemma applyMigration_baseline (m : MigrationFile Store) db :
  hasBaseline db = true -> hasBaseline (snd (applyMigration m db)) = true.
Proof.
  intros H. destruct (applyMigration m db) as [r db'] eqn:E.
  apply applyMigration_table in E. cbn [snd]. unfold hasBaseline in *.
  destruct r as [[]|e].
  - destruct E as (rows & z & Hr & _ & ->). rewrite Hr in H.
    rewrite existsb_app, H. reflexivity.
  - now rewrite E.
Qed.

Lemma applyMigrations_baseline (ms : list (MigrationFile Store)) db :
  hasBaseline db = true -> hasBaseline (snd (applyMigrations ms db)) = true.
Proof.
  revert db. induction ms as [|m ms IH]; intros db H; [assumption|].
  cbn [applyMigrations]. unfold bind.
  pose proof (applyMigration_baseline m db H) as H1.
  destruct (applyMigration m db) as [[[]|e] db1]; cbn [snd] in *; [now apply IH | assumption].
Qed.

(** The column gives back no other number than the one written. *)
Lemma columnValue_toString_inv z z' :
  columnValue (Js.toString z) = Some z' -> z' = z.
Proof.
  destruct (inBigintRange z) eqn:Hr.
  - rewrite NumberFacts.columnValue_toString by assumption. now intros [= <-].
  - unfold columnValue.
    assert (Hv : (if Js.startsWith (Js.toString z) "-"
                  then option_map Js.negative (Js.parseDecimal (Js.slice 1 (Js.toString z)))
                  else option_map Z.of_N (Js.parseDecimal (Js.toString z))) = Some z).
    { destruct z as [|p|p].
      - reflexivity.
      - cbn [Js.toString].
        rewrite NumberFacts.startsWith_digits
          by (apply NumberFacts.NilZero_string_allDigits || reflexivity).
        now rewrite NumberFacts.parseDecimal_pos.
      - cbn [Js.toString].
        pose proof (NumberFacts.parseDecimal_pos p) as Hp.
        set (t := NilZero.string_of_uint (Pos.to_uint p)) in *. clearbody t.
        cbn -[Js.parseDecimal]. rewrite Hp. now destruct t. }
    rewrite Hv, Hr. discriminate.
Qed.

(** The definition found for a ledger entry has the version the column
    holds for that entry, and that is the version its rollback deletes. *)
Lemma found_version (ms : list (MigrationFile Store)) a m z' :
  fromColumn a -> findMigration ms a = Some m ->
  columnValue (version m) = Some z' -> z' = versionOf a /\ version m = Js.toString z'.
Proof.
  intros [z Hz] Hf Hc. apply findMigration_some in Hf as [_ Hv].
  destruct Hz as [Hz|Hz]; [|congruence].
  rewrite Hz in Hv. injection Hv as Hv.
  unfold versionOf. rewrite Hz. cbn [bigintOfScalar]. rewrite NumberFacts.bigintOf_toString.
  rewrite <- Hv in Hc. apply columnValue_toString_inv in Hc. subst z'.
  split; [reflexivity | congruence].
Qed.

Lemma rollbackMigration_baseline (m : MigrationFile Store) db :
  (forall z, columnValue (version m) = Some z -> z <> 0%Z) ->
  hasBaseline db = true -> hasBaseline (snd (rollbackMigration m db)) = true.
Proof.
  intros Hne H.
  destruct (rollbackMigration m db) as [r db'] eqn:E.
  apply rollbackMigration_table in E. cbn [snd]. unfold hasBaseline in *.
  destruct r as [[]|e]; [|now rewrite E].
  destruct E as (rows & z & Hr & Hc & ->). rewrite Hr in H.
  apply Hne in Hc.
  apply existsb_exists in H as (x & Hx & Hx0). apply Z.eqb_eq in Hx0.
  apply existsb_exists. exists x. split; [|now apply Z.eqb_eq].
  apply filter_In. split; [assumption|].
  apply negb_true_iff, Z.eqb_neq. congruence.
Qed.

(** A walk none of whose entries of version 0 has a definition keeps the
    baseline. *)
Lemma rollbackLoop_baseline (migrations : list (MigrationFile Store)) toRollback db :
  Forall (fun a => fromColumn a /\
                   forall m, findMigration migrations a = Some m -> versionOf a <> 0%Z)
         toRollback ->
  hasBaseline db = true ->
  hasBaseline (snd (rollbackLoop migrations toRollback db)) = true.
Proof.
  intros Hall. revert db.
  induction Hall as [|a l [Hfc Ha] _ IH]; intros db H; [assumption|].
  cbn [rollbackLoop].
  destruct (findMigration migrations a) as [m|] eqn:Ef; [|now apply IH].
  destruct (irreversible (module m)); [assumption|].
  unfold bind.
  assert (H1 : hasBaseline (snd (rollbackMigration m db)) = true).
  { apply rollbackMigration_baseline; [|assumption].
    intros z Hz. destruct (found_version _ _ _ _ Hfc Ef Hz) as [-> _]. now apply (Ha m). }
  destruct (rollbackMigration m db) as [[[]|e] db1]; cbn [snd] in *;
    [now apply IH | assumption].
Qed.

(** The candidates of a rollback are entries of the ledger. *)
Lemma filterAbove_incl target l cs :
  filterAbove target l = Ok cs -> incl cs l.
Proof.
  revert cs. induction l as [|a l IH]; cbn [filterAbove]; intros cs H.
  - injection H as <-. apply incl_refl.
  - destruct (BigIntOf (version_id a)) as [v|]; [|discriminate].
    destruct (Js.BigInt target) as [t|]; [|discriminate].
    destruct (filterAbove target l) as [cs'|]; [|discriminate].
    injection H as <-. specialize (IH cs' eq_refl).
    destruct (v >? t)%Z.
    + intros x [<-|Hx]; [now left | right; now apply IH].
    + now apply incl_tl.
Qed.

(** With a target, every candidate has a version above it. *)
Lemma filterAbove_above target l cs a :
  filterAbove target l = Ok cs -> In a cs ->
  exists t v, Js.BigInt target = Some t /\ BigIntOf (version_id a) = Some v /\ (t < v)%Z.
Proof.
  revert cs. induction l as [|x l IH]; cbn [filterAbove]; intros cs H Ha.
  - injection H as <-. contradiction.
  - destruct (BigIntOf (version_id x)) as [v|] eqn:Ev; [|discriminate].
    destruct (Js.BigInt target) as [t|] eqn:Et; [|discriminate].
    destruct (filterAbove target l) as [cs'|]; [|discriminate].
    injection H as <-.
    destruct (Z.gtb_spec v t) as [Hgt|Hle].
    + destruct Ha as [<-|Ha]; [|now apply (IH cs')].
      exists t, v. repeat split; [assumption | lia].
    + now apply (IH cs').
Qed.

Lemma migrationsToRollback_incl applied target cs :
  migrationsToRollback applied target = Ok cs -> incl cs applied.
Proof.
  unfold migrationsToRollback. intros H x Hx.
  apply (Permutation_in _ (sortedAppliedMigrations_perm applied)).
  destruct target as [v|].
  - now apply (filterAbove_incl _ _ _ H).
  - injection H as <-.
    destruct (sortedAppliedMigrations applied) as [|top others]; [contradiction|].
    destruct Hx as [<-|[]]. now left.
Qed.

Lemma getAppliedMigrations_state (db : Db Store) :
  snd (getAppliedMigrations db) = db.
Proof.
  unfold getAppliedMigrations, selectAll. now destruct (table db).
Qed.

Lemma upMigration_baseline (dir : Directory Store) target db :
  hasBaseline db = true -> hasBaseline (snd (upMigration raw dir target db)) = true.
Proof.
  intros H. unfold upMigration, bind, liftResult, ret, throw.
  destruct (getMigrationFiles raw dir) as [ms|e]; [|assumption].
  pose proof (getAppliedMigrations_state db) as Hs.
  destruct (getAppliedMigrations db) as [[applied|e] db']; cbn [snd] in Hs; subst db';
    [|assumption].
  destruct (boundPending target (pendingOf ms applied)) as [pend|e]; [|assumption].
  destruct pend as [|m pend]; [assumption|].
  now apply applyMigrations_baseline.
Qed.

Lemma upByOneMigration_baseline (dir : Directory Store) db :
  hasBaseline db = true -> hasBaseline (snd (upByOneMigration raw dir db)) = true.
Proof.
  intros H. unfold upByOneMigration, bind, liftResult, ret, throw.
  destruct (getMigrationFiles raw dir) as [ms|e]; [|assumption].
  pose proof (getAppliedMigrations_state db) as Hs.
  destruct (getAppliedMigrations db) as [[applied|e] db']; cbn [snd] in Hs; subst db';
    [|assumption].
  destruct (pendingOf ms applied) as [|m pend]; [assumption|].
  now apply applyMigrations_baseline.
Qed.

(** The two ways in which a rollback keeps the baseline: no definition
    has the version 0, or the target is not negative. *)
Lemma downToMigration_baseline (dir : Directory Store) target db :
  (forall f, In f (readdir dir) -> isMigrationFile f = true ->
             getVersionFromFilename f <> Ok "0") \/
  (exists v, target = Some v /\ forall t, Js.BigInt v = Some t -> (0 <= t)%Z) ->
  hasBaseline db = true -> hasBaseline (snd (downToMigration raw dir target db)) = true.
Proof.
  intros Hcase H. unfold downToMigration, bind, liftResult, ret, throw.
  destruct (getMigrationFiles raw dir) as [ms|e] eqn:Ems; [|assumption].
  pose proof (getAppliedMigrations_state db) as Hs.
  destruct (getAppliedMigrations db) as [[applied|e] db'] eqn:Ea; cbn [snd] in Hs; subst db';
    [|assumption].
  destruct applied as [|a applied]; [assumption|].
  destruct (migrationsToRollback (a :: applied) target) as [cs|e] eqn:Ec; [|assumption].
  apply rollbackLoop_baseline; [|assumption].
  apply Forall_forall. intros x Hx.
  assert (Hfc : fromColumn x).
  { apply getAppliedMigrations_fromColumn in Ea. rewrite Forall_forall in Ea.
    apply Ea. now apply (migrationsToRollback_incl _ _ _ Ec). }
  split; [exact Hfc|]. intros m Hf H0.
  destruct Hcase as [Hdir|(v & -> & Hv)].
  - apply findMigration_some in Hf as [Hm Hvm].
    apply getMigrationFiles_spec in Ems as [_ Hall].
    rewrite Forall_forall in Hall. destruct (Hall m Hm) as (Hin & Hfm & Hver & _).
    apply (Hdir _ Hin Hfm). rewrite Hver. f_equal.
    destruct Hfc as [z [Hz|Hz]]; [|congruence].
    unfold versionOf in H0. rewrite Hz in H0, Hvm. cbn [bigintOfScalar] in H0.
    rewrite NumberFacts.bigintOf_toString in H0. subst z. now injection Hvm.
  - unfold migrationsToRollback in Ec.
    destruct (filterAbove_above _ _ _ _ Ec Hx) as (t & z & Ht & Hz & Hlt).
    rewrite (fromColumn_BigIntOf x Hfc) in Hz. injection Hz as Hz.
    specialize (Hv t Ht). lia.
Qed.

Lemma statusMigration_state (dir : Directory Store) db :
  snd (statusMigration raw dir db) = db.
Proof.
  unfold statusMigration, bind, liftResult, ret, throw.
  destruct (getMigrationFiles raw dir) as [ms|e]; [|reflexivity].
  pose proof (getAppliedMigrations_state db) as Hs.
  now destruct (getAppliedMigrations db) as [[applied|e] db'].
Qed.

Lemma initializeDb_baseline (db : Db Store) :
  table db = None \/ hasBaseline db = true ->
  hasBaseline (snd (initializeDb db)) = true.
Proof.
  intros [H|H].
  - unfold initializeDb, bind, hasTable, createTable, selectFirst, insertVersion, ret, hasBaseline.
    rewrite H. reflexivity.
  - assert (E : initializeDb db = (Ok tt, db)).
    { unfold initializeDb, bind, hasTable, ret. unfold hasBaseline in H.
      destruct (table db); [reflexivity | discriminate]. }
    now rewrite E.
Qed.

End TableFacts.

(* ================================================================= *)
(** ** Applying twice *)

Section IdempotenceFacts.
Variable Store : Type.
Variable raw : string -> Action Store.

(** A batch that succeeds adds one row for each of its migrations, in
    order, and nothing else changes in the table. *)
Lemma applyMigrations_ok_table (ps : list (MigrationFile Store)) db db1 rows :
  applyMigrations ps db = (Ok tt, db1) ->
  table db = Some rows ->
  exists added,
    table db1 = Some (rows ++ added)%list /\
    Forall2 (fun m r => columnValue (version m) = Some (col_version_id r)) ps added.
Proof.
  revert db rows. induction ps as [|m ps IH]; intros db rows H Hrows.
  - injection H as <-. exists []. rewrite List.app_nil_r. now split.
  - cbn [applyMigrations] in H. unfold bind in H.
    destruct (applyMigration m db) as [[[]|e] db'] eqn:E; [|discriminate].
    apply applyMigration_table in E as (rows0 & z & Hr0 & Hc & Ht).
    rewrite Hrows in Hr0. injection Hr0 as <-.
    destruct (IH db' _ H Ht) as (added & Ht1 & Hf).
    exists (mkRow (nextId db) z 1 (now db) :: added).
    rewrite <- List.app_assoc in Ht1. split; [exact Ht1|].
    constructor; [exact Hc | exact Hf].
Qed.

Lemma Forall2_In_left {A B : Type} (R : A -> B -> Prop) l l' x :
  Forall2 R l l' -> In x l -> exists y, In y l' /\ R x y.
Proof.
  induction 1 as [|a b l l' Hab _ IH]; intros Hx; [contradiction|].
  destruct Hx as [<-|Hx].
  - exists b. split; [now left | assumption].
  - destruct (IH Hx) as (y & Hy & Hr). exists y. split; [now right | assumption].
Qed.

(** The column gives back the version of a file as it is written in the
    file name, when that has no leading zero. *)
Lemma columnValue_canonical v z :
  v <> "" -> allDigits v = true -> hasLeadingZero v = false ->
  columnValue v = Some z -> Js.toString z = v.
Proof.
  intros Hne Hd Hz. unfold columnValue.
  rewrite NumberFacts.startsWith_digits by (assumption || reflexivity).
  destruct (NumberFacts.allDigits_parseDecimal v Hne Hd) as (d & Hu & ->).
  cbn [option_map]. destruct (inBigintRange _); [|discriminate].
  intros [= <-]. now apply NumberFacts.toString_canonical.
Qed.

Lemma boundPending_cases target (l l' : list (MigrationFile Store)) :
  boundPending target l = Ok l' ->
  l' = l \/
  exists v t, target = Some v /\ Js.BigInt v = Some t /\
              l' = filter (fun m => (bigintOf (version m) <=? t)%Z) l.
Proof.
  unfold boundPending. destruct target as [v|]; [|intros [= <-]; now left].
  destruct (0 <? List.length l)%nat; [|intros [= <-]; now left].
  destruct (Js.BigInt v) as [t|] eqn:E; [|discriminate].
  intros [= <-]. right. now exists v, t.
Qed.

End IdempotenceFacts.

(* ================================================================= *)
(** ** Further properties of the parser *)

Module ParserMore.
Import Js SqlParser.

Lemma not_plain_not_marker_step sec cur ups downs l :
  isPlain l = false -> isSectionMarker l = false ->
  step (mkState sec false cur ups downs) l = mkState sec false cur ups downs.
Proof.
  intros Hp Hm. rewrite ParserFacts.step_outside.
  unfold isSectionMarker, isUpMarker, isDownMarker in Hm.
  apply orb_false_iff in Hm as [-> ->]. now rewrite Hp.
Qed.

Lemma plain_not_marker l : isPlain l = true -> isSectionMarker l = false.
Proof.
  unfold isPlain, isSectionMarker, isUpMarker, isDownMarker. intros H.
  apply andb_true_iff in H as [_ H]. apply negb_true_iff in H.
  apply orb_false_iff. split; apply String.eqb_neq; intros E; rewrite E in H; discriminate H.
Qed.

Lemma fold_no_section lines cur ups downs :
  Forall (fun l => isSectionMarker l = false) lines ->
  fold_left step lines (mkState SecNone false cur ups downs) = mkState SecNone false cur ups downs.
Proof.
  induction 1 as [|l lines Hl _ IH]; [reflexivity|].
  cbn [fold_left]. rewrite ParserFacts.step_outside.
  unfold isSectionMarker, isUpMarker, isDownMarker in Hl.
  apply orb_false_iff in Hl as [-> ->]. now destruct (isPlain l).
Qed.


Lemma fold_open post st :
  inStatement st = false ->
  Forall (fun l => isTerminated l = false) post ->
  upStatements (fold_left step post st) = upStatements st /\
  downStatements (fold_left step post st) = downStatements st.
Proof.
  intros Hst Hall. revert st Hst.
  induction Hall as [|l post Hl _ IH]; intros st Hst; [now split|].
  cbn [fold_left].
  destruct (IH (step st l) (ParserFacts.step_inStatement _ _ Hst)) as [-> ->].
  destruct st as [sec i cur ups downs]. cbn [inStatement] in Hst. subst i.
  rewrite ParserFacts.step_outside, Hl.
  repeat match goal with
         | |- context [if ?b then _ else _] => destruct b
         | |- context [match ?x with SecNone => _ | _ => _ end] => destruct x
         end; now split.
Qed.

Lemma flatten_app a b : flatten (a ++ b)%list = flatten a ++ flatten b.
Proof.
  induction a as [|x a IH]; [reflexivity|].
  cbn [app flatten fold_right]. fold (flatten (a ++ b)%list). fold (flatten a).
  now rewrite IH, append_assoc.
Qed.

Lemma flatten_snoc a x : flatten (a ++ [x])%list = flatten a ++ x.
Proof. rewrite flatten_app. cbn. now rewrite append_nil_r. Qed.

(** Inside the up section, until the next marker, the statements and the
    accumulator together grow by the lines that are kept. *)
Lemma fold_up_section lines cur ups downs :
  Forall (fun l => isSectionMarker l = false) lines ->
  exists cur' ups',
    fold_left step lines (mkState SecUp false cur ups downs) = mkState SecUp false cur' ups' downs /\
    flatten ups' ++ cur' = flatten ups ++ cur ++ joinLines (filter isPlain lines).
Proof.
  intros Hall. revert cur ups.
  induction Hall as [|l lines Hl _ IH]; intros cur ups.
  - exists cur, ups. split; [reflexivity|]. cbn. now rewrite append_nil_r.
  - cbn [fold_left filter]. rewrite ParserFacts.step_outside.
    unfold isSectionMarker, isUpMarker, isDownMarker in Hl.
    apply orb_false_iff in Hl as [-> ->].
    destruct (isPlain l) eqn:Hp; [|apply IH].
    cbn [joinLines fold_right]. fold (joinLines (filter isPlain lines)).
    destruct (isTerminated l).
    + destruct (IH "" (ups ++ [(cur ++ l ++ nl)%string])%list) as (cur' & ups' & -> & E).
      exists cur', ups'. split; [reflexivity|].
      rewrite E, flatten_snoc. cbn [append]. now rewrite !append_assoc.
    + destruct (IH (cur ++ l ++ nl) ups) as (cur' & ups' & -> & E).
      exists cur', ups'. split; [reflexivity|].
      rewrite E. now rewrite !append_assoc.
Qed.

Lemma fold_down_section lines cur ups downs :
  Forall (fun l => isSectionMarker l = false) lines ->
  exists cur' downs',
    fold_left step lines (mkState SecDown false cur ups downs)
      = mkState SecDown false cur' ups downs' /\
    flatten downs' ++ cur' = flatten downs ++ cur ++ joinLines (filter isPlain lines).
Proof.
  intros Hall. revert cur downs.
  induction Hall as [|l lines Hl _ IH]; intros cur downs.
  - exists cur, downs. split; [reflexivity|]. cbn. now rewrite append_nil_r.
  - cbn [fold_left filter]. rewrite ParserFacts.step_outside.
    unfold isSectionMarker, isUpMarker, isDownMarker in Hl.
    apply orb_false_iff in Hl as [-> ->].
    destruct (isPlain l) eqn:Hp; [|apply IH].
    cbn [joinLines fold_right]. fold (joinLines (filter isPlain lines)).
    destruct (isTerminated l).
    + destruct (IH "" (downs ++ [(cur ++ l ++ nl)%string])%list) as (cur' & downs' & -> & E).
      exists cur', downs'. split; [reflexivity|].
      rewrite E, flatten_snoc. cbn [append]. now rewrite !append_assoc.
    + destruct (IH (cur ++ l ++ nl) downs) as (cur' & downs' & -> & E).
      exists cur', downs'. split; [reflexivity|].
      rewrite E. now rewrite !append_assoc.
Qed.


(** In the down section, lines that are no markers and end no statement
    leave the statement lists as they are; those of them that are kept
    pile up in the accumulator, the blank lines and the comments are
    passed over. *)
Lemma fold_pending_lines mid cur ups downs :
  Forall (fun x => isSectionMarker x = false /\ (isPlain x && isTerminated x) = false) mid ->
  fold_left step mid (mkState SecDown false cur ups downs) =
  mkState SecDown false (cur ++ joinLines (filter isPlain mid)) ups downs.
Proof.
  intros Hall. revert cur.
  induction Hall as [|x mid [Hm Hx] _ IH]; intros cur; cbn [fold_left filter].
  - cbn. now rewrite append_nil_r.
  - destruct (isPlain x) eqn:Hp.
    + cbn [andb] in Hx. rewrite ParserFacts.step_outside.
      unfold isSectionMarker, isUpMarker, isDownMarker in Hm.
      apply orb_false_iff in Hm as [-> ->]. rewrite Hp, Hx, IH.
      cbn [joinLines fold_right]. fold (joinLines (filter isPlain mid)).
      now rewrite !append_assoc.
    + rewrite (not_plain_not_marker_step _ _ _ _ _ Hp Hm). apply IH.
Qed.

End ParserMore.

(** C9.  The marker of the down section leaves the accumulator as it is:
    text collected before it and not yet ended by a semicolon is neither
    dropped nor stored at the boundary.  Whatever follows the marker up to
    the first line [l] that ends a statement, blank lines and comments
    such as the StatementBegin marker included, that text is the front of
    the first statement added to the down list: after it come the lines
    in between that are kept, and [l]. *)
Theorem C9_pending_text_opens_first_down_statement
    (pre mid : list string) (marker l : string) :
  Js.trim marker = "-- +goose Down" ->
  Forall (fun x => isSectionMarker x = false /\ (isPlain x && isTerminated x) = false) mid ->
  isPlain l = true -> isTerminated l = true ->
  let before := SqlParser.run pre in
  let at_marker := SqlParser.run (pre ++ [marker]) in
  let after := SqlParser.run (pre ++ marker :: mid ++ [l]) in
  SqlParser.currentStatement at_marker = SqlParser.currentStatement before /\
  SqlParser.upStatements at_marker = SqlParser.upStatements before /\
  SqlParser.downStatements at_marker = SqlParser.downStatements before /\
  SqlParser.downStatements after =
    (SqlParser.downStatements before ++
     [(SqlParser.currentStatement before ++ joinLines (filter isPlain mid) ++ l ++ Js.nl)%string])%list /\
  SqlParser.upStatements after = SqlParser.upStatements before.
Proof.
  intros Hm Hmid Hp Ht before at_marker after.
  subst at_marker after. rewrite !ParserFacts.run_app. fold before.
  pose proof (ParserFacts.run_inStatement pre) as Hin. fold before in Hin.
  destruct before as [sec i cur ups downs]. cbn [SqlParser.inStatement] in Hin. subst i.
  cbn [fold_left]. rewrite (ParserFacts.step_down_marker _ _ _ _ _ Hm).
  rewrite fold_left_app, (ParserMore.fold_pending_lines _ _ _ _ Hmid).
  cbn [fold_left]. rewrite (ParserFacts.step_closing_line _ _ _ _ Hp Ht).
  cbn. rewrite append_assoc. repeat split; reflexivity.
Qed.

(** The text pending at the marker is [CREATE TABLE t (]; the marker is
    followed by the begin of a block, a blank line and a line that does
    not end the statement. *)
Lemma C9_pending_text_opens_first_down_statement_witness :
  let lines := ["-- +goose Up"; "CREATE TABLE t ("; "-- +goose Down";
                "-- +goose StatementBegin"; ""; "  id int"; ");"] in
  SqlParser.currentStatement (SqlParser.run ["-- +goose Up"; "CREATE TABLE t ("])
    = "CREATE TABLE t (" ++ Js.nl /\
  SqlParser.downStatements (SqlParser.run lines)
    = ["CREATE TABLE t (" ++ Js.nl ++ "  id int" ++ Js.nl ++ ");" ++ Js.nl] /\
  SqlParser.upStatements (SqlParser.run lines) = [].
Proof.
  intros lines.
  destruct (C9_pending_text_opens_first_down_statement
              ["-- +goose Up"; "CREATE TABLE t ("]
              ["-- +goose StatementBegin"; ""; "  id int"] "-- +goose Down" ");")
    as (_ & _ & _ & Hd & Hu).
  - reflexivity.
  - repeat constructor.
  - reflexivity.
  - reflexivity.
  - split; [reflexivity|]. split; [exact Hd | exact Hu].
Defined.

(* ================================================================= *)
(** ** Further facts on strings *)

Lemma prefix_spec p s : String.prefix p s = true <-> exists b, s = p ++ b.
Proof.
  revert s. induction p as [|c p IH]; intros s.
  - split; [intros _; now exists s | intros _; now destruct s].
  - destruct s as [|x s]; cbn [String.prefix].
    + split; [discriminate | intros (b & E); discriminate E].
    + destruct (ascii_dec c x) as [->|Hne].
      * rewrite IH. split; intros (b & E); exists b; cbn in *; congruence.
      * split; [discriminate | intros (b & E); cbn in E; congruence].
Qed.

Lemma includes_unfold s p :
  Js.includes s p =
  String.prefix p s || match s with String _ r => Js.includes r p | EmptyString => false end.
Proof. now destruct s. Qed.

(** [s.includes(p)]: [p] occurs somewhere in [s]. *)
Lemma includes_spec s p : Js.includes s p = true <-> exists a b, s = a ++ p ++ b.
Proof.
  split.
  - induction s as [|c s IH]; rewrite includes_unfold; intros H;
      apply orb_true_iff in H as [H|H]; try discriminate H.
    + apply prefix_spec in H as (b & ->). now exists "", b.
    + apply prefix_spec in H as (b & ->). now exists "", b.
    + destruct (IH H) as (a & b & ->). now exists (String c a), b.
  - intros (a & b & ->). induction a as [|c a IH]; rewrite includes_unfold.
    + apply orb_true_iff. left. apply prefix_spec. now exists b.
    + apply orb_true_iff. right. exact IH.
Qed.

Lemma splitLines_cons c r :
  Ascii.eqb c Js.LF = false -> Ascii.eqb c Js.CR = false -> r <> "" ->
  Js.splitLines (String c r) =
  match Js.splitLines r with
  | l :: ls => String c l :: ls
  | [] => [String c ""]
  end.
Proof.
  intros H1 H2 Hr. destruct r as [|c' r]; [congruence|].
  simpl. now rewrite H1, H2.
Qed.

(** A line without line breaks, followed by LF, is the first line. *)
Lemma splitLines_LF l rest :
  noLineBreak l = true ->
  Js.splitLines (l ++ String Js.LF rest) = l :: Js.splitLines rest.
Proof.
  induction l as [|c l IH]; intros H.
  - reflexivity.
  - cbn [noLineBreak] in H. apply andb_true_iff in H as [H Hl].
    apply andb_true_iff in H as [H1 H2]. apply negb_true_iff in H1, H2.
    cbn [append]. rewrite splitLines_cons by (assumption || now destruct l).
    now rewrite (IH Hl).
Qed.

(** The same, followed by CR LF. *)
Lemma splitLines_CRLF l rest :
  noLineBreak l = true ->
  Js.splitLines (l ++ String Js.CR (String Js.LF rest)) = l :: Js.splitLines rest.
Proof.
  induction l as [|c l IH]; intros H.
  - reflexivity.
  - cbn [noLineBreak] in H. apply andb_true_iff in H as [H Hl].
    apply andb_true_iff in H as [H1 H2]. apply negb_true_iff in H1, H2.
    cbn [append]. rewrite splitLines_cons by (assumption || now destruct l).
    now rewrite (IH Hl).
Qed.

Lemma splitLines_joinLines ls :
  Forall (fun l => noLineBreak l = true) ls ->
  Js.splitLines (joinLines ls) = (ls ++ [""])%list.
Proof.
  induction 1 as [|l ls Hl _ IH]; [reflexivity|].
  cbn [joinLines fold_right app]. fold (joinLines ls).
  unfold Js.nl. cbn [append]. now rewrite splitLines_LF, IH.
Qed.

Lemma splitLines_joinCRLF ls :
  Forall (fun l => noLineBreak l = true) ls ->
  Js.splitLines (joinCRLF ls) = (ls ++ [""])%list.
Proof.
  induction 1 as [|l ls Hl _ IH]; [reflexivity|].
  cbn [joinCRLF fold_right app]. fold (joinCRLF ls).
  unfold Js.nl. cbn [append]. now rewrite splitLines_CRLF, IH.
Qed.

Lemma run_blank_last ls : SqlParser.run (ls ++ [""]) = SqlParser.run ls.
Proof.
  rewrite ParserFacts.run_app. cbn [fold_left].
  pose proof (ParserFacts.run_inStatement ls) as H.
  destruct (SqlParser.run ls) as [sec i cur ups downs]. cbn [SqlParser.inStatement] in H.
  subst i. now apply ParserMore.not_plain_not_marker_step.
Qed.

(* ================================================================= *)
(** ** The parser: further properties *)

(** X1.  A text in which no line is an Up or a Down marker gives no
    statement at all: the parser ends in its initial state, the module has
    no down action and its up action does nothing. *)
Theorem parse_without_section_marker (Store : Type) (raw : string -> Action Store)
    (sql : string) :
  Forall (fun l => isSectionMarker l = false) (Js.splitLines sql) ->
  SqlParser.parseStatements sql = SqlParser.initial /\
  down (parseSqlMigration raw sql) = None /\
  forall s, up (parseSqlMigration raw sql) s = (Ok tt, s).
Proof.
  intros H.
  assert (E : SqlParser.parseStatements sql = SqlParser.initial).
  { unfold SqlParser.parseStatements, SqlParser.run, SqlParser.initial.
    now apply ParserMore.fold_no_section. }
  split; [exact E|]. unfold parseSqlMigration. rewrite E. now split.
Qed.

Lemma parse_without_section_marker_witness :
  SqlParser.parseStatements (joinLines ["CREATE TABLE t (id int);"; "DROP TABLE t;"])
    = SqlParser.initial.
Proof.
  destruct (parse_without_section_marker Sample.Store Sample.raw
              (joinLines ["CREATE TABLE t (id int);"; "DROP TABLE t;"])) as [H _].
  - repeat constructor.
  - exact H.
Defined.


(** X3.  Only a line that ends in a semicolon adds a statement: lines
    that do not, whatever they are, leave both statement lists as they
    are.  So the text after the last such line is never run. *)
Theorem parse_drops_unterminated_tail (pre post : list string) :
  Forall (fun l => isTerminated l = false) post ->
  SqlParser.upStatements (SqlParser.run (pre ++ post))
    = SqlParser.upStatements (SqlParser.run pre) /\
  SqlParser.downStatements (SqlParser.run (pre ++ post))
    = SqlParser.downStatements (SqlParser.run pre).
Proof.
  intros H. rewrite ParserFacts.run_app.
  apply ParserMore.fold_open; [apply ParserFacts.run_inStatement | exact H].
Qed.

Lemma parse_drops_unterminated_tail_witness :
  SqlParser.upStatements
    (SqlParser.run (["-- +goose Up"; "SELECT 1;"] ++ ["SELECT 2"; "FROM t"]))
  = ["SELECT 1;" ++ Js.nl].
Proof.
  destruct (parse_drops_unterminated_tail ["-- +goose Up"; "SELECT 1;"] ["SELECT 2"; "FROM t"])
    as [H _].
  - repeat constructor.
  - exact H.
Defined.

(** X4.  A file of the usual shape: text without markers, an Up marker,
    the lines of the up section, a Down marker, the lines of the down
    section.  When the up section leaves nothing pending, the up
    statements, one after the other, are the lines of the up section that
    are neither blank nor comments, each with its line feed; the down
    statements, with what is left pending at the end, are those of the
    down section. *)
Theorem parse_sections_keep_their_lines (pre ups downs : list string) (u d : string) :
  Forall (fun l => isSectionMarker l = false) pre ->
  isUpMarker u = true ->
  Forall (fun l => isSectionMarker l = false) ups ->
  isDownMarker d = true ->
  Forall (fun l => isSectionMarker l = false) downs ->
  SqlParser.currentStatement (SqlParser.run (pre ++ u :: ups)) = "" ->
  let st := SqlParser.run (pre ++ u :: ups ++ d :: downs) in
  flatten (SqlParser.upStatements st) = joinLines (filter isPlain ups) /\
  flatten (SqlParser.downStatements st) ++ SqlParser.currentStatement st
    = joinLines (filter isPlain downs).
Proof.
  intros Hpre Hu Hups Hd Hdowns Hcur st. subst st.
  assert (E0 : SqlParser.run pre = SqlParser.initial)
    by (now apply ParserMore.fold_no_section).
  assert (Eu : forall sec cur us ds,
             SqlParser.step (SqlParser.mkState sec false cur us ds) u
             = SqlParser.mkState SqlParser.SecUp false cur us ds).
  { intros. rewrite ParserFacts.step_outside. unfold isUpMarker in Hu. now rewrite Hu. }
  assert (Ed : forall sec cur us ds,
             SqlParser.step (SqlParser.mkState sec false cur us ds) d
             = SqlParser.mkState SqlParser.SecDown false cur us ds).
  { intros. rewrite ParserFacts.step_outside. unfold isDownMarker in Hd.
    destruct (Js.trim d =? "-- +goose Up") eqn:E; [|now rewrite Hd].
    apply String.eqb_eq in E. rewrite E in Hd. discriminate Hd. }
  rewrite ParserFacts.run_app, E0 in Hcur |- *. cbn [fold_left] in Hcur |- *.
  unfold SqlParser.initial in Hcur |- *. rewrite Eu in Hcur |- *.
  rewrite fold_left_app. cbn [fold_left].
  destruct (ParserMore.fold_up_section ups "" [] [] Hups) as (cur1 & ups1 & E1 & F1).
  rewrite E1 in Hcur |- *. cbn [SqlParser.currentStatement] in Hcur. subst cur1.
  rewrite Ed.
  destruct (ParserMore.fold_down_section downs "" ups1 [] Hdowns) as (cur2 & downs2 & E2 & F2).
  rewrite E2. cbn [SqlParser.upStatements SqlParser.downStatements SqlParser.currentStatement].
  rewrite append_nil_r in F1. cbn in F1, F2. now split.
Qed.

Lemma parse_sections_keep_their_lines_witness :
  let st := SqlParser.run (["-- a migration"] ++ "-- +goose Up" ::
                           ["CREATE TABLE t ("; "  -- the key"; "  id int"; ");"] ++
                           "-- +goose Down" :: [""; "DROP TABLE t;"]) in
  flatten (SqlParser.upStatements st)
    = joinLines ["CREATE TABLE t ("; "  id int"; ");"] /\
  flatten (SqlParser.downStatements st) ++ SqlParser.currentStatement st
    = joinLines ["DROP TABLE t;"].
Proof.
  apply (parse_sections_keep_their_lines ["-- a migration"]
           ["CREATE TABLE t ("; "  -- the key"; "  id int"; ");"] [""; "DROP TABLE t;"]
           "-- +goose Up" "-- +goose Down").
  - repeat constructor.
  - reflexivity.
  - repeat constructor.
  - reflexivity.
  - repeat constructor.
  - reflexivity.
Defined.


(** X6.  The two flags of an SQL migration are set by their directive
    occurring anywhere in the text of the file, no matter in which line,
    section or statement. *)
Theorem parse_flags_anywhere (Store : Type) (raw : string -> Action Store) (sql : string) :
  (noTransaction (parseSqlMigration raw sql) = true
     <-> exists a b, sql = a ++ "-- +goose NO TRANSACTION" ++ b) /\
  (irreversible (parseSqlMigration raw sql) = true
     <-> exists a b, sql = a ++ "-- +goose IRREVERSIBLE" ++ b).
Proof. split; apply includes_spec. Qed.

(** X7.  Line ends: a text whose lines end in CR LF is split into the
    same lines as the text whose lines end in LF, the line ends left out,
    and both are parsed as the list of their lines. *)
Theorem parse_CRLF_as_LF (ls : list string) :
  Forall (fun l => noLineBreak l = true) ls ->
  Js.splitLines (joinCRLF ls) = (ls ++ [""])%list /\
  Js.splitLines (joinLines ls) = (ls ++ [""])%list /\
  SqlParser.parseStatements (joinCRLF ls) = SqlParser.run ls /\
  SqlParser.parseStatements (joinLines ls) = SqlParser.run ls.
Proof.
  intros H. unfold SqlParser.parseStatements.
  rewrite (splitLines_joinCRLF ls H), (splitLines_joinLines ls H), run_blank_last.
  repeat split; reflexivity.
Qed.

Lemma parse_CRLF_as_LF_witness :
  SqlParser.parseStatements (joinCRLF ["-- +goose Up"; "SELECT 1;"])
  = SqlParser.run ["-- +goose Up"; "SELECT 1;"].
Proof.
  destruct (parse_CRLF_as_LF ["-- +goose Up"; "SELECT 1;"]) as (_ & _ & H & _).
  - repeat constructor.
  - exact H.
Defined.

(* ================================================================= *)
(** ** File names and versions *)

Lemma allDigits_app a b : allDigits (a ++ b) = allDigits a && allDigits b.
Proof.
  induction a as [|c a IH]; [reflexivity|]. cbn [append allDigits].
  now rewrite IH, andb_assoc.
Qed.

Lemma spanDigits_app v c r :
  allDigits v = true -> isDigit c = false ->
  spanDigits (v ++ String c r) = (v, String c r).
Proof.
  intros Hv Hc. induction v as [|x v IH]; cbn [append spanDigits].
  - now rewrite Hc.
  - cbn [allDigits] in Hv. apply andb_true_iff in Hv as [Hx Hv].
    now rewrite Hx, (IH Hv).
Qed.

Lemma spanDigits_split s : s = fst (spanDigits s) ++ snd (spanDigits s).
Proof.
  induction s as [|c s IH]; [reflexivity|]. cbn [spanDigits].
  destruct (isDigit c); [|reflexivity].
  destruct (spanDigits s) as [d t]. cbn in *. now rewrite <- IH.
Qed.

Lemma matchVersionPrefix_spec f v :
  matchVersionPrefix f = Some v <->
  v <> "" /\ allDigits v = true /\ exists rest, f = v ++ String "_" rest.
Proof.
  split.
  - intros H. destruct (matchVersionPrefix_digits f v H) as [Hne Hd].
    split; [assumption|]. split; [assumption|].
    unfold matchVersionPrefix in H. pose proof (spanDigits_split f) as E.
    destruct (spanDigits f) as [d t]. cbn [fst snd] in E.
    destruct d as [|c d]; [discriminate|]. destruct t as [|c' t]; [discriminate|].
    destruct (Ascii.eqb_spec c' "_") as [->|Hc].
    + injection H as <-. now exists t.
    + destruct c' as [[] [] [] [] [] [] [] []]; try discriminate H. now contradict Hc.
  - intros (Hne & Hd & rest & ->). unfold matchVersionPrefix.
    rewrite (spanDigits_app v "_" rest Hd eq_refl).
    destruct v; [congruence | reflexivity].
Qed.

(** X8.  [getVersionFromFilename] returns [v] exactly for the names made
    of [v], one or more digits, an underscore and anything after it; for
    every other name it throws, naming the file. *)
Theorem getVersionFromFilename_spec (f : string) :
  (forall v, getVersionFromFilename f = Ok v <->
             v <> "" /\ allDigits v = true /\ exists rest, f = v ++ "_" ++ rest) /\
  ((forall v rest, v <> "" -> allDigits v = true -> f <> v ++ "_" ++ rest) ->
   getVersionFromFilename f = Err (InvalidFilename f)).
Proof.
  unfold getVersionFromFilename. split.
  - intros v. rewrite <- matchVersionPrefix_spec.
    destruct (matchVersionPrefix f); split; congruence.
  - intros H. destruct (matchVersionPrefix f) as [v|] eqn:E; [|reflexivity].
    apply matchVersionPrefix_spec in E as (Hne & Hd & rest & E).
    now destruct (H v rest Hne Hd).
Qed.

Lemma getVersionFromFilename_spec_witness :
  getVersionFromFilename "readme_1.sql" = Err (InvalidFilename "readme_1.sql").
Proof.
  destruct (getVersionFromFilename_spec "readme_1.sql") as [_ H].
  apply H. intros v rest Hne Hd E.
  destruct v as [|c v]; [congruence|]. cbn in E. injection E as <- _. discriminate Hd.
Defined.

(* ================================================================= *)
(** ** Dates *)

Lemma Z_range_forallb (P : Z -> bool) (lo : Z) (n : nat) :
  forallb P (map (fun i => (lo + Z.of_nat i)%Z) (seq 0 n)) = true ->
  forall x, (lo <= x < lo + Z.of_nat n)%Z -> P x = true.
Proof.
  intros H x Hx. rewrite forallb_forall in H. apply H. apply in_map_iff.
  exists (Z.to_nat (x - lo)). split; [lia|]. apply in_seq. lia.
Qed.

Lemma length_append a b : String.length (a ++ b) = (String.length a + String.length b)%nat.
Proof. induction a as [|c a IH]; cbn; [reflexivity | now rewrite IH]. Qed.

(** Below 100, [pad] gives two digits, which read back as the number. *)
Lemma pad_two_digits n :
  (0 <= n < 100)%Z -> String.length (pad n) = 2%nat /\ bigintOf (pad n) = n.
Proof.
  intros H.
  pose proof (Z_range_forallb
                (fun n => (String.length (pad n) =? 2)%nat && (bigintOf (pad n) =? n)%Z)
                0 100 eq_refl n H) as E.
  apply andb_true_iff in E as [E1 E2].
  split; [now apply Nat.eqb_eq | now apply Z.eqb_eq].
Qed.

Lemma year_four_digits y :
  (1000 <= y <= 9999)%Z -> String.length (Js.toString y) = 4%nat.
Proof.
  intros H. apply Nat.eqb_eq.
  apply (Z_range_forallb (fun y => (String.length (Js.toString y) =? 4)%nat)
           1000 (Z.to_nat 9000));
    [vm_compute; reflexivity | lia].
Qed.

(** X9.  For a date of a year with four digits, [formatDate] gives the
    19 characters [YYYY/MM/DD hh:mm:ss]: each field has its fixed width
    and reads back as the number it stands for, the month counted from
    1. *)
Theorem formatDate_fixed_width (date : DateValue) :
  (1000 <= getFullYear date <= 9999)%Z ->
  (0 <= getMonth date <= 11)%Z ->
  (1 <= getDate date <= 31)%Z ->
  (0 <= getHours date <= 23)%Z ->
  (0 <= getMinutes date <= 59)%Z ->
  (0 <= getSeconds date <= 59)%Z ->
  String.length (formatDate date) = 19%nat /\
  exists y mo d h mi s,
    formatDate date = y ++ "/" ++ mo ++ "/" ++ d ++ " " ++ h ++ ":" ++ mi ++ ":" ++ s /\
    String.length y = 4%nat /\ bigintOf y = getFullYear date /\
    String.length mo = 2%nat /\ bigintOf mo = (getMonth date + 1)%Z /\
    String.length d = 2%nat /\ bigintOf d = getDate date /\
    String.length h = 2%nat /\ bigintOf h = getHours date /\
    String.length mi = 2%nat /\ bigintOf mi = getMinutes date /\
    String.length s = 2%nat /\ bigintOf s = getSeconds date.
Proof.
  intros Hy Hmo Hd Hh Hmi Hs.
  pose proof (year_four_digits _ Hy) as Ly.
  destruct (pad_two_digits (getMonth date + 1)) as [Lmo Vmo]; [lia|].
  destruct (pad_two_digits (getDate date)) as [Ld Vd]; [lia|].
  destruct (pad_two_digits (getHours date)) as [Lh Vh]; [lia|].
  destruct (pad_two_digits (getMinutes date)) as [Lmi Vmi]; [lia|].
  destruct (pad_two_digits (getSeconds date)) as [Ls Vs]; [lia|].
  split.
  - unfold formatDate. rewrite !length_append, Ly, Lmo, Ld, Lh, Lmi, Ls. reflexivity.
  - exists (Js.toString (getFullYear date)), (pad (getMonth date + 1)), (pad (getDate date)),
      (pad (getHours date)), (pad (getMinutes date)), (pad (getSeconds date)).
    split; [reflexivity|].
    rewrite NumberFacts.bigintOf_toString. repeat split; assumption.
Qed.

Lemma formatDate_fixed_width_witness :
  String.length (formatDate (mkDate 2025 0 2 3 4 5)) = 19%nat.
Proof.
  destruct (formatDate_fixed_width (mkDate 2025 0 2 3 4 5)) as [H _].
  - cbn. lia.
  - cbn. lia.
  - cbn. lia.
  - cbn. lia.
  - cbn. lia.
  - cbn. lia.
  - exact H.
Defined.

(* ================================================================= *)
(** ** Creating a migration *)

Lemma isDigit_not_dash_or_colon c : isDigit c = true -> isDashOrColon c = false.
Proof. destruct c as [[] [] [] [] [] [] [] []]; vm_compute; congruence. Qed.

Lemma removeAll_app p a b : removeAll p (a ++ b) = removeAll p a ++ removeAll p b.
Proof.
  induction a as [|c a IH]; [reflexivity|]. cbn [append removeAll].
  destruct (p c); [exact IH | cbn [append]; now rewrite IH].
Qed.

Lemma removeAll_digits s : allDigits s = true -> removeAll isDashOrColon s = s.
Proof.
  induction s as [|c s IH]; [reflexivity|]. cbn [allDigits removeAll]. intros H.
  apply andb_true_iff in H as [Hc Hs].
  now rewrite (isDigit_not_dash_or_colon c Hc), (IH Hs).
Qed.

Lemma digit_is_not c x : isDigit x = true -> isDigit c = false -> Ascii.eqb x c = false.
Proof.
  intros Hx Hc. destruct (Ascii.eqb_spec x c) as [->|]; [congruence | reflexivity].
Qed.

Lemma removeFirst_after_digits c a b :
  allDigits a = true -> isDigit c = false -> removeFirst c (a ++ String c b) = a ++ b.
Proof.
  intros Ha Hc. induction a as [|x a IH]; cbn [append removeFirst].
  - now rewrite Ascii.eqb_refl.
  - cbn [allDigits] in Ha. apply andb_true_iff in Ha as [Hx Ha].
    now rewrite (digit_is_not c x Hx Hc), (IH Ha).
Qed.

Lemma beforeFirst_after_digits c a b :
  allDigits a = true -> isDigit c = false -> beforeFirst c (a ++ String c b) = a.
Proof.
  intros Ha Hc. induction a as [|x a IH]; cbn [append beforeFirst].
  - now rewrite Ascii.eqb_refl.
  - cbn [allDigits] in Ha. apply andb_true_iff in Ha as [Hx Ha].
    now rewrite (digit_is_not c x Hx Hc), (IH Ha).
Qed.

(** The timestamp of a file name is the date and the time of the ISO
    string, digits only. *)
Lemma timestampOf_iso y mo d h mi s ms :
  allDigits y = true -> allDigits mo = true -> allDigits d = true ->
  allDigits h = true -> allDigits mi = true -> allDigits s = true ->
  timestampOf (y ++ "-" ++ mo ++ "-" ++ d ++ "T" ++ h ++ ":" ++ mi ++ ":" ++ s ++ "." ++ ms ++ "Z")
  = y ++ mo ++ d ++ h ++ mi ++ s.
Proof.
  intros Hy Hmo Hd Hh Hmi Hs. unfold timestampOf.
  repeat (rewrite removeAll_app, removeAll_digits by assumption; simpl).
  replace (y ++ mo ++ d ++ String "T" (h ++ mi ++ s ++ String "." (removeAll isDashOrColon (ms ++ "Z"))))
    with ((y ++ mo ++ d) ++ String "T" (h ++ mi ++ s ++ String "." (removeAll isDashOrColon (ms ++ "Z"))))
    by (now rewrite !append_assoc).
  rewrite removeFirst_after_digits
    by (rewrite ?allDigits_app, ?andb_true_iff; auto).
  replace ((y ++ mo ++ d) ++ h ++ mi ++ s ++ String "." (removeAll isDashOrColon (ms ++ "Z")))
    with ((y ++ mo ++ d ++ h ++ mi ++ s) ++ String "." (removeAll isDashOrColon (ms ++ "Z")))
    by (now rewrite !append_assoc).
  apply beforeFirst_after_digits; [|reflexivity].
  rewrite !allDigits_app, Hy, Hmo, Hd, Hh, Hmi, Hs. reflexivity.
Qed.

Lemma substring_whole p : String.substring 0 (String.length p) p = p.
Proof. induction p as [|c p IH]; cbn; [reflexivity | now rewrite IH]. Qed.

Lemma substring_skip a p m : String.substring (String.length a) m (a ++ p) = String.substring 0 m p.
Proof. induction a as [|c a IH]; [reflexivity | exact IH]. Qed.

Lemma endsWith_app a p : Js.endsWith (a ++ p) p = true.
Proof.
  unfold Js.endsWith. rewrite length_append.
  replace (String.length p <=? String.length a + String.length p)%nat with true
    by (symmetry; apply Nat.leb_le; lia).
  replace (String.length a + String.length p - String.length p)%nat with (String.length a) by lia.
  rewrite substring_skip, substring_whole. apply String.eqb_refl.
Qed.

Lemma substring_split k m s :
  (k + m = String.length s)%nat ->
  s = String.substring 0 k s ++ String.substring k m s.
Proof.
  revert s. induction k as [|k IH]; intros s H.
  - cbn in H. subst m. rewrite substring_whole. now destruct s.
  - destruct s as [|c s]; [discriminate H|]. cbn in H. injection H as H.
    cbn [String.substring append]. now rewrite <- (IH s H).
Qed.

(** [s.endsWith(p)]: [s] is something followed by [p]. *)
Lemma endsWith_spec s p : Js.endsWith s p = true <-> exists a, s = a ++ p.
Proof.
  split.
  - unfold Js.endsWith. destruct (Nat.leb_spec (String.length p) (String.length s)) as [Hle|];
      [|discriminate].
    intros H. apply String.eqb_eq in H.
    exists (String.substring 0 (String.length s - String.length p) s).
    pose proof (substring_split (String.length s - String.length p) (String.length p) s) as E.
    rewrite H in E. apply E. lia.
  - intros (a & ->). apply endsWith_app.
Qed.

Lemma append_last_char a b (c d : ascii) :
  a ++ String c "" = b ++ String d "" -> c = d.
Proof.
  revert b. induction a as [|x a IH]; intros [|y b] H; cbn in H.
  - congruence.
  - injection H as _ H. now destruct b.
  - injection H as _ H. now destruct a.
  - injection H as _ H. now apply IH with b.
Qed.

Lemma js_is_not_sql a : Js.endsWith (a ++ ".js") ".sql" = false.
Proof.
  destruct (Js.endsWith (a ++ ".js") ".sql") eqn:E; [|reflexivity].
  apply endsWith_spec in E as (b & E).
  change ".js" with (".j" ++ "s") in E. change ".sql" with (".sq" ++ "l") in E.
  rewrite <- !append_assoc in E. apply append_last_char in E. discriminate E.
Qed.

Section CreateFacts.
Variable Store : Type.
Variable raw : string -> Action Store.

Lemma find_app_none {A : Type} (p : A -> bool) l1 l2 :
  find p l1 = None -> find p (l1 ++ l2) = find p l2.
Proof.
  induction l1 as [|x l1 IH]; [reflexivity|]. cbn [find app].
  destruct (p x); [discriminate | exact IH].
Qed.

Lemma find_filter_negb {A : Type} (p : A -> bool) l : find p (filter (fun x => negb (p x)) l) = None.
Proof.
  induction l as [|x l IH]; [reflexivity|]. cbn [filter].
  destruct (p x) eqn:E; cbn [negb]; [exact IH|]. cbn [find]. now rewrite E.
Qed.

(** A file that is written is the file that is read. *)
Lemma lookupFile_writeFile (dir : Directory Store) f body :
  lookupFile (writeFile dir f body) f = Some body.
Proof.
  unfold lookupFile, writeFile.
  rewrite find_app_none by apply (find_filter_negb (fun e => fst e =? f)).
  cbn. now rewrite String.eqb_refl.
Qed.

Lemma readdir_writeFile (dir : Directory Store) f body :
  In f (readdir (writeFile dir f body)).
Proof.
  unfold readdir, writeFile. rewrite map_app. apply in_or_app. right. now left.
Qed.

End CreateFacts.

(** The name of the file is a plain one when the name given is made of
    letters, digits, [_], [-], [.] and white space. *)
Lemma formatted_chars_step c :
  (isNameChar c || Js.isWhiteSpace c) = true ->
  Js.isWhiteSpace (lowerChar c) = Js.isWhiteSpace c /\
  (Js.isWhiteSpace c = false -> isNameChar (lowerChar c) = true).
Proof.
  destruct c as [[] [] [] [] [] [] [] []]; vm_compute; intros H; split; congruence.
Qed.

Lemma formattedNameOf_chars name :
  allChars (fun c => isNameChar c || Js.isWhiteSpace c) name = true ->
  forall inRun, allChars isNameChar (replaceSpaces inRun (toLowerCase name)) = true.
Proof.
  induction name as [|c r IH]; intros H inRun; [reflexivity|].
  cbn [allChars] in H. apply andb_true_iff in H as [Hc Hr].
  destruct (formatted_chars_step c Hc) as [Hw Hn].
  cbn [toLowerCase replaceSpaces]. rewrite Hw.
  destruct (Js.isWhiteSpace c).
  - destruct inRun; [now apply IH|]. cbn [allChars]. rewrite IH by assumption. reflexivity.
  - cbn [allChars]. rewrite Hn by reflexivity. now apply IH.
Qed.

Lemma allChars_app p a b : allChars p (a ++ b) = allChars p a && allChars p b.
Proof.
  induction a as [|c a IH]; [reflexivity|]. cbn [append allChars]. now rewrite IH, andb_assoc.
Qed.

Lemma allDigits_nameChars s : allDigits s = true -> allChars isNameChar s = true.
Proof.
  induction s as [|c s IH]; [reflexivity|]. cbn [allDigits allChars]. intros H.
  apply andb_true_iff in H as [Hc Hs]. rewrite (IH Hs), andb_true_r.
  revert Hc. destruct c as [[] [] [] [] [] [] [] []]; vm_compute; congruence.
Qed.

(** X10.  A file made by [createMigration] is a migration file for the
    loader.  Take an ISO date whose fields are digits, the type sql, or js
    where the loader's import reads the directory, and a name of letters,
    digits, [_], [-], [.] and white space, such that the name of the file
    has at most 255 characters and is not that of an entry that cannot be
    read.  Then the file is created; its name has the date and time,
    digits only, as its version; it passes the filter; it is in the
    directory; and it loads: as the module parsed from the SQL template,
    or as the module of the JavaScript template, whose up and down do
    nothing. *)
Theorem created_file_is_loaded (Store : Type) (raw : string -> Action Store)
    (importReadsDirectory : bool)
    (y mo d h mi s ms name ty : string) (dir : Directory Store) :
  y <> "" ->
  allDigits y = true -> allDigits mo = true -> allDigits d = true ->
  allDigits h = true -> allDigits mi = true -> allDigits s = true ->
  ty = "sql" \/ ty = "js" /\ importReadsDirectory = true ->
  allChars (fun c => isNameChar c || Js.isWhiteSpace c) name = true ->
  let isoNow := y ++ "-" ++ mo ++ "-" ++ d ++ "T" ++ h ++ ":" ++ mi ++ ":" ++ s ++ "." ++ ms ++ "Z" in
  let filename := (y ++ mo ++ d ++ h ++ mi ++ s) ++ "_" ++ formattedNameOf name ++ "." ++ ty in
  (String.length filename <= 255)%nat ->
  lookupFile dir filename <> Some Unreadable ->
  exists created,
    createMigration importReadsDirectory isoNow name ty dir = Some (filename, created) /\
    getVersionFromFilename filename = Ok (y ++ mo ++ d ++ h ++ mi ++ s) /\
    isMigrationFile filename = true /\
    In filename (readdir created) /\
    loadModule raw created filename =
      Ok (if ty =? "sql" then parseSqlMigration raw templateSql
          else mkModule (fun st => (Ok tt, st)) (Some (fun st => (Ok tt, st))) false false).
Proof.
  intros Hne Hy Hmo Hd Hh Hmi Hs Hty Hname isoNow filename Hlen Hfree.
  subst isoNow. unfold createMigration. rewrite timestampOf_iso by assumption.
  set (ts := y ++ mo ++ d ++ h ++ mi ++ s) in *.
  set (fn := formattedNameOf name) in *. fold filename.
  assert (Hts : allDigits ts = true).
  { unfold ts. rewrite !allDigits_app, Hy, Hmo, Hd, Hh, Hmi, Hs. reflexivity. }
  assert (Htne : ts <> "") by (unfold ts; destruct y; [congruence | discriminate]).
  assert (Hv : getVersionFromFilename filename = Ok ts).
  { unfold getVersionFromFilename.
    assert (Hm : matchVersionPrefix filename = Some ts).
    { apply matchVersionPrefix_spec. split; [assumption|]. split; [assumption|].
      now exists (fn ++ "." ++ ty). }
    now rewrite Hm. }
  assert (Hend : Js.endsWith filename ("." ++ ty) = true).
  { unfold filename.
    replace (ts ++ "_" ++ fn ++ "." ++ ty) with ((ts ++ "_" ++ fn) ++ "." ++ ty)
      by (now rewrite !append_assoc).
    apply endsWith_app. }
  assert (Hfollows : follows importReadsDirectory dir filename ty = true).
  { unfold follows. apply andb_true_iff. split; [apply andb_true_iff; split|].
    - destruct Hty as [-> | [-> ->]]; reflexivity.
    - unfold isPlainName. repeat (apply andb_true_iff; split).
      + unfold filename. rewrite !allChars_app, (allDigits_nameChars ts Hts).
        unfold fn, formattedNameOf. rewrite (formattedNameOf_chars name Hname false).
        destruct Hty as [-> | [-> _]]; reflexivity.
      + apply negb_true_iff, String.eqb_neq. unfold filename.
        destruct ts; [congruence | discriminate].
      + apply negb_true_iff, String.eqb_neq. intros E.
        rewrite E in Hv. vm_compute in Hv. discriminate Hv.
      + apply negb_true_iff, String.eqb_neq. intros E.
        rewrite E in Hv. vm_compute in Hv. discriminate Hv.
      + now apply Nat.leb_le.
    - destruct (lookupFile dir filename) as [[| |]|]; try reflexivity. congruence. }
  rewrite Hfollows. eexists. split; [reflexivity|].
  split; [exact Hv|].
  split.
  { unfold isMigrationFile. unfold getVersionFromFilename in Hv.
    destruct (matchVersionPrefix filename); [|discriminate].
    rewrite andb_true_r. destruct Hty as [-> | [-> _]]; cbn [append] in Hend |- *;
      rewrite Hend; [apply orb_true_r | reflexivity]. }
  split; [apply readdir_writeFile|].
  unfold loadModule. rewrite lookupFile_writeFile.
  destruct Hty as [-> | [-> _]].
  - cbn [append] in Hend |- *. now rewrite Hend.
  - unfold filename.
    replace (ts ++ "_" ++ fn ++ "." ++ "js") with ((ts ++ "_" ++ fn) ++ ".js")
      by (now rewrite !append_assoc).
    now rewrite js_is_not_sql.
Qed.

Lemma created_file_is_loaded_witness :
  exists created,
    createMigration (Store := Sample.Store) false
      "2025-01-02T03:04:05.678Z" "Add  Users Table" "sql" Sample.duplicateDir
      = Some ("20250102030405_add_users_table.sql", created) /\
    getVersionFromFilename "20250102030405_add_users_table.sql" = Ok "20250102030405" /\
    isOk (getMigrationFiles Sample.raw created) = true.
Proof.
  destruct (created_file_is_loaded Sample.Store Sample.raw false
              "2025" "01" "02" "03" "04" "05" "678" "Add  Users Table" "sql"
              Sample.duplicateDir) as (created & Hc & Hv & _).
  - discriminate.
  - reflexivity.
  - reflexivity.
  - reflexivity.
  - reflexivity.
  - reflexivity.
  - reflexivity.
  - now left.
  - reflexivity.
  - cbn. lia.
  - discriminate.
  - exists created. split; [exact Hc|]. split; [exact Hv|].
    vm_compute in Hc. injection Hc as <-. reflexivity.
Defined.

(* ================================================================= *)
(** ** The effect of one migration *)

Section EffectFacts.
Variable Store : Type.

(** All that applying one migration does. *)
Lemma applyMigration_effect (m : MigrationFile Store) db r db' :
  applyMigration m db = (r, db') ->
  now db' = now db /\
  calls db' = (calls db ++ [callUp m])%list /\
  match r with
  | Ok _ => exists rows z s,
      table db = Some rows /\ columnValue (version m) = Some z /\
      existsb (fun x => (col_version_id x =? z)%Z) rows = false /\
      up (module m) (store db) = (Ok tt, s) /\ store db' = s /\
      table db' = Some (rows ++ [mkRow (nextId db) z 1 (now db)])%list /\
      nextId db' = (nextId db + 1)%N
  | Err _ =>
      table db' = table db /\
      (nextId db <= nextId db' <= nextId db + 1)%N /\
      (noTransaction (module m) = false -> store db' = store db)
  end.
Proof.
  unfold applyMigration, transaction, bind, invoke, insert, insertVersion, throw, callUp.
  destruct (noTransaction (module m));
    destruct (up (module m) (store db)) as [[[]|e] s] eqn:Eu;
    destruct (columnValue (version m)) as [z|];
    cbn beta iota zeta delta [table nextId now store calls driver];
    destruct (table db) as [rows|] eqn:Et;
    try destruct (existsb _ rows) eqn:Ex;
    try destruct (refusedInsertTakesId (driver db));
    intros [= <- <-]; cbn [table nextId now store calls driver];
    repeat split; try assumption; try reflexivity; try discriminate; try lia;
    exists rows, z, s; repeat split; auto.
Qed.

(** Neither changes the driver. *)
Lemma applyMigration_driver (m : MigrationFile Store) db :
  driver (snd (applyMigration m db)) = driver db.
Proof.
  unfold applyMigration, transaction, bind, invoke, insert, insertVersion, throw.
  destruct (noTransaction (module m));
    destruct (up (module m) (store db)) as [[[]|e] s];
    destruct (columnValue (version m)) as [z|];
    cbn beta iota zeta delta [table nextId now store calls driver];
    destruct (table db) as [rows|];
    try destruct (existsb _ rows);
    reflexivity.
Qed.

Lemma applyMigrations_driver (ms : list (MigrationFile Store)) db :
  driver (snd (applyMigrations ms db)) = driver db.
Proof.
  revert db. induction ms as [|m ms IH]; intros db; [reflexivity|].
  cbn [applyMigrations]. unfold bind.
  pose proof (applyMigration_driver m db) as H.
  destruct (applyMigration m db) as [[[]|e] db1]; cbn [snd] in *; [|assumption].
  now rewrite IH.
Qed.

(** All that rolling back one migration does. *)
Lemma rollbackMigration_effect (m : MigrationFile Store) db r db' :
  rollbackMigration m db = (r, db') ->
  now db' = now db /\ nextId db' = nextId db /\
  calls db' = (calls db ++ match down (module m) with
                           | Some _ => [CallDown (filename m)]
                           | None => []
                           end)%list /\
  match r with
  | Ok _ => exists rows z,
      table db = Some rows /\ columnValue (version m) = Some z /\
      table db' = Some (filter (fun x => negb (col_version_id x =? z)%Z) rows) /\
      match down (module m) with
      | Some d => d (store db) = (Ok tt, store db')
      | None => store db' = store db
      end
  | Err _ =>
      table db' = table db /\
      (noTransaction (module m) = false -> store db' = store db)
  end.
Proof.
  unfold rollbackMigration, transaction, bind, invoke, deleteWhere, throw, ret.
  destruct (noTransaction (module m));
    destruct (down (module m)) as [d|];
    try destruct (d (store db)) as [[[]|e] s] eqn:Ed;
    destruct (columnValue (version m)) as [z|];
    cbn beta iota zeta delta [table nextId now store calls];
    destruct (table db) as [rows|] eqn:Et;
    intros [= <- <-]; cbn [table nextId now store calls];
    rewrite ?List.app_nil_r;
    repeat split; try assumption; try reflexivity; try discriminate;
    exists rows, z; repeat split; auto.
Qed.

End EffectFacts.

(* ================================================================= *)
(** ** Batches *)

(** X11.  A batch that succeeds calls the [up] of each of its migrations
    once, in the order of the list, and appends one row for each, in the
    same order, with the version of the migration as the column reads it;
    the rows that were there stay in front. *)
Theorem applyMigrations_success (Store : Type) (ps : list (MigrationFile Store))
    (db db1 : Db Store) (rows : list Row) :
  applyMigrations ps db = (Ok tt, db1) ->
  table db = Some rows ->
  exists added,
    table db1 = Some (rows ++ added)%list /\
    Forall2 (fun m r => columnValue (version m) = Some (col_version_id r)) ps added /\
    calls db1 = (calls db ++ map (@callUp Store) ps)%list /\
    nextId db1 = (nextId db + N.of_nat (List.length ps))%N.
Proof.
  revert db rows. induction ps as [|m ps IH]; intros db rows H Hrows.
  - injection H as <-. exists []. rewrite !List.app_nil_r.
    repeat split; [assumption | constructor | cbn; lia].
  - cbn [applyMigrations] in H. unfold bind in H.
    destruct (applyMigration m db) as [[[]|e] db'] eqn:E; [|discriminate].
    apply applyMigration_effect in E
      as (_ & Hc & rows0 & z & s & Hr0 & Hz & _ & _ & _ & Ht & Hn).
    rewrite Hrows in Hr0. injection Hr0 as <-.
    destruct (IH db' _ H Ht) as (added & Ht1 & Hf & Hc1 & Hn1).
    exists (mkRow (nextId db) z 1 (now db) :: added).
    rewrite <- List.app_assoc in Ht1. split; [exact Ht1|].
    split; [constructor; assumption|].
    split; [rewrite Hc1, Hc, <- List.app_assoc; reflexivity|].
    rewrite Hn1, Hn. cbn [List.length]. lia.
Qed.

Lemma applyMigrations_success_witness :
  calls Sample.savePointDb = [CallUp "1_a.sql"; CallUp "2_b.sql"; CallUp "3_c.sql"] /\
  option_map (map col_version_id) (table Sample.savePointDb) = Some [0; 1; 2; 3]%Z.
Proof.
  destruct (applyMigrations_success Sample.Store
              (definitionsOf Sample.raw Sample.savePointDir)
              Sample.seeded Sample.savePointDb [mkRow 1 0 1 0])
    as (added & _ & _ & Hc & _).
  - reflexivity.
  - reflexivity.
  - split; [exact Hc | reflexivity].
Defined.



(** X13.  A migration whose version, as the column reads it, is in the
    ledger already is never applied again: applying it fails and leaves
    the ledger as it is.  When its [up] itself succeeds, the error is the
    violation of the unique column. *)
Theorem applied_version_is_not_applied_again (Store : Type) (m : MigrationFile Store)
    (db : Db Store) (rows : list Row) (z : Z) :
  table db = Some rows ->
  columnValue (version m) = Some z ->
  existsb (fun r => (col_version_id r =? z)%Z) rows = true ->
  exists e,
    fst (applyMigration m db) = Err e /\
    table (snd (applyMigration m db)) = Some rows /\
    (forall s, up (module m) (store db) = (Ok tt, s) -> e = UniqueViolation z).
Proof.
  intros Ht Hz Hx.
  unfold applyMigration, transaction, bind, invoke, insert, insertVersion.
  rewrite Hz.
  destruct (noTransaction (module m));
    destruct (up (module m) (store db)) as [[[]|e] s];
    cbn beta iota zeta delta [table nextId now store calls driver]; rewrite Ht, ?Hx;
    cbn [fst snd table];
    eexists; (split; [reflexivity|]); (split; [reflexivity || assumption|]);
    intros s' Hs'; congruence.
Qed.

Lemma applied_version_is_not_applied_again_witness :
  exists e,
    fst (applyMigration (mkFile "07" "07_g.sql" (mkModule (fun s => (Ok tt, s)) None false false))
           (mkDb (Some [mkRow 1 0 1 0; mkRow 2 7 1 0]) 3 0 (@nil string) [] Sample.postgres)) = Err e /\
    e = UniqueViolation 7.
Proof.
  destruct (applied_version_is_not_applied_again Sample.Store
              (mkFile "07" "07_g.sql" (mkModule (fun s => (Ok tt, s)) None false false))
              (mkDb (Some [mkRow 1 0 1 0; mkRow 2 7 1 0]) 3 0 (@nil string) [] Sample.postgres)
              [mkRow 1 0 1 0; mkRow 2 7 1 0] 7) as (e & He & _ & Hu).
  - reflexivity.
  - reflexivity.
  - reflexivity.
  - exists e. split; [exact He | now apply (Hu [])].
Defined.

(* ================================================================= *)
(** ** Invariants of the operations *)

Lemma NoDup_map_filter {A B : Type} (f : A -> B) (p : A -> bool) l :
  NoDup (map f l) -> NoDup (map f (filter p l)).
Proof.
  induction l as [|x l IH]; cbn [map filter]; intros H; [constructor|].
  inversion H as [|? ? Hx Hl]; subst.
  destruct (p x); [|now apply IH]. cbn [map]. constructor; [|now apply IH].
  intros Hin. apply Hx. apply in_map_iff in Hin as (y & Hy & Hin).
  apply in_map_iff. exists y. split; [assumption|]. now apply filter_In in Hin.
Qed.

Lemma StronglySorted_filter {A : Type} (R : A -> A -> Prop) (p : A -> bool) l :
  StronglySorted R l -> StronglySorted R (filter p l).
Proof.
  induction 1 as [|x l _ IH Hx]; cbn [filter]; [constructor|].
  destruct (p x); [|assumption]. constructor; [assumption|].
  apply Forall_forall. intros y Hy. apply filter_In in Hy as [Hy _].
  rewrite Forall_forall in Hx. now apply Hx.
Qed.

Lemma StronglySorted_snoc {A : Type} (R : A -> A -> Prop) l x :
  StronglySorted R l -> Forall (fun a => R a x) l -> StronglySorted R (l ++ [x]).
Proof.
  induction 1 as [|y l _ IH Hy]; intros Hall; cbn [app].
  - repeat constructor.
  - inversion Hall as [|? ? Hyx Hl]; subst. constructor; [now apply IH|].
    apply Forall_app. split; [assumption | now constructor].
Qed.

Lemma Forall_filter_keep {A : Type} (P : A -> Prop) (p : A -> bool) l :
  Forall P l -> Forall P (filter p l).
Proof.
  intros H. apply Forall_forall. intros x Hx. apply filter_In in Hx as [Hx _].
  rewrite Forall_forall in H. now apply H.
Qed.

(** A list in ascending order of [id] is left as it is by the sort of
    [getAppliedMigrations]. *)
Lemma sort_compareId_sorted rows :
  StronglySorted (fun a b => (col_id a < col_id b)%N) rows -> sort compareId rows = rows.
Proof.
  induction 1 as [|x l _ IH Hx]; [reflexivity|].
  cbn [sort fold_right]. fold (sort compareId l). rewrite IH.
  destruct l as [|y l]; [reflexivity|]. cbn [insertSorted].
  inversion Hx as [|? ? Hxy _]; subst. unfold compareId.
  destruct (Z.leb_spec (Z.of_N (col_id x) - Z.of_N (col_id y)) 0); [reflexivity | lia].
Qed.

Section InvariantFacts.
Variable Store : Type.
Variable raw : string -> Action Store.

Lemma applyMigration_ledgerOk (m : MigrationFile Store) db :
  ledgerOk db -> ledgerOk (snd (applyMigration m db)).
Proof.
  intros H. destruct (applyMigration m db) as [r db'] eqn:E. cbn [snd].
  apply applyMigration_effect in E as (_ & _ & E). unfold ledgerOk in *.
  destruct r as [[]|e].
  - destruct E as (rows & z & s & Hr & _ & Hx & _ & _ & -> & ->).
    rewrite Hr in H. destruct H as (Hnd & Hs & Hid).
    split; [|split].
    + rewrite map_app. cbn [map col_version_id].
      apply (Permutation_NoDup (Permutation_cons_append _ _)).
      constructor; [|assumption].
      intros Hin. apply in_map_iff in Hin as (x & Hxz & Hin).
      assert (existsb (fun x => (col_version_id x =? z)%Z) rows = true)
        by (apply existsb_exists; exists x; split; [assumption | now apply Z.eqb_eq]).
      congruence.
    + apply StronglySorted_snoc; [assumption|].
      eapply Forall_impl; [|exact Hid]. cbn. intros; assumption.
    + apply Forall_app. split.
      * eapply Forall_impl; [|exact Hid]. cbn. intros; lia.
      * constructor; [cbn; lia | constructor].
  - destruct E as (-> & Hn & _).
    destruct (table db) as [rows|]; [|exact I].
    destruct H as (Hnd & Hs & Hid). split; [assumption|]. split; [assumption|].
    eapply Forall_impl; [|exact Hid]. cbn. intros; lia.
Qed.

Lemma rollbackMigration_ledgerOk (m : MigrationFile Store) db :
  ledgerOk db -> ledgerOk (snd (rollbackMigration m db)).
Proof.
  intros H. destruct (rollbackMigration m db) as [r db'] eqn:E. cbn [snd].
  apply rollbackMigration_effect in E as (_ & Hid & _ & E). unfold ledgerOk in *.
  rewrite Hid. destruct r as [[]|e].
  - destruct E as (rows & z & Hr & _ & -> & _). rewrite Hr in H.
    destruct H as (Hnd & Hs & Hall).
    split; [now apply NoDup_map_filter|].
    split; [now apply StronglySorted_filter | now apply Forall_filter_keep].
  - destruct E as [-> _]. assumption.
Qed.

(** What one migration keeps, applied or rolled back, every operation of
    the runner keeps. *)
Lemma operations_keep (P : Db Store -> Prop) :
  (forall m db, P db -> P (snd (applyMigration m db))) ->
  (forall m db, P db -> P (snd (rollbackMigration m db))) ->
  forall (dir : Directory Store) target db,
    P db ->
    P (snd (upMigration raw dir target db)) /\
    P (snd (upByOneMigration raw dir db)) /\
    P (snd (downToMigration raw dir target db)) /\
    P (snd (statusMigration raw dir db)).
Proof.
  intros Happly Hroll dir target db H.
  assert (Hbatch : forall ms db0, P db0 -> P (snd (applyMigrations ms db0))).
  { induction ms as [|m ms IH]; intros db0 H0; [assumption|].
    cbn [applyMigrations]. unfold bind. pose proof (Happly m db0 H0) as H1.
    destruct (applyMigration m db0) as [[[]|e] db1]; cbn [snd] in *; [now apply IH | assumption]. }
  assert (Hloop : forall ms cs db0, P db0 -> P (snd (rollbackLoop ms cs db0))).
  { intros ms. induction cs as [|a cs IH]; intros db0 H0; [assumption|].
    cbn [rollbackLoop]. destruct (findMigration ms a) as [m|]; [|now apply IH].
    destruct (irreversible (module m)); [assumption|].
    unfold bind. pose proof (Hroll m db0 H0) as H1.
    destruct (rollbackMigration m db0) as [[[]|e] db1]; cbn [snd] in *;
      [now apply IH | assumption]. }
  pose proof (getAppliedMigrations_state Store db) as Hs.
  split; [|split; [|split]].
  - unfold upMigration, bind, liftResult, ret, throw.
    destruct (getMigrationFiles raw dir) as [ms|e]; [|assumption].
    destruct (getAppliedMigrations db) as [[applied|e] db']; cbn [snd] in Hs; subst db';
      [|assumption].
    destruct (boundPending target (pendingOf ms applied)) as [pend|e]; [|assumption].
    destruct pend as [|m pend]; [assumption | now apply Hbatch].
  - unfold upByOneMigration, bind, liftResult, ret, throw.
    destruct (getMigrationFiles raw dir) as [ms|e]; [|assumption].
    destruct (getAppliedMigrations db) as [[applied|e] db']; cbn [snd] in Hs; subst db';
      [|assumption].
    destruct (pendingOf ms applied) as [|m pend]; [assumption | now apply Hbatch].
  - unfold downToMigration, bind, liftResult, ret, throw.
    destruct (getMigrationFiles raw dir) as [ms|e]; [|assumption].
    destruct (getAppliedMigrations db) as [[applied|e] db']; cbn [snd] in Hs; subst db';
      [|assumption].
    destruct applied as [|a applied]; [assumption|].
    destruct (migrationsToRollback (a :: applied) target) as [cs|e]; [|assumption].
    now apply Hloop.
  - now rewrite statusMigration_state.
Qed.

Lemma initializeDb_ledgerOk (db : Db Store) : ledgerOk db -> ledgerOk (snd (initializeDb db)).
Proof.
  intros H. unfold initializeDb, bind, hasTable, createTable, selectFirst, insertVersion, ret.
  unfold ledgerOk in *. destruct (table db) as [rows|] eqn:Et; cbn.
  - now rewrite Et.
  - split; [repeat constructor; intros []|].
    split; repeat constructor. cbn. lia.
Qed.

(** The definitions of a directory come in ascending order of version. *)
Lemma definitions_sorted (dir : Directory Store) ms :
  getMigrationFiles raw dir = Ok ms -> StronglySorted (@versionLe Store) ms.
Proof.
  intros H. apply getMigrationFiles_spec in H as [Hn Hall].
  pose proof (migrationFilesOf_sorted Store dir) as Hs. rewrite <- Hn in Hs.
  rewrite Forall_forall in Hall.
  assert (Hk : forall m, In m ms -> versionNumber (filename m) = bigintOf (version m)).
  { intros m Hm. destruct (Hall m Hm) as (_ & _ & Hv & _).
    unfold versionNumber. now rewrite Hv. }
  clear Hn Hall. induction ms as [|m ms IH]; [constructor|].
  cbn [map] in Hs. apply StronglySorted_inv in Hs as [Hs Hm].
  constructor.
  - apply IH; [assumption|]. intros x Hx. apply Hk. now right.
  - apply Forall_forall. intros x Hx. rewrite Forall_forall in Hm.
    specialize (Hm (filename x) (in_map _ _ _ Hx)).
    unfold keyLe in Hm. unfold versionLe.
    rewrite <- (Hk m (or_introl eq_refl)), <- (Hk x (or_intror Hx)). exact Hm.
Qed.

Lemma applyMigrations_calls (ps : list (MigrationFile Store)) db db1 :
  applyMigrations ps db = (Ok tt, db1) ->
  calls db1 = (calls db ++ map (@callUp Store) ps)%list.
Proof.
  revert db. induction ps as [|m ps IH]; intros db H.
  - injection H as <-. now rewrite List.app_nil_r.
  - cbn [applyMigrations] in H. unfold bind in H.
    destruct (applyMigration m db) as [[[]|e] db'] eqn:E; [|discriminate].
    apply applyMigration_effect in E as (_ & Hc & _).
    rewrite (IH db' H), Hc, <- List.app_assoc. reflexivity.
Qed.

End InvariantFacts.

(** X14.  Every operation keeps the ledger in order: no version is in it
    twice, its rows are in ascending order of [id], and every [id] is
    below the next one the table gives.  This holds whether the
    operation succeeds or fails. *)
Theorem operations_keep_ledger_in_order (Store : Type) (raw : string -> Action Store)
    (dir : Directory Store) (target : option string) (db : Db Store) :
  ledgerOk db ->
  ledgerOk (snd (initializeDb db)) /\
  ledgerOk (snd (upMigration raw dir target db)) /\
  ledgerOk (snd (upByOneMigration raw dir db)) /\
  ledgerOk (snd (downToMigration raw dir target db)) /\
  ledgerOk (snd (statusMigration raw dir db)).
Proof.
  intros H. split; [now apply initializeDb_ledgerOk|].
  apply (operations_keep Store raw ledgerOk); [| |assumption].
  - intros m db0. apply applyMigration_ledgerOk.
  - intros m db0. apply rollbackMigration_ledgerOk.
Qed.

Lemma operations_keep_ledger_in_order_witness :
  ledgerOk (snd (downToMigration Sample.raw Sample.savePointDir (Some "0")
                   (snd (upMigration Sample.raw Sample.savePointDir None
                           (snd (initializeDb Sample.fresh)))))).
Proof.
  destruct (operations_keep_ledger_in_order Sample.Store Sample.raw Sample.savePointDir
              (Some "0")
              (snd (upMigration Sample.raw Sample.savePointDir None
                      (snd (initializeDb Sample.fresh)))))
    as (_ & _ & _ & H & _).
  - destruct (operations_keep_ledger_in_order Sample.Store Sample.raw Sample.savePointDir
                None (snd (initializeDb Sample.fresh))) as (_ & H & _).
    + destruct (operations_keep_ledger_in_order Sample.Store Sample.raw Sample.savePointDir
                  None Sample.fresh) as (H & _); [exact I | exact H].
    + exact H.
  - exact H.
Defined.

(** X15.  From a ledger in order, [getAppliedMigrations] returns the rows
    in the order in which they were inserted, as they are in the table. *)
Theorem ledger_is_read_in_insertion_order (Store : Type) (db : Db Store) (rows : list Row) :
  ledgerOk db ->
  table db = Some rows ->
  getAppliedMigrations db = (Ok (map (toRecord (driver db)) rows), db).
Proof.
  intros H Ht. unfold ledgerOk in H. rewrite Ht in H. destruct H as (_ & Hs & _).
  rewrite (getAppliedMigrations_table Store db rows Ht).
  now rewrite (sort_compareId_sorted rows Hs).
Qed.

Lemma ledger_is_read_in_insertion_order_witness :
  map version_id (recordsOf Sample.outOfOrderDb)
    = [StringValue "0"; StringValue "3"; StringValue "2"].
Proof.
  unfold recordsOf.
  rewrite (ledger_is_read_in_insertion_order Sample.Store Sample.outOfOrderDb
             [mkRow 1 0 1 0; mkRow 2 3 1 0; mkRow 3 2 1 0]).
  - reflexivity.
  - cbn. split; [|split]; repeat constructor; cbn; try lia; intuition discriminate.
  - reflexivity.
Defined.

(* ================================================================= *)
(** ** What is applied, and in which order *)

(** X16.  A run of [upMigration] that succeeds has called the [up] of the
    pending definitions, each once, in ascending order of version and
    nothing else: all the definitions whose version is not in the ledger
    as the same string when there is no target, and those of them whose
    version is at most the target when there is one. *)
Theorem upMigration_applies_pending_in_order (Store : Type) (raw : string -> Action Store)
    (dir : Directory Store) (target : option string) (db db1 : Db Store) :
  upMigration raw dir target db = (Ok tt, db1) ->
  exists pend,
    boundPending target (pendingOf (definitionsOf raw dir) (recordsOf db)) = Ok pend /\
    calls db1 = (calls db ++ map (@callUp Store) pend)%list /\
    StronglySorted (@versionLe Store) pend /\
    (forall m, In m pend ->
       In m (definitionsOf raw dir) /\ isApplied (recordsOf db) m = false) /\
    (target = None -> pend = pendingOf (definitionsOf raw dir) (recordsOf db)) /\
    (forall v t, target = Some v -> Js.BigInt v = Some t ->
       pend = filter (fun m => (bigintOf (version m) <=? t)%Z)
                     (pendingOf (definitionsOf raw dir) (recordsOf db))).
Proof.
  intros Hrun. unfold upMigration, bind, liftResult, ret, throw in Hrun.
  destruct (getMigrationFiles raw dir) as [ms|e] eqn:Ems; [|discriminate].
  destruct (getAppliedMigrations db) as [[applied|e] db'] eqn:Ea; [|discriminate].
  pose proof (getAppliedMigrations_state Store db) as Hs. rewrite Ea in Hs. cbn in Hs. subst db'.
  destruct (boundPending target (pendingOf ms applied)) as [pend|e] eqn:Eb; [|discriminate].
  assert (Hap : applyMigrations pend db = (Ok tt, db1)) by (now destruct pend).
  assert (Hdefs : definitionsOf raw dir = ms) by (unfold definitionsOf; now rewrite Ems).
  assert (Hrec : recordsOf db = applied) by (unfold recordsOf; now rewrite Ea).
  rewrite Hdefs, Hrec. exists pend.
  assert (Hsorted : StronglySorted (@versionLe Store) (pendingOf ms applied)).
  { apply StronglySorted_filter. now apply definitions_sorted with raw dir. }
  split; [exact Eb|].
  split; [now apply applyMigrations_calls|].
  destruct (boundPending_cases Store _ _ _ Eb) as [->|(v & t & -> & Ht & ->)].
  - split; [assumption|]. split; [intros m Hm; now apply pendingOf_In in Hm|].
    split; [reflexivity|].
    intros v t -> Ht. unfold boundPending in Eb.
    destruct (pendingOf ms applied) as [|m0 l]; [reflexivity|].
    cbn [List.length Nat.ltb Nat.leb] in Eb. rewrite Ht in Eb. now injection Eb.
  - split; [now apply StronglySorted_filter|].
    split; [intros m Hm; apply filter_In in Hm as [Hm _]; now apply pendingOf_In in Hm|].
    split; [discriminate|].
    intros v' t' [= <-] Ht'. rewrite Ht in Ht'. now injection Ht' as <-.
Qed.

Lemma upMigration_applies_pending_in_order_witness :
  exists pend,
    boundPending (Some "2") (pendingOf (definitionsOf Sample.raw Sample.savePointDir)
                                       (recordsOf Sample.seeded)) = Ok pend /\
    map (@filename _) pend = ["1_a.sql"; "2_b.sql"] /\
    calls (snd (upMigration Sample.raw Sample.savePointDir (Some "2") Sample.seeded))
      = map (@callUp _) pend.
Proof.
  destruct (upMigration_applies_pending_in_order Sample.Store Sample.raw Sample.savePointDir
              (Some "2") Sample.seeded
              (snd (upMigration Sample.raw Sample.savePointDir (Some "2") Sample.seeded)))
    as (pend & Hb & Hc & _).
  - reflexivity.
  - exists pend. split; [exact Hb|]. split; [|exact Hc].
    vm_compute in Hb. injection Hb as <-. reflexivity.
Defined.

(** X17.  A run of [upByOneMigration] that succeeds has applied the first
    pending definition and no other: its version is the lowest among the
    pending ones, its [up] is the one call made, and its row is the one
    row added.  With nothing pending the database is left as it is. *)
Theorem upByOneMigration_applies_lowest (Store : Type) (raw : string -> Action Store)
    (dir : Directory Store) (db db1 : Db Store) :
  upByOneMigration raw dir db = (Ok tt, db1) ->
  match pendingOf (definitionsOf raw dir) (recordsOf db) with
  | [] => db1 = db
  | first :: others =>
      Forall (versionLe first) others /\
      calls db1 = (calls db ++ [callUp first])%list /\
      exists rows z,
        table db = Some rows /\ columnValue (version first) = Some z /\
        table db1 = Some (rows ++ [mkRow (nextId db) z 1 (now db)])%list
  end.
Proof.
  intros Hrun. unfold upByOneMigration, bind, liftResult, ret, throw in Hrun.
  destruct (getMigrationFiles raw dir) as [ms|e] eqn:Ems; [|discriminate].
  destruct (getAppliedMigrations db) as [[applied|e] db'] eqn:Ea; [|discriminate].
  pose proof (getAppliedMigrations_state Store db) as Hs. rewrite Ea in Hs. cbn in Hs. subst db'.
  assert (Hdefs : definitionsOf raw dir = ms) by (unfold definitionsOf; now rewrite Ems).
  assert (Hrec : recordsOf db = applied) by (unfold recordsOf; now rewrite Ea).
  rewrite Hdefs, Hrec.
  assert (Hsorted : StronglySorted (@versionLe Store) (pendingOf ms applied)).
  { apply StronglySorted_filter. now apply definitions_sorted with raw dir. }
  destruct (pendingOf ms applied) as [|first others]; [now injection Hrun|].
  apply StronglySorted_inv in Hsorted as [_ Hfirst]. split; [exact Hfirst|].
  cbn [applyMigrations] in Hrun. unfold bind, ret in Hrun.
  destruct (applyMigration first db) as [[[]|e] db2] eqn:E; [|discriminate].
  injection Hrun as <-.
  apply applyMigration_effect in E as (_ & Hc & rows & z & s & Hr & Hz & _ & _ & _ & Ht & _).
  split; [exact Hc|]. now exists rows, z.
Qed.

Lemma upByOneMigration_applies_lowest_witness :
  calls (snd (upByOneMigration Sample.raw Sample.lateDir Sample.seeded)) = [CallUp "2_b.sql"].
Proof.
  pose proof (upByOneMigration_applies_lowest Sample.Store Sample.raw Sample.lateDir
                Sample.seeded (snd (upByOneMigration Sample.raw Sample.lateDir Sample.seeded))
                eq_refl) as H.
  cbv beta iota zeta delta [pendingOf definitionsOf recordsOf] in H.
  vm_compute in H. destruct H as (_ & H & _). exact H.
Defined.

(** X18.  A target that is not an integer.  [upMigration] refuses it with
    a syntax error, and changes nothing, when something is pending; when
    nothing is pending it does not look at the target and succeeds.
    [downToMigration] refuses it, and changes nothing, whenever the
    ledger has a row. *)
Theorem target_that_is_no_integer (Store : Type) (raw : string -> Action Store)
    (dir : Directory Store) (v : string) (db : Db Store) (rows : list Row) :
  Js.BigInt v = None ->
  table db = Some rows ->
  isOk (getMigrationFiles raw dir) = true ->
  upMigration raw dir (Some v) db =
    (match pendingOf (definitionsOf raw dir) (recordsOf db) with
     | [] => Ok tt
     | _ => Err (SyntaxError v)
     end, db) /\
  downToMigration raw dir (Some v) db =
    (match rows with
     | [] => Ok tt
     | _ => Err (SyntaxError v)
     end, db).
Proof.
  intros Hv Ht Hok.
  destruct (getMigrationFiles raw dir) as [ms|e] eqn:Ems; [|discriminate].
  assert (Hdefs : definitionsOf raw dir = ms) by (unfold definitionsOf; now rewrite Ems).
  pose proof (getAppliedMigrations_table Store db rows Ht) as Ea.
  assert (Hrec : recordsOf db = map (toRecord (driver db)) (sort compareId rows))
    by (unfold recordsOf; now rewrite Ea).
  rewrite Hdefs, Hrec. split.
  - unfold upMigration, bind, liftResult, ret, throw. rewrite Ems, Ea.
    unfold boundPending.
    destruct (pendingOf ms (map (toRecord (driver db)) (sort compareId rows))) as [|m l];
      [reflexivity|].
    cbn [List.length Nat.ltb Nat.leb]. now rewrite Hv.
  - unfold downToMigration, bind, liftResult, ret, throw. rewrite Ems, Ea.
    pose proof (sort_perm Row compareId rows) as Hp.
    destruct rows as [|r rows].
    + reflexivity.
    + destruct (sort compareId (r :: rows)) as [|r0 rs] eqn:Es;
        [apply Permutation_nil in Hp; discriminate Hp|].
      cbn [map]. unfold migrationsToRollback.
      set (d := driver db).
      pose proof (sortedAppliedMigrations_perm (toRecord d r0 :: map (toRecord d) rs)) as Hp2.
      destruct (sortedAppliedMigrations (toRecord d r0 :: map (toRecord d) rs)) as [|a l] eqn:Eso;
        [apply Permutation_nil in Hp2; discriminate Hp2|].
      assert (Ha : fromColumn a).
      { assert (Hall : Forall fromColumn (toRecord d r0 :: map (toRecord d) rs))
          by apply (toRecord_fromColumn d (r0 :: rs)).
        rewrite Forall_forall in Hall. apply Hall.
        apply (Permutation_in _ Hp2). now left. }
      cbn [filterAbove]. now rewrite (fromColumn_BigIntOf a Ha), Hv.
Qed.

Lemma target_that_is_no_integer_witness :
  upMigration Sample.raw Sample.savePointDir (Some "latest") Sample.savePointDb
    = (Ok tt, Sample.savePointDb) /\
  downToMigration Sample.raw Sample.savePointDir (Some "latest") Sample.savePointDb
    = (Err (SyntaxError "latest"), Sample.savePointDb).
Proof.
  destruct (target_that_is_no_integer Sample.Store Sample.raw Sample.savePointDir "latest"
              Sample.savePointDb
              [mkRow 1 0 1 0; mkRow 2 1 1 0; mkRow 3 2 1 0; mkRow 4 3 1 0]) as [Hu Hd].
  - reflexivity.
  - reflexivity.
  - reflexivity.
  - split; [exact Hu | exact Hd].
Defined.

(* ================================================================= *)
(** ** Rolling back *)

Lemma filter_filter {A : Type} (p q : A -> bool) l :
  filter p (filter q l) = filter (fun x => q x && p x) l.
Proof.
  induction l as [|x l IH]; [reflexivity|]. cbn [filter].
  destruct (q x); cbn [filter andb]; [destruct (p x)|]; now rewrite IH.
Qed.

Lemma filter_all {A : Type} (l : list A) : filter (fun _ => true) l = l.
Proof. induction l as [|x l IH]; [reflexivity|]. cbn. now rewrite IH. Qed.

Section RollbackFacts.
Variable Store : Type.
Variable raw : string -> Action Store.

(** What [downToMigration] keeps, when each rollback of a definition
    found for an entry of the ledger keeps it. *)
Lemma downToMigration_keeps (P : Db Store -> Prop) (dir : Directory Store) target db :
  (forall m a db0, In m (definitionsOf raw dir) -> In a (recordsOf db) ->
                   findMigration (definitionsOf raw dir) a = Some m ->
                   P db0 -> P (snd (rollbackMigration m db0))) ->
  P db -> P (snd (downToMigration raw dir target db)).
Proof.
  intros Hroll H. unfold downToMigration, bind, liftResult, ret, throw.
  unfold definitionsOf in Hroll.
  destruct (getMigrationFiles raw dir) as [ms|e]; [|assumption].
  unfold recordsOf in Hroll.
  pose proof (getAppliedMigrations_state Store db) as Hs.
  destruct (getAppliedMigrations db) as [[applied|e] db']; cbn [snd] in Hs; subst db';
    [|assumption].
  destruct applied as [|a0 applied]; [assumption|].
  destruct (migrationsToRollback (a0 :: applied) target) as [cs|e] eqn:Ec; [|assumption].
  apply migrationsToRollback_incl in Ec.
  revert db H. induction cs as [|a cs IH]; intros db H; [assumption|].
  cbn [rollbackLoop]. assert (Hcs : incl cs (a0 :: applied)) by (intros x Hx; apply Ec; now right).
  destruct (findMigration ms a) as [m|] eqn:Ef; [|now apply IH].
  destruct (irreversible (module m)); [assumption|].
  unfold bind.
  assert (H1 : P (snd (rollbackMigration m db))).
  { apply Hroll with a; [now apply findMigration_some in Ef | apply Ec; now left | assumption
                        | assumption]. }
  destruct (rollbackMigration m db) as [[[]|e] db1]; cbn [snd] in *; [now apply IH | assumption].
Qed.

End RollbackFacts.

(** X19.  A rollback never removes the row of a version for which the
    directory has no definition: whatever the target and whatever the
    outcome, such a row is in the ledger afterwards. *)
Theorem rollback_keeps_rows_without_definition (Store : Type)
    (raw : string -> Action Store) (dir : Directory Store) (target : option string)
    (db : Db Store) (rows : list Row) (r : Row) :
  table db = Some rows ->
  In r rows ->
  (forall m, In m (definitionsOf raw dir) -> version m <> Js.toString (col_version_id r)) ->
  exists rows1,
    table (snd (downToMigration raw dir target db)) = Some rows1 /\ In r rows1.
Proof.
  intros Ht Hr Hnone.
  apply (downToMigration_keeps Store raw
           (fun db0 => exists rows1, table db0 = Some rows1 /\ In r rows1));
    [|now exists rows].
  intros m a db0 Hm Ha Hf (rows1 & Ht1 & Hr1).
  destruct (rollbackMigration m db0) as [res db'] eqn:E. cbn [snd].
  apply rollbackMigration_effect in E as (_ & _ & _ & E).
  destruct res as [[]|e].
  - destruct E as (rows0 & z & Hr0 & Hz & -> & _).
    rewrite Ht1 in Hr0. injection Hr0 as <-.
    eexists. split; [reflexivity|]. apply filter_In. split; [assumption|].
    apply negb_true_iff, Z.eqb_neq. intros Heq.
    assert (Hfc : fromColumn a).
    { unfold recordsOf in Ha. pose proof (getAppliedMigrations_fromColumn Store db) as Hall.
      destruct (getAppliedMigrations db) as [[l|e] db2]; [|contradiction].
      specialize (Hall db2 l eq_refl). rewrite Forall_forall in Hall. now apply Hall. }
    destruct (found_version Store _ a m z Hfc Hf Hz) as [_ Hv].
    apply (Hnone m Hm). now rewrite Hv, Heq.
  - destruct E as [-> _]. now exists rows1.
Qed.

Lemma rollback_keeps_rows_without_definition_witness :
  exists rows1,
    table (snd (downToMigration Sample.raw Sample.lateDirBefore (Some "0")
                  Sample.outOfOrderDb)) = Some rows1 /\
    In (mkRow 3 2 1 0) rows1.
Proof.
  apply (rollback_keeps_rows_without_definition Sample.Store Sample.raw Sample.lateDirBefore
           (Some "0") Sample.outOfOrderDb
           [mkRow 1 0 1 0; mkRow 2 3 1 0; mkRow 3 2 1 0]).
  - reflexivity.
  - right. right. now left.
  - intros m [<-|[]]. discriminate.
Defined.

(** X20.  A rollback only takes rows away, and gives no [id]: the ledger
    afterwards is the ledger before with some rows filtered out, and the
    next [id] is unchanged. *)
Theorem rollback_only_removes_rows (Store : Type) (raw : string -> Action Store)
    (dir : Directory Store) (target : option string) (db : Db Store) (rows : list Row) :
  table db = Some rows ->
  exists keep,
    table (snd (downToMigration raw dir target db)) = Some (filter keep rows) /\
    nextId (snd (downToMigration raw dir target db)) = nextId db.
Proof.
  intros Ht.
  apply (downToMigration_keeps Store raw
           (fun db0 => exists keep, table db0 = Some (filter keep rows) /\ nextId db0 = nextId db)).
  - intros m a db0 _ _ _ (keep & Ht0 & Hn0).
    destruct (rollbackMigration m db0) as [res db'] eqn:E. cbn [snd].
    apply rollbackMigration_effect in E as (_ & Hid & _ & E). rewrite Hid.
    destruct res as [[]|e].
    + destruct E as (rows0 & z & Hr0 & _ & -> & _).
      rewrite Ht0 in Hr0. injection Hr0 as <-. rewrite filter_filter.
      eexists. split; [reflexivity | assumption].
    + destruct E as [-> _]. now exists keep.
  - exists (fun _ => true). now rewrite filter_all.
Qed.

Lemma rollback_only_removes_rows_witness :
  exists keep,
    table (snd (downToMigration Sample.raw Sample.savePointDir (Some "0") Sample.savePointDb))
      = Some (filter keep [mkRow 1 0 1 0; mkRow 2 1 1 0; mkRow 3 2 1 0; mkRow 4 3 1 0]) /\
    nextId (snd (downToMigration Sample.raw Sample.savePointDir (Some "0") Sample.savePointDb))
      = nextId Sample.savePointDb.
Proof.
  apply (rollback_only_removes_rows Sample.Store Sample.raw Sample.savePointDir (Some "0")
           Sample.savePointDb).
  reflexivity.
Defined.

Section ApplyKeeps.
Variable Store : Type.
Variable raw : string -> Action Store.

(** What [upMigration] and [upByOneMigration] keep, when applying one
    migration keeps it. *)
Lemma up_operations_keep (P : Db Store -> Prop) (dir : Directory Store) target db :
  (forall m db0, P db0 -> P (snd (applyMigration m db0))) ->
  P db ->
  P (snd (upMigration raw dir target db)) /\ P (snd (upByOneMigration raw dir db)).
Proof.
  intros Happly H.
  assert (Hbatch : forall ms db0, P db0 -> P (snd (applyMigrations ms db0))).
  { induction ms as [|m ms IH]; intros db0 H0; [assumption|].
    cbn [applyMigrations]. unfold bind. pose proof (Happly m db0 H0) as H1.
    destruct (applyMigration m db0) as [[[]|e] db1]; cbn [snd] in *; [now apply IH | assumption]. }
  pose proof (getAppliedMigrations_state Store db) as Hs.
  split.
  - unfold upMigration, bind, liftResult, ret, throw.
    destruct (getMigrationFiles raw dir) as [ms|e]; [|assumption].
    destruct (getAppliedMigrations db) as [[applied|e] db']; cbn [snd] in Hs; subst db';
      [|assumption].
    destruct (boundPending target (pendingOf ms applied)) as [pend|e]; [|assumption].
    destruct pend as [|m pend]; [assumption | now apply Hbatch].
  - unfold upByOneMigration, bind, liftResult, ret, throw.
    destruct (getMigrationFiles raw dir) as [ms|e]; [|assumption].
    destruct (getAppliedMigrations db) as [[applied|e] db']; cbn [snd] in Hs; subst db';
      [|assumption].
    destruct (pendingOf ms applied) as [|m pend]; [assumption | now apply Hbatch].
Qed.

End ApplyKeeps.

(** X21.  Applying only appends: after [upMigration] or
    [upByOneMigration], whatever the target and whatever the outcome, the
    rows that were in the ledger are still there, in their place, with
    the new rows after them. *)
Theorem apply_only_appends_rows (Store : Type) (raw : string -> Action Store)
    (dir : Directory Store) (target : option string) (db : Db Store) (rows : list Row) :
  table db = Some rows ->
  (exists added, table (snd (upMigration raw dir target db)) = Some (rows ++ added)%list) /\
  (exists added, table (snd (upByOneMigration raw dir db)) = Some (rows ++ added)%list).
Proof.
  intros Ht.
  apply (up_operations_keep Store raw
           (fun db0 => exists added, table db0 = Some (rows ++ added)%list)).
  - intros m db0 (added & Ht0).
    destruct (applyMigration m db0) as [res db'] eqn:E. cbn [snd].
    apply applyMigration_effect in E as (_ & _ & E).
    destruct res as [[]|e].
    + destruct E as (rows0 & z & s & Hr0 & _ & _ & _ & _ & -> & _).
      rewrite Ht0 in Hr0. injection Hr0 as <-. rewrite <- List.app_assoc. now eexists.
    + destruct E as (-> & _). now exists added.
  - exists []. now rewrite List.app_nil_r.
Qed.

Lemma apply_only_appends_rows_witness :
  exists added,
    table (snd (upMigration Sample.raw Sample.duplicateDir None Sample.seeded))
      = Some ([mkRow 1 0 1 0] ++ added)%list.
Proof.
  destruct (apply_only_appends_rows Sample.Store Sample.raw Sample.duplicateDir None
              Sample.seeded [mkRow 1 0 1 0]) as [H _].
  - reflexivity.
  - exact H.
Defined.

Section RollbackAll.
Variable Store : Type.

(** A walk in which every entry has a definition that can be reversed,
    and that succeeds, removes the rows of all its entries and calls
    their [down]s in the order of the walk. *)
Lemma rollbackLoop_all (ms : list (MigrationFile Store)) cs db0 db1 rows0 :
  table db0 = Some rows0 ->
  Forall (fun a => fromColumn a /\
                   exists m, findMigration ms a = Some m /\ irreversible (module m) = false) cs ->
  rollbackLoop ms cs db0 = (Ok tt, db1) ->
  table db1 = Some (filter (fun r => negb (existsb (fun a => (versionOf a =? col_version_id r)%Z) cs))
                           rows0) /\
  calls db1 = (calls db0 ++ flat_map (callsDown ms) cs)%list.
Proof.
  intros Ht Hall. revert db0 rows0 Ht.
  induction Hall as [|a cs (Hfc & m & Hf & Hi) _ IH]; intros db0 rows0 Ht Hrun.
  - injection Hrun as <-. cbn. now rewrite filter_all, List.app_nil_r.
  - cbn [rollbackLoop] in Hrun. rewrite Hf, Hi in Hrun. unfold bind in Hrun.
    destruct (rollbackMigration m db0) as [[[]|e] db'] eqn:E; [|discriminate].
    apply rollbackMigration_effect in E as (_ & _ & Hc & rows & z & Hr & Hz & Ht' & _).
    rewrite Ht in Hr. injection Hr as <-.
    destruct (found_version Store ms a m z Hfc Hf Hz) as [-> _].
    destruct (IH db' _ Ht' Hrun) as [Ht1 Hc1].
    split.
    + rewrite Ht1, filter_filter. f_equal. apply filter_ext. intros x.
      cbn [existsb]. now rewrite negb_orb, Z.eqb_sym.
    + rewrite Hc1, Hc, <- List.app_assoc. cbn [flat_map]. unfold callsDown at 2.
      now rewrite Hf.
Qed.

(** A walk none of whose entries has a definition does nothing. *)
Lemma rollbackLoop_none (ms : list (MigrationFile Store)) cs db :
  Forall (fun a => findMigration ms a = None) cs ->
  rollbackLoop ms cs db = (Ok tt, db) /\ flat_map (callsDown ms) cs = [].
Proof.
  induction 1 as [|a cs Ha _ [IH1 IH2]]; [now split|].
  cbn [rollbackLoop flat_map]. unfold callsDown at 1. rewrite Ha. now split.
Qed.

End RollbackAll.

(** X22.  Rolling back to a target.  When each row of a version above
    the target has a definition, found by its version, that is not
    irreversible, a run of [downToMigration] that succeeds leaves in the
    ledger exactly the rows of a version up to the target, and has called
    the [down]s of the versions above it, from the greatest version down,
    those of the definitions that have one. *)
Theorem rollback_to_target (Store : Type) (raw : string -> Action Store)
    (dir : Directory Store) (v : string) (t : Z) (db db1 : Db Store) (rows : list Row) :
  Js.BigInt v = Some t ->
  table db = Some rows ->
  (forall r, In r rows -> (t < col_version_id r)%Z ->
     exists m, findMigration (definitionsOf raw dir) (toRecord (driver db) r) = Some m /\
               irreversible (module m) = false) ->
  downToMigration raw dir (Some v) db = (Ok tt, db1) ->
  table db1 = Some (filter (fun r => (col_version_id r <=? t)%Z) rows) /\
  calls db1 =
    (calls db ++ flat_map (callsDown (definitionsOf raw dir))
                   (filter (fun a => (versionOf a >? t)%Z)
                           (sortedAppliedMigrations (recordsOf db))))%list.
Proof.
  intros Hv Ht Hdefs Hrun.
  unfold downToMigration, bind, liftResult, ret, throw in Hrun.
  unfold definitionsOf in *.
  destruct (getMigrationFiles raw dir) as [ms|e]; [|discriminate].
  pose proof (getAppliedMigrations_table Store db rows Ht) as Ea.
  unfold recordsOf. rewrite Ea in Hrun |- *.
  set (d := driver db) in *.
  set (applied := map (toRecord d) (sort compareId rows)) in *.
  assert (Hfc : Forall fromColumn applied) by apply toRecord_fromColumn.
  assert (Hin : forall a, In a applied <->
                          exists r, In r rows /\ a = toRecord d r).
  { intros a. unfold applied. rewrite in_map_iff. split.
    - intros (r & <- & Hr). exists r. split; [now apply sort_In in Hr | reflexivity].
    - intros (r & Hr & ->). exists r. split; [reflexivity | now apply sort_In]. }
  destruct applied as [|a0 applied'] eqn:Eapp.
  - injection Hrun as <-. cbn.
    assert (rows = []).
    { destruct rows as [|r rows']; [reflexivity|]. exfalso.
      destruct (proj2 (Hin (toRecord d r))). exists r. split; [now left | reflexivity]. }
    subst rows. rewrite List.app_nil_r. now split.
  - rewrite <- Eapp in *. clear Eapp a0 applied'.
    pose proof (sortedAppliedMigrations_perm applied) as Hperm.
    unfold migrationsToRollback in Hrun.
    rewrite (filterAbove_fromColumn v t _ Hv) in Hrun
      by (eapply Permutation_Forall; [symmetry; exact Hperm | exact Hfc]).
    set (cs := filter (fun a => (versionOf a >? t)%Z) (sortedAppliedMigrations applied)) in *.
    assert (Hcs : forall a, In a cs <-> In a applied /\ (versionOf a > t)%Z).
    { intros a. unfold cs. rewrite filter_In. split.
      - intros [Ha Hgt]. split; [now apply (Permutation_in _ Hperm) | lia].
      - intros [Ha Hgt].
        split; [now apply (Permutation_in _ (Permutation_sym Hperm)) | lia]. }
    destruct (bigintAsString d) eqn:Hd.
    + (* the column is read as a string: the version of a record is that of its row *)
      assert (Hver : forall r, versionOf (toRecord d r) = col_version_id r)
        by (intros r; now apply toRecord_version).
      destruct (rollbackLoop_all Store ms cs db db1 rows Ht) as [Ht1 Hc1]; [|exact Hrun|].
      * apply Forall_forall. intros a Ha. apply Hcs in Ha as [Ha Hgt].
        split; [rewrite Forall_forall in Hfc; now apply Hfc|].
        apply Hin in Ha as (r & Hr & ->). apply Hdefs; [assumption|]. rewrite Hver in Hgt. lia.
      * split; [|exact Hc1]. rewrite Ht1. f_equal. apply filter_ext_in. intros r Hr.
        destruct (Z.leb_spec (col_version_id r) t) as [Hle|Hgt].
        -- apply negb_true_iff.
           destruct (existsb (fun a => (versionOf a =? col_version_id r)%Z) cs) eqn:Ex;
             [|reflexivity].
           apply existsb_exists in Ex as (a & Ha & Ea'). apply Hcs in Ha as [_ Hgt].
           apply Z.eqb_eq in Ea'. lia.
        -- apply negb_false_iff, existsb_exists. exists (toRecord d r).
           split; [|rewrite Hver; apply Z.eqb_refl].
           apply Hcs. split; [apply Hin; now exists r | rewrite Hver; lia].
    + (* the column is read as a number: no record has a definition *)
      assert (Hnone : forall a, In a applied -> findMigration ms a = None).
      { intros a Ha. apply Hin in Ha as (r & _ & ->).
        apply findMigration_number with (toDouble (col_version_id r)).
        now apply toRecord_number. }
      destruct (rollbackLoop_none Store ms cs db) as [Hloop Hcalls].
      { apply Forall_forall. intros a Ha. apply Hnone. now apply Hcs in Ha. }
      rewrite Hloop in Hrun. injection Hrun as <-.
      rewrite Hcalls, List.app_nil_r. split; [|reflexivity].
      rewrite Ht. f_equal. symmetry. rewrite <- (filter_all rows) at 2.
      apply filter_ext_in. intros r Hr.
      destruct (Z.leb_spec (col_version_id r) t) as [Hle|Hgt]; [reflexivity|].
      destruct (Hdefs r Hr Hgt) as (m & Hf & _).
      rewrite Hnone in Hf; [discriminate|]. apply Hin. now exists r.
Qed.

Lemma rollback_to_target_witness :
  let db1 := snd (downToMigration Sample.raw Sample.lateDir (Some "0") Sample.outOfOrderDb) in
  table db1 = Some [mkRow 1 0 1 0] /\
  calls db1 = (calls Sample.outOfOrderDb ++ [CallDown "3_c.sql"; CallDown "2_b.sql"])%list.
Proof.
  apply (rollback_to_target Sample.Store Sample.raw Sample.lateDir "0" 0
           Sample.outOfOrderDb
           (snd (downToMigration Sample.raw Sample.lateDir (Some "0") Sample.outOfOrderDb))
           [mkRow 1 0 1 0; mkRow 2 3 1 0; mkRow 3 2 1 0]).
  - reflexivity.
  - reflexivity.
  - intros r [<-|[<-|[<-|[]]]] Hgt; cbn in Hgt; try lia; eexists; split; reflexivity.
  - reflexivity.
Defined.

(** X23.  A rollback with no target touches the greatest version only:
    a row that is gone afterwards has a version that no row of the ledger
    exceeds, and at most one action has been called. *)
Theorem plain_rollback_takes_greatest_version (Store : Type) (raw : string -> Action Store)
    (dir : Directory Store) (db : Db Store) (rows : list Row) :
  table db = Some rows ->
  let db1 := snd (downToMigration raw dir None db) in
  exists rows1 called,
    table db1 = Some rows1 /\
    (forall r, In r rows ->
       In r rows1 \/ forall r', In r' rows -> (col_version_id r' <= col_version_id r)%Z) /\
    calls db1 = (calls db ++ called)%list /\ (List.length called <= 1)%nat.
Proof.
  intros Ht db1. subst db1.
  assert (Hsame : exists rows1 called,
             table db = Some rows1 /\
             (forall r, In r rows ->
                In r rows1 \/ forall r', In r' rows -> (col_version_id r' <= col_version_id r)%Z) /\
             calls db = (calls db ++ called)%list /\ (List.length called <= 1)%nat).
  { exists rows, []. rewrite List.app_nil_r. repeat split; auto. }
  unfold downToMigration, bind, liftResult, ret, throw.
  destruct (getMigrationFiles raw dir) as [ms|e]; [|exact Hsame].
  rewrite (getAppliedMigrations_table Store db rows Ht).
  set (d := driver db).
  set (applied := map (toRecord d) (sort compareId rows)).
  assert (Hfc : Forall fromColumn applied) by apply toRecord_fromColumn.
  destruct applied as [|a0 applied'] eqn:Eapp; [exact Hsame|].
  rewrite <- Eapp in *. clear Eapp a0 applied'.
  unfold migrationsToRollback.
  pose proof (sortedAppliedMigrations_perm applied) as Hperm.
  pose proof (sortedAppliedMigrations_sorted applied) as Hsorted.
  destruct (sortedAppliedMigrations applied) as [|top others]; [exact Hsame|].
  cbn [firstn rollbackLoop].
  destruct (findMigration ms top) as [m|] eqn:Ef; [|exact Hsame].
  destruct (irreversible (module m)); [exact Hsame|].
  assert (Htop : fromColumn top).
  { rewrite Forall_forall in Hfc. apply Hfc, (Permutation_in _ Hperm). now left. }
  assert (Hd : bigintAsString d = true).
  { assert (Hin : In top applied) by (apply (Permutation_in _ Hperm); now left).
    unfold applied in Hin. apply in_map_iff in Hin as (r0 & <- & _).
    apply findMigration_some in Ef as [_ Ev]. now apply toRecord_string in Ev. }
  assert (Hmax : forall r', In r' rows -> (col_version_id r' <= versionOf top)%Z).
  { intros r' Hr'.
    assert (Hin : In (toRecord d r') (top :: others)).
    { apply (Permutation_in _ (Permutation_sym Hperm)). unfold applied.
      apply in_map. now apply sort_In. }
    rewrite <- (proj2 (toRecord_version d r' Hd)).
    destruct Hin as [<-|Hin]; [lia|].
    apply StronglySorted_inv in Hsorted as [_ Hall]. rewrite Forall_forall in Hall.
    now apply Hall. }
  unfold bind.
  destruct (rollbackMigration m db) as [res db'] eqn:E.
  assert (Hgoal : exists rows1 called,
             table db' = Some rows1 /\
             (forall r, In r rows ->
                In r rows1 \/ forall r', In r' rows -> (col_version_id r' <= col_version_id r)%Z) /\
             calls db' = (calls db ++ called)%list /\ (List.length called <= 1)%nat).
  { apply rollbackMigration_effect in E as (_ & _ & Hc & E).
    assert (Hlen : (List.length match down (module m) with
                                | Some _ => [CallDown (filename m)]
                                | None => []
                                end <= 1)%nat) by (destruct (down (module m)); cbn; lia).
    destruct res as [[]|e].
    - destruct E as (rows0 & z & Hr0 & Hz & Ht' & _).
      rewrite Ht in Hr0. injection Hr0 as <-.
      destruct (found_version Store ms top m z Htop Ef Hz) as [-> _].
      eexists. eexists. split; [exact Ht'|]. split; [|split; [exact Hc | exact Hlen]].
      intros r Hr. destruct (Z.eq_dec (col_version_id r) (versionOf top)) as [Heq|Hneq].
      + right. intros r' Hr'. rewrite Heq. now apply Hmax.
      + left. apply filter_In. split; [assumption|]. now apply negb_true_iff, Z.eqb_neq.
    - destruct E as [Ht' _]. rewrite Ht in Ht'.
      exists rows. eexists. split; [exact Ht'|]. split; [auto|]. split; [exact Hc | exact Hlen]. }
  destruct res as [[]|e]; exact Hgoal.
Qed.

Lemma plain_rollback_takes_greatest_version_witness :
  let db1 := snd (downToMigration Sample.raw Sample.lateDir None Sample.outOfOrderDb) in
  exists rows1 called,
    table db1 = Some rows1 /\
    (forall r, In r [mkRow 1 0 1 0; mkRow 2 3 1 0; mkRow 3 2 1 0] ->
       In r rows1 \/
       forall r', In r' [mkRow 1 0 1 0; mkRow 2 3 1 0; mkRow 3 2 1 0] ->
                  (col_version_id r' <= col_version_id r)%Z) /\
    calls db1 = (calls Sample.outOfOrderDb ++ called)%list /\ (List.length called <= 1)%nat.
Proof.
  apply (plain_rollback_takes_greatest_version Sample.Store Sample.raw Sample.lateDir
           Sample.outOfOrderDb).
  reflexivity.
Defined.



(* ================================================================= *)
(** ** Status, initialisation and loading *)

Lemma find_none_existsb {A : Type} (p : A -> bool) l :
  find p l = None <-> existsb p l = false.
Proof.
  induction l as [|x l IH]; cbn; [tauto|]. destruct (p x); cbn; [split; discriminate | exact IH].
Qed.

(** X25.  The status agrees with what would be applied.  When the
    directory loads and the ledger table exists, [statusMigration]
    succeeds, changes nothing, and lists every definition once, in the
    order of loading; a definition is listed without a time exactly when
    it is among the pending ones of [upMigration], and otherwise with the
    time of a ledger entry of its version. *)
Theorem status_agrees_with_pending (Store : Type) (raw : string -> Action Store)
    (dir : Directory Store) (db : Db Store) (rows : list Row) :
  table db = Some rows ->
  isOk (getMigrationFiles raw dir) = true ->
  exists lines,
    statusMigration raw dir db = (Ok lines, db) /\
    map fst lines = map (@filename Store) (definitionsOf raw dir) /\
    Forall2 (fun m line =>
               (snd line = None <-> In m (pendingOf (definitionsOf raw dir) (recordsOf db))) /\
               (forall ts, snd line = Some ts ->
                  exists a, In a (recordsOf db) /\ version_id a = StringValue (version m) /\
                            tstamp a = ts))
            (definitionsOf raw dir) lines.
Proof.
  intros Ht Hok.
  destruct (getMigrationFiles raw dir) as [ms|e] eqn:Ems; [|discriminate].
  assert (Hdefs : definitionsOf raw dir = ms) by (unfold definitionsOf; now rewrite Ems).
  pose proof (getAppliedMigrations_table Store db rows Ht) as Ea.
  assert (Hrec : recordsOf db = map (toRecord (driver db)) (sort compareId rows))
    by (unfold recordsOf; now rewrite Ea).
  rewrite Hdefs, Hrec. set (applied := map (toRecord (driver db)) (sort compareId rows)) in *.
  exists (map (statusLine applied) ms).
  split; [unfold statusMigration, bind, liftResult, ret; now rewrite Ems, Ea|].
  split; [rewrite map_map; reflexivity|].
  assert (Hgen : forall l, incl l ms ->
            Forall2 (fun m line =>
               (snd line = None <-> In m (pendingOf ms applied)) /\
               (forall ts, snd line = Some ts ->
                  exists a, In a applied /\ version_id a = StringValue (version m) /\
                            tstamp a = ts))
              l (map (statusLine applied) l)).
  { induction l as [|m l IH]; intros Hl; [constructor|].
    cbn [map]. constructor; [|apply IH; intros x Hx; apply Hl; now right].
    unfold statusLine. cbn [snd]. split.
    - rewrite pendingOf_In. unfold isApplied. rewrite <- find_none_existsb.
      destruct (find (fun a => strictEquals (version_id a) (version m)) applied);
        cbn [option_map].
      + split; [discriminate | intros [_ H]; discriminate H].
      + split; [intros _; split; [apply Hl; now left | reflexivity] | reflexivity].
    - intros ts Hts.
      destruct (find (fun a => strictEquals (version_id a) (version m)) applied) as [a|] eqn:Ef;
        [|discriminate].
      apply find_some in Ef as [Ha Hv]. apply strictEquals_true in Hv.
      injection Hts as <-. now exists a. }
  apply Hgen, incl_refl.
Qed.

Lemma status_agrees_with_pending_witness :
  exists lines,
    statusMigration Sample.raw Sample.lateDir
      (snd (upMigration Sample.raw Sample.lateDirBefore None Sample.seeded))
    = (Ok lines, snd (upMigration Sample.raw Sample.lateDirBefore None Sample.seeded)) /\
    lines = [("2_b.sql", None); ("3_c.sql", Some 0%N)].
Proof.
  destruct (status_agrees_with_pending Sample.Store Sample.raw Sample.lateDir
              (snd (upMigration Sample.raw Sample.lateDirBefore None Sample.seeded))
              [mkRow 1 0 1 0; mkRow 2 3 1 0]) as (lines & Hs & _).
  - reflexivity.
  - reflexivity.
  - exists lines. split; [exact Hs|]. vm_compute in Hs. now injection Hs as <-.
Defined.

(** X26.  [initializeDb] never fails.  On a database without the ledger
    table it creates the table with one row, the baseline of version 0,
    and touches nothing else; on a database that has the table it
    changes nothing, also when the table has no baseline.  Running it
    again changes nothing. *)
Theorem initializeDb_creates_once (Store : Type) (db : Db Store) :
  fst (initializeDb db) = Ok tt /\
  (table db = None ->
   snd (initializeDb db) =
     mkDb (Some [mkRow (nextId db) 0 1 (now db)]) (nextId db + 1) (now db) (store db) (calls db)
          (driver db)) /\
  (table db <> None -> snd (initializeDb db) = db) /\
  initializeDb (snd (initializeDb db)) = (Ok tt, snd (initializeDb db)).
Proof.
  assert (Hsome : forall d : Db Store, table d <> None -> initializeDb d = (Ok tt, d)).
  { intros d Hd. unfold initializeDb, bind, hasTable, ret.
    destruct (table d); [reflexivity | congruence]. }
  assert (Hnone : table db = None ->
            initializeDb db =
              (Ok tt, mkDb (Some [mkRow (nextId db) 0 1 (now db)]) (nextId db + 1) (now db)
                           (store db) (calls db) (driver db))).
  { intros Hd.
    unfold initializeDb, bind, hasTable, createTable, selectFirst, insertVersion, ret.
    rewrite Hd. reflexivity. }
  destruct (table db) as [rows|] eqn:Et.
  - assert (Hd : table db <> None) by congruence.
    rewrite (Hsome db Hd). cbn [fst snd].
    split; [reflexivity|]. split; [discriminate|]. split; [reflexivity|]. now apply Hsome.
  - rewrite (Hnone eq_refl). cbn [fst snd].
    split; [reflexivity|]. split; [reflexivity|]. split; [congruence|].
    apply Hsome. discriminate.
Qed.

Lemma initializeDb_creates_once_witness :
  snd (initializeDb Sample.fresh) = mkDb (Some [mkRow 1 0 1 0]) 2 0 [] [] Sample.postgres /\
  initializeDb Sample.seeded = (Ok tt, Sample.seeded).
Proof.
  destruct (initializeDb_creates_once Sample.Store Sample.fresh) as (_ & Hnew & _ & Hagain).
  split; [now apply Hnew | exact Hagain].
Defined.

Section LoadMore.
Variable Store : Type.
Variable raw : string -> Action Store.

Lemma loadAll_ext (dir1 dir2 : Directory Store) names :
  (forall n, In n names -> loadModule raw dir1 n = loadModule raw dir2 n) ->
  loadAll raw dir1 names = loadAll raw dir2 names.
Proof.
  induction names as [|n names IH]; intros H; [reflexivity|].
  cbn [loadAll]. rewrite (H n (or_introl eq_refl)), IH; [reflexivity|].
  intros x Hx. apply H. now right.
Qed.

Lemma lookupFile_skip (d1 d2 : Directory Store) f body n :
  f <> n -> lookupFile (d1 ++ (f, body) :: d2)%list n = lookupFile (d1 ++ d2)%list n.
Proof.
  intros Hne. unfold lookupFile. f_equal.
  induction d1 as [|x d1 IH]; cbn [app find].
  - cbn [fst]. apply String.eqb_neq in Hne. now rewrite Hne.
  - destruct (fst x =? n); [reflexivity | exact IH].
Qed.

Lemma loadAll_first_failure (dir : Directory Store) pre f post e :
  Forall (fun g => isMigrationFile g = true /\ isOk (loadModule raw dir g) = true) pre ->
  isMigrationFile f = true ->
  loadModule raw dir f = Err e ->
  loadAll raw dir (pre ++ f :: post) = Err e.
Proof.
  intros Hpre Hf He. induction Hpre as [|g pre [Hg Hok] _ IH]; cbn [app loadAll].
  - destruct (isMigrationFile_version f Hf) as (v & -> & _). now rewrite He.
  - destruct (isMigrationFile_version g Hg) as (v & -> & _).
    destruct (loadModule raw dir g); [|discriminate]. now rewrite IH.
Qed.

End LoadMore.

(** X27.  Files that do not pass the filter of the loader do not count: a
    directory with such a file, wherever it stands and whatever it holds,
    loads as the directory without it. *)
Theorem load_ignores_other_files (Store : Type) (raw : string -> Action Store)
    (d1 d2 : Directory Store) (f : string) (body : FileBody Store) :
  isMigrationFile f = false ->
  getMigrationFiles raw (d1 ++ (f, body) :: d2)%list = getMigrationFiles raw (d1 ++ d2)%list.
Proof.
  intros Hf. unfold getMigrationFiles.
  assert (Hfiles : migrationFilesOf (d1 ++ (f, body) :: d2)%list = migrationFilesOf (d1 ++ d2)%list).
  { unfold migrationFilesOf, readdir. rewrite !map_app. cbn [map fst].
    rewrite !filter_app. cbn [filter]. now rewrite Hf. }
  rewrite Hfiles. apply loadAll_ext. intros n Hn.
  apply migrationFilesOf_In in Hn as [_ Hn].
  unfold loadModule. rewrite lookupFile_skip; [reflexivity|]. congruence.
Qed.

Lemma load_ignores_other_files_witness :
  getMigrationFiles Sample.raw
    ([("1_a.sql", Sample.sqlFile "a")] ++ ("README.md", Unreadable)
       :: [("2_b.sql", Sample.sqlFile "b")])%list
  = getMigrationFiles Sample.raw
      ([("1_a.sql", Sample.sqlFile "a")] ++ [("2_b.sql", Sample.sqlFile "b")])%list.
Proof.
  apply (load_ignores_other_files Sample.Store Sample.raw). reflexivity.
Defined.

(** X28.  Loading is all or nothing.  When, in the order of versions, the
    files before a file load and that file does not, loading the
    directory fails with the error of that file, and no definition is
    returned. *)
Theorem load_fails_with_first_bad_file (Store : Type) (raw : string -> Action Store)
    (dir : Directory Store) (pre post : list string) (f : string) (e : Error) :
  migrationFilesOf dir = (pre ++ f :: post)%list ->
  Forall (fun g => isOk (loadModule raw dir g) = true) pre ->
  loadModule raw dir f = Err e ->
  getMigrationFiles raw dir = Err e /\ definitionsOf raw dir = [].
Proof.
  intros Hfiles Hpre He.
  assert (Hall : forall g, In g (pre ++ f :: post) -> isMigrationFile g = true).
  { intros g Hg. rewrite <- Hfiles in Hg. now apply migrationFilesOf_In in Hg. }
  assert (E : getMigrationFiles raw dir = Err e).
  { unfold getMigrationFiles. rewrite Hfiles. apply loadAll_first_failure.
    - apply Forall_forall. intros g Hg. split.
      + apply Hall. apply in_or_app. now left.
      + rewrite Forall_forall in Hpre. now apply Hpre.
    - apply Hall. apply in_or_app. right. now left.
    - exact He. }
  split; [exact E|]. unfold definitionsOf. now rewrite E.
Qed.

Lemma load_fails_with_first_bad_file_witness :
  let dir : Directory Sample.Store :=
    [("2_b.js", Script (mkExports Undefined Undefined Undefined Undefined));
     ("1_a.sql", Sample.sqlFile "a"); ("3_c.sql", Unreadable)] in
  getMigrationFiles Sample.raw dir = Err (TypeError "2_b.js").
Proof.
  intros dir.
  destruct (load_fails_with_first_bad_file Sample.Store Sample.raw dir
              ["1_a.sql"] ["3_c.sql"] "2_b.js" (TypeError "2_b.js")) as [H _].
  - reflexivity.
  - repeat constructor.
  - reflexivity.
  - exact H.
Defined.

(* ================================================================= *)
(** ** The driver, the baseline and a second run *)

Section DriverFacts.
Variable Store : Type.
Variable raw : string -> Action Store.

(** On a driver that returns numbers no entry of the ledger has a
    definition: every definition is pending, and a rollback does
    nothing. *)
Lemma number_records (db : Db Store) a :
  bigintAsString (driver db) = false -> In a (recordsOf db) ->
  exists z, version_id a = NumberValue z.
Proof.
  intros Hd Ha. unfold recordsOf, getAppliedMigrations, selectAll in Ha.
  destruct (table db) as [rows|]; [|contradiction].
  apply in_map_iff in Ha as (r & <- & _). eexists. now apply toRecord_number.
Qed.

Lemma number_pending (ms : list (MigrationFile Store)) (db : Db Store) :
  bigintAsString (driver db) = false -> pendingOf ms (recordsOf db) = ms.
Proof.
  intros Hd. unfold pendingOf. rewrite <- (filter_all ms) at 2.
  apply filter_ext. intros m. apply negb_true_iff, isApplied_false.
  intros a Ha. destruct (number_records db a Hd Ha) as [z ->]. discriminate.
Qed.

Lemma number_rollback (dir : Directory Store) target (db : Db Store) :
  bigintAsString (driver db) = false ->
  snd (downToMigration raw dir target db) = db.
Proof.
  intros Hd. unfold downToMigration, bind, liftResult, ret, throw.
  destruct (getMigrationFiles raw dir) as [ms|e]; [|reflexivity].
  pose proof (number_records db) as Hrec. unfold recordsOf in Hrec.
  pose proof (getAppliedMigrations_state Store db) as Hs.
  destruct (getAppliedMigrations db) as [[applied|e] db'] eqn:Ea; cbn [snd] in Hs; subst db';
    [|reflexivity].
  destruct applied as [|a applied]; [reflexivity|].
  destruct (migrationsToRollback (a :: applied) target) as [cs|e] eqn:Ec; [|reflexivity].
  destruct (rollbackLoop_none Store ms cs db) as [-> _]; [|reflexivity].
  apply Forall_forall. intros x Hx.
  apply (migrationsToRollback_incl _ _ _ Ec) in Hx.
  destruct (Hrec x Hd Hx) as [z Hz]. now apply findMigration_number with z.
Qed.

(** A definition is applied when the driver returns strings and a row of
    the ledger holds a number of which its version is the numeral. *)
Lemma isApplied_rows (db : Db Store) rows (m : MigrationFile Store) :
  table db = Some rows ->
  (isApplied (recordsOf db) m = true <->
   bigintAsString (driver db) = true /\
   exists r, In r rows /\ Js.toString (col_version_id r) = version m).
Proof.
  intros Ht. unfold recordsOf. rewrite (getAppliedMigrations_table Store db rows Ht).
  rewrite isApplied_true. split.
  - intros (a & Ha & Hv). apply in_map_iff in Ha as (r & <- & Hr).
    apply toRecord_string in Hv as [Hd Hv]. split; [assumption|].
    exists r. split; [now apply sort_In in Hr | now symmetry].
  - intros (Hd & r & Hr & Hv). exists (toRecord (driver db) r).
    split; [apply in_map; now apply sort_In|].
    rewrite (proj1 (toRecord_version (driver db) r Hd)). now rewrite Hv.
Qed.

(** A migration whose version is in the ledger is refused. *)
Lemma applyMigration_refused (m : MigrationFile Store) (db : Db Store) rows z :
  table db = Some rows ->
  columnValue (version m) = Some z ->
  existsb (fun r => (col_version_id r =? z)%Z) rows = true ->
  exists e db',
    applyMigration m db = (Err e, db') /\
    (forall s, up (module m) (store db) = (Ok tt, s) -> e = UniqueViolation z).
Proof.
  intros Ht Hz Hx.
  unfold applyMigration, transaction, bind, invoke, insert, insertVersion.
  rewrite Hz.
  destruct (noTransaction (module m));
    destruct (up (module m) (store db)) as [[[]|e] s];
    cbn beta iota zeta delta [table nextId now store calls driver]; rewrite Ht, ?Hx;
    eexists; eexists; (split; [reflexivity|]); intros s' Hs'; congruence.
Qed.

(** With a target that is an integer, the bound is a filter. *)
Lemma boundPending_target v t (l : list (MigrationFile Store)) :
  Js.BigInt v = Some t ->
  boundPending (Some v) l = Ok (filter (fun m => (bigintOf (version m) <=? t)%Z) l).
Proof.
  intros Hv. unfold boundPending. rewrite Hv. now destruct l.
Qed.

(** What is pending after a run that succeeded. *)
Lemma pending_again (dir : Directory Store) ms (db db1 : Db Store) rows added
    (b : MigrationFile Store -> bool) :
  getMigrationFiles raw dir = Ok ms ->
  table db = Some rows ->
  table db1 = Some (rows ++ added)%list ->
  driver db1 = driver db ->
  Forall2 (fun m r => columnValue (version m) = Some (col_version_id r))
          (filter b (pendingOf ms (recordsOf db))) added ->
  filter b (pendingOf ms (recordsOf db1)) =
  if bigintAsString (driver db)
  then filter (fun m => hasLeadingZero (version m)) (filter b (pendingOf ms (recordsOf db)))
  else filter b (pendingOf ms (recordsOf db)).
Proof.
  intros Ems Ht Ht1 Hdrv Hadded.
  destruct (bigintAsString (driver db)) eqn:Hd.
  - unfold pendingOf. rewrite !filter_filter. apply filter_ext_in. intros m Hm.
    pose proof (proj2 (getMigrationFiles_spec Store raw dir ms Ems)) as Hms.
    rewrite Forall_forall in Hms. destruct (Hms m Hm) as (_ & _ & Hv & _).
    destruct (getVersionFromFilename_digits _ _ Hv) as [Hne Hdig].
    destruct (b m) eqn:Hb; [|now rewrite !andb_false_r].
    cbn [andb]. rewrite andb_true_r.
    destruct (hasLeadingZero (version m)) eqn:Hz.
    + (* a leading zero: no row reads as this version *)
      assert (Hno : forall d : Db Store, isApplied (recordsOf d) m = false).
      { intros d. apply isApplied_false. intros a Ha Hv'.
        unfold recordsOf, getAppliedMigrations, selectAll in Ha.
        destruct (table d) as [rs|]; [|contradiction].
        apply in_map_iff in Ha as (r & <- & _). apply toRecord_string in Hv' as [_ Hv'].
        rewrite Hv', NumberFacts.toString_no_leading_zero in Hz. discriminate Hz. }
      rewrite !Hno. reflexivity.
    + (* none: the row of the first run reads as this version *)
      rewrite andb_false_r. apply negb_false_iff.
      apply (isApplied_rows db1 _ m Ht1). rewrite Hdrv. split; [assumption|].
      destruct (isApplied (recordsOf db) m) eqn:Ha.
      * apply (isApplied_rows db _ m Ht) in Ha as (_ & r & Hr & Hrv).
        exists r. split; [apply in_or_app; now left | assumption].
      * assert (Hin : In m (filter b (pendingOf ms (recordsOf db)))).
        { apply filter_In. split; [|assumption]. apply pendingOf_In. now split. }
        destruct (Forall2_In_left _ _ _ _ Hadded Hin) as (r & Hr & Hc).
        exists r. split; [apply in_or_app; now right|].
        now apply columnValue_canonical.
  - rewrite !number_pending by congruence. reflexivity.
Qed.

End DriverFacts.

(** C5, as stated, fails: with a migration file of version 0 in the
    directory, a rollback with no target takes the baseline for the entry
    of that file and deletes its row. *)
Lemma C5_counterexample :
  hasBaseline Sample.seeded = true /\
  fst (downToMigration Sample.raw Sample.zeroDir None Sample.seeded) = Ok tt /\
  hasBaseline (snd (downToMigration Sample.raw Sample.zeroDir None Sample.seeded)) = false.
Proof. repeat split. Qed.

(** C5, amended.  [initializeDb] seeds a new ledger table with the
    baseline.  From then on applying (all pending, up to a target, or
    one) and initialising again keep a row of version 0, and the status
    changes nothing at all.  A rollback keeps the row in each of three
    cases: the target is given and is not negative, so that the baseline
    is no candidate; no file of the directory has the version 0, so that
    the baseline, when it is a candidate, has no definition; the driver
    returns numbers, so that no entry has a definition and the rollback
    changes nothing. *)
Theorem C5_when_the_baseline_is_kept (Store : Type)
    (raw : string -> Action Store) (dir : Directory Store)
    (target : option string) (db : Db Store) :
  hasBaseline db = true ->
  (forall db0 : Db Store, table db0 = None -> hasBaseline (snd (initializeDb db0)) = true) /\
  hasBaseline (snd (initializeDb db)) = true /\
  hasBaseline (snd (upMigration raw dir target db)) = true /\
  hasBaseline (snd (upByOneMigration raw dir db)) = true /\
  snd (statusMigration raw dir db) = db /\
  (forall v, target = Some v -> (forall t, Js.BigInt v = Some t -> (0 <= t)%Z) ->
     hasBaseline (snd (downToMigration raw dir target db)) = true) /\
  ((forall f, In f (readdir dir) -> isMigrationFile f = true ->
               getVersionFromFilename f <> Ok "0") ->
   hasBaseline (snd (downToMigration raw dir target db)) = true) /\
  (bigintAsString (driver db) = false -> snd (downToMigration raw dir target db) = db).
Proof.
  intros H.
  split; [intros db0 H0; apply initializeDb_baseline; now left|].
  split; [apply initializeDb_baseline; now right|].
  split; [now apply upMigration_baseline|].
  split; [now apply upByOneMigration_baseline|].
  split; [apply statusMigration_state|].
  split; [|split].
  - intros v Hv Ht. apply downToMigration_baseline; [|assumption]. right. now exists v.
  - intros Hdir. apply downToMigration_baseline; [now left | assumption].
  - apply number_rollback.
Qed.

(** With no target and a ledger that holds the baseline alone, the
    baseline is the candidate; no file has its version.  With the target
    0 and a file of version 0, it is no candidate. *)
Lemma C5_when_the_baseline_is_kept_witness :
  migrationsToRollback (recordsOf Sample.seeded) None
    = Ok [mkRecord (StringValue "1") (StringValue "0") 1 0] /\
  hasBaseline (snd (downToMigration Sample.raw Sample.savePointDir None Sample.seeded)) = true /\
  hasBaseline (snd (downToMigration Sample.raw Sample.zeroDir (Some "0") Sample.seeded)) = true.
Proof.
  split; [reflexivity|]. split.
  - destruct (C5_when_the_baseline_is_kept Sample.Store Sample.raw
                Sample.savePointDir None Sample.seeded)
      as (_ & _ & _ & _ & _ & _ & Hdown & _).
    + reflexivity.
    + apply Hdown. intros f Hin _ E. simpl in Hin.
      destruct Hin as [<-|[<-|[<-|[]]]]; vm_compute in E; discriminate E.
  - destruct (C5_when_the_baseline_is_kept Sample.Store Sample.raw
                Sample.zeroDir (Some "0") Sample.seeded)
      as (_ & _ & _ & _ & _ & Hdown & _).
    + reflexivity.
    + apply (Hdown "0"); [reflexivity|]. intros t Ht. vm_compute in Ht. injection Ht as <-. lia.
Defined.

(** C8 (the code departs from the claim).  After a run of [upMigration]
    that succeeds, a second run for the same directory and target does not
    always find the pending set empty.  On a driver that returns strings
    the definitions that the first run applied and whose version has a
    leading zero are pending again; on a driver that returns numbers all
    that the first run applied are.  When that set is empty the second run
    changes nothing.  When it is not, the second run calls the [up] of its
    first definition again and fails, on the unique column if that [up]
    succeeds; the ledger table is left as it was. *)
Theorem C8_second_run_applies_again (Store : Type) (raw : string -> Action Store)
    (dir : Directory Store) (target : option string) (db db1 : Db Store) :
  upMigration raw dir target db = (Ok tt, db1) ->
  exists pend again,
    boundPending target (pendingOf (definitionsOf raw dir) (recordsOf db)) = Ok pend /\
    boundPending target (pendingOf (definitionsOf raw dir) (recordsOf db1)) = Ok again /\
    again = (if bigintAsString (driver db)
             then filter (fun m => hasLeadingZero (version m)) pend
             else pend) /\
    match again with
    | [] => upMigration raw dir target db1 = (Ok tt, db1)
    | m :: _ =>
        exists e,
          fst (upMigration raw dir target db1) = Err e /\
          table (snd (upMigration raw dir target db1)) = table db1 /\
          calls (snd (upMigration raw dir target db1)) = (calls db1 ++ [callUp m])%list /\
          (forall s, up (module m) (store db1) = (Ok tt, s) ->
             exists z, columnValue (version m) = Some z /\ e = UniqueViolation z)
    end.
Proof.
  intros Hrun.
  unfold upMigration, bind, liftResult, ret, throw in Hrun.
  destruct (getMigrationFiles raw dir) as [ms|e] eqn:Ems; [|discriminate].
  destruct (getAppliedMigrations db) as [[applied|e] db'] eqn:Ea; [|discriminate].
  apply getAppliedMigrations_spec in Ea as (-> & rows & Hrows & Happlied).
  destruct (boundPending target (pendingOf ms applied)) as [pend|e] eqn:Eb; [|discriminate].
  assert (Hap : applyMigrations pend db = (Ok tt, db1)) by (now destruct pend).
  destruct (applyMigrations_ok_table Store pend db db1 rows Hap Hrows) as (added & Ht1 & Hadded).
  assert (Hdrv : driver db1 = driver db).
  { pose proof (applyMigrations_driver Store pend db) as H. now rewrite Hap in H. }
  assert (Hdefs : definitionsOf raw dir = ms) by (unfold definitionsOf; now rewrite Ems).
  assert (Hrec : recordsOf db = applied).
  { unfold recordsOf. now rewrite (getAppliedMigrations_table Store db rows Hrows). }
  rewrite Hdefs, Hrec. rewrite <- Hrec in Eb.
  pose proof (getAppliedMigrations_table Store db1 _ Ht1) as Ea1.
  (* the first pending set is a filter of the unbounded one, and the bound
     of the second run is the same filter *)
  assert (Hb : exists b, pend = filter b (pendingOf ms (recordsOf db)) /\
                 (filter b (pendingOf ms (recordsOf db1)) = pend \/
                  filter b (pendingOf ms (recordsOf db1))
                    = filter (fun m => hasLeadingZero (version m)) pend ->
                  boundPending target (pendingOf ms (recordsOf db1))
                    = Ok (filter b (pendingOf ms (recordsOf db1))))).
  { destruct target as [v|].
    - destruct (Js.BigInt v) as [t|] eqn:Ev.
      + exists (fun m => (bigintOf (version m) <=? t)%Z).
        rewrite (boundPending_target Store v t _ Ev) in Eb. injection Eb as <-.
        split; [reflexivity|]. intros _. now apply boundPending_target.
      + exists (fun _ => true). unfold boundPending in Eb. rewrite Ev in Eb.
        destruct (pendingOf ms (recordsOf db)) as [|m0 l] eqn:Ep; [|discriminate].
        injection Eb as <-. split; [reflexivity|]. cbn [filter].
        rewrite filter_all. intros [-> | ->]; reflexivity.
    - exists (fun _ => true). injection Eb as <-. rewrite !filter_all.
      split; [reflexivity|]. intros _. reflexivity. }
  destruct Hb as (b & Hpend & Hbound).
  rewrite Hpend in Hadded.
  pose proof (pending_again Store raw dir ms db db1 rows added b Ems Hrows Ht1 Hdrv Hadded)
    as Hagain.
  rewrite <- Hpend in Hagain.
  set (again := filter b (pendingOf ms (recordsOf db1))) in *.
  assert (E2 : boundPending target (pendingOf ms (recordsOf db1)) = Ok again).
  { apply Hbound. rewrite Hagain. destruct (bigintAsString (driver db)); auto. }
  exists pend, again. split; [now rewrite <- Hrec|]. split; [exact E2|].
  split; [exact Hagain|].
  assert (Hrun2 : upMigration raw dir target db1 =
                  match again with [] => (Ok tt, db1) | _ => applyMigrations again db1 end).
  { unfold upMigration, bind, liftResult, ret, throw. rewrite Ems, Ea1.
    assert (Hrec1 : recordsOf db1 = map (toRecord (driver db1)) (sort compareId (rows ++ added)))
      by (unfold recordsOf; now rewrite Ea1).
    rewrite <- Hrec1, E2. now destruct again. }
  rewrite Hrun2. destruct again as [|m rest] eqn:Eag; [reflexivity|].
  (* the first of them was applied by the first run *)
  assert (Hin : In m pend).
  { assert (Hm : In m (m :: rest)) by now left. rewrite Hagain in Hm.
    destruct (bigintAsString (driver db)); [now apply filter_In in Hm | assumption]. }
  rewrite Hpend in Hin.
  destruct (Forall2_In_left _ _ _ _ Hadded Hin) as (r & Hr & Hc).
  destruct (applyMigration_refused Store m db1 (rows ++ added) (col_version_id r) Ht1 Hc)
    as (e & db2 & Hfail & Herr).
  { apply existsb_exists. exists r. split; [apply in_or_app; now right | apply Z.eqb_refl]. }
  cbn [applyMigrations]. unfold bind. rewrite Hfail. cbn [fst snd].
  apply applyMigration_effect in Hfail as (_ & Hcalls & Htab & _).
  exists e. split; [reflexivity|]. split; [exact Htab|]. split; [exact Hcalls|].
  intros s Hs. exists (col_version_id r). split; [exact Hc | now apply Herr with s].
Qed.

(** On SQLite the first run applies the versions 2 and 3; the second run
    finds both pending and calls the [up] of version 2 again. *)
Lemma C8_second_run_applies_again_witness :
  let first := upMigration Sample.raw Sample.lateDir None Sample.seededSqlite in
  let second := upMigration Sample.raw Sample.lateDir None (snd first) in
  fst first = Ok tt /\
  map (@filename _) (pendingOf (definitionsOf Sample.raw Sample.lateDir) (recordsOf (snd first)))
    = ["2_b.sql"; "3_c.sql"] /\
  exists e, fst second = Err e /\
            calls (snd second) = (calls (snd first) ++ [CallUp "2_b.sql"])%list.
Proof.
  cbv zeta.
  destruct (C8_second_run_applies_again Sample.Store Sample.raw Sample.lateDir None
              Sample.seededSqlite
              (snd (upMigration Sample.raw Sample.lateDir None Sample.seededSqlite)))
    as (pend & again & _ & Ha & _ & Hm).
  - reflexivity.
  - split; [reflexivity|]. split; [reflexivity|].
    vm_compute in Ha. injection Ha as <-.
    destruct Hm as (e & He & _ & Hc & _). exists e. split; [exact He | exact Hc].
Defined.

(** The same on SQLite, evaluated: the error is that of the unique
    column. *)
Example second_run_on_sqlite :
  let first := upMigration Sample.raw Sample.lateDir None Sample.seededSqlite in
  let second := upMigration Sample.raw Sample.lateDir None (snd first) in
  fst first = Ok tt /\
  fst second = Err (UniqueViolation 2) /\
  calls (snd second) = [CallUp "2_b.sql"; CallUp "3_c.sql"; CallUp "2_b.sql"].
Proof. cbv zeta. repeat split. Qed.

(** On a driver that returns strings, with the one file 07_g.sql: the
    first run applies it and the column stores 7; for the second run 07
    is not among the versions of the ledger. *)
Example second_run_with_leading_zero :
  let first := upMigration Sample.raw Sample.paddedDir None Sample.seeded in
  let second := upMigration Sample.raw Sample.paddedDir None (snd first) in
  fst first = Ok tt /\
  map (@filename _)
      (pendingOf (definitionsOf Sample.raw Sample.paddedDir) (recordsOf (snd first)))
    = ["07_g.sql"] /\
  fst second = Err (UniqueViolation 7) /\
  calls (snd second) = [CallUp "07_g.sql"; CallUp "07_g.sql"].
Proof. cbv zeta. repeat split. Qed.

(** C10.  Whether a definition is applied is decided by comparing its
    version with the [version_id] of the entries as values, with [===]: a
    definition is pending unless the driver returns strings and a row of
    the ledger reads as the very string of its version, and the walk of a
    rollback finds for a row the first definition whose version is that
    string, and no other.  So a definition whose version has a leading
    zero (07) is pending whatever the ledger holds, the number 7 included,
    and is the definition found for no row.  The orders are those of the
    versions as numbers: ascending for the definitions, descending for
    the entries of a rollback. *)
Theorem C10_membership_is_string_equality (Store : Type) (raw : string -> Action Store)
    (dir : Directory Store) (db : Db Store) (rows : list Row) :
  table db = Some rows ->
  let defs := definitionsOf raw dir in
  let applied := recordsOf db in
  let read := toRecord (driver db) in
  (forall m, In m (pendingOf defs applied) <->
     In m defs /\
     ~ (bigintAsString (driver db) = true /\
        exists r, In r rows /\ Js.toString (col_version_id r) = version m)) /\
  (forall r m, findMigration defs (read r) = Some m ->
     bigintAsString (driver db) = true /\ In m defs /\
     version m = Js.toString (col_version_id r)) /\
  (forall r m, bigintAsString (driver db) = true -> In m defs ->
     version m = Js.toString (col_version_id r) ->
     exists m', findMigration defs (read r) = Some m' /\ version m' = version m) /\
  (forall m, In m defs -> hasLeadingZero (version m) = true ->
     In m (pendingOf defs applied) /\
     forall r, findMigration defs (read r) <> Some m) /\
  StronglySorted (@versionLe Store) defs /\
  StronglySorted versionGe (sortedAppliedMigrations applied).
Proof.
  intros Ht defs applied read.
  assert (Hfind : forall r m, findMigration defs (read r) = Some m ->
            bigintAsString (driver db) = true /\ In m defs /\
            version m = Js.toString (col_version_id r)).
  { intros r m Hf. apply findMigration_some in Hf as [Hm Hv].
    apply toRecord_string in Hv as [Hd Hv]. now repeat split. }
  assert (Hpend : forall m, In m (pendingOf defs applied) <->
            In m defs /\
            ~ (bigintAsString (driver db) = true /\
               exists r, In r rows /\ Js.toString (col_version_id r) = version m)).
  { intros m. rewrite pendingOf_In. unfold applied.
    rewrite <- (isApplied_rows Store db rows m Ht).
    destruct (isApplied (recordsOf db) m); split; intros [Hm H]; split;
      try assumption; congruence. }
  split; [exact Hpend|]. split; [exact Hfind|]. split; [|split; [|split]].
  - intros r m Hd Hm Hv. apply findMigration_first; [assumption|].
    unfold read. rewrite (proj1 (toRecord_version (driver db) r Hd)). now rewrite Hv.
  - intros m Hm Hz. split.
    + apply Hpend. split; [assumption|]. intros (_ & r & _ & Hv).
      rewrite <- Hv, NumberFacts.toString_no_leading_zero in Hz. discriminate Hz.
    + intros r Hf. apply Hfind in Hf as (_ & _ & Hv).
      rewrite Hv, NumberFacts.toString_no_leading_zero in Hz. discriminate Hz.
  - unfold defs, definitionsOf.
    destruct (getMigrationFiles raw dir) as [ms|e] eqn:E; [|constructor].
    now apply definitions_sorted with raw dir.
  - apply sortedAppliedMigrations_sorted.
Qed.

(** Two files of the version 7, 07_g.sql and 7_h.sql, and a ledger with
    the row of 7: the first is pending, the second is the definition
    found for the row. *)
Lemma C10_membership_is_string_equality_witness :
  let defs := definitionsOf Sample.raw Sample.sevenDir in
  let applied := recordsOf Sample.sevenDb in
  let seven := mkRow 2 7 1 0 in
  map (@version _) defs = ["07"; "7"] /\
  bigintOf "07" = col_version_id seven /\
  map (@version _) (pendingOf defs applied) = ["07"] /\
  option_map (@version _) (findMigration defs (toRecord (driver Sample.sevenDb) seven)) = Some "7".
Proof.
  cbv zeta.
  destruct (C10_membership_is_string_equality Sample.Store Sample.raw Sample.sevenDir
              Sample.sevenDb [mkRow 1 0 1 0; mkRow 2 7 1 0] eq_refl)
    as (Hpend & _ & Hfound & _).
  split; [reflexivity|]. split; [reflexivity|]. split.
  - reflexivity.
  - destruct (Hfound (mkRow 2 7 1 0)
                (mkFile "7" "7_h.sql" (parseSqlMigration Sample.raw
                   (joinLines ["-- +goose Up"; "CREATE TABLE h;";
                               "-- +goose Down"; "DROP TABLE h;"]))))
      as (m' & -> & Hv).
    + reflexivity.
    + right. left. reflexivity.
    + reflexivity.
    + cbn [option_map]. now rewrite Hv.
Defined.

(* ================================================================= *)
(** ** The connection string *)

Lemma trimEnd_idempotent s : Js.trimEnd (Js.trimEnd s) = Js.trimEnd s.
Proof.
  induction s as [|c r IH]; [reflexivity|]. cbn [Js.trimEnd].
  destruct (Js.trimEnd r) as [|c' r'] eqn:E.
  - destruct (Js.isWhiteSpace c) eqn:Ec; [reflexivity|]. cbn [Js.trimEnd]. now rewrite Ec.
  - cbn [Js.trimEnd] in IH |- *. now rewrite IH.
Qed.

Lemma trimEnd_app a t :
  Js.trimEnd t = t -> t <> "" -> Js.trimEnd (a ++ t) = a ++ t.
Proof.
  intros Ht Hne. induction a as [|c a IH]; [exact Ht|].
  cbn [append Js.trimEnd]. rewrite IH.
  destruct (a ++ t) eqn:E; [|reflexivity].
  destruct a; cbn in E; [congruence | discriminate E].
Qed.

Lemma hasString_In l s : hasString l s = true <-> In s l.
Proof.
  unfold hasString. rewrite existsb_exists. split.
  - intros (x & Hx & E). apply String.eqb_eq in E. now subst.
  - intros H. exists s. split; [assumption | apply String.eqb_refl].
Qed.

(** A supported driver put in front of a string, with [://] between, is
    the scheme the expression finds, and nothing of it is trimmed. *)
Lemma prefixed_dsn d t :
  hasString ALL_DRIVERS d = true -> Js.trimEnd t = t -> t <> "" ->
  Js.trim (d ++ "://" ++ t) = d ++ "://" ++ t /\
  matchedDriver (d ++ "://" ++ t) = Some d.
Proof.
  intros Hd Ht Hne. apply hasString_In in Hd.
  assert (Hp : forall x, String.prefix "" x = true) by (now intros []).
  split.
  - unfold Js.trim.
    assert (Hs : Js.trimStart (d ++ "://" ++ t) = d ++ "://" ++ t).
    { cbn in Hd. repeat (destruct Hd as [<-|Hd]; [reflexivity|]). contradiction. }
    rewrite Hs. rewrite <- append_assoc. apply trimEnd_app; assumption.
  - cbn in Hd.
    repeat (destruct Hd as [<-|Hd];
            [unfold matchedDriver; cbn; now rewrite Hp|]).
    contradiction.
Qed.

(** X29.  Whatever the URL parser and [decodeURI] do, a connection that
    [dsnParser] returns has a supported driver, which is the scheme of the
    parsed URL and not the driver given beside the string; an SQLite
    driver gives a connection to a file, every other driver a connection
    to a host. *)
Theorem dsnParser_returns_supported_driver
    (newURL : string -> option URL) (decodeURI : string -> option string)
    (dsn driver : option string) (c : ConnectionParams) :
  dsnParser newURL decodeURI dsn driver = inr c ->
  hasString ALL_DRIVERS (driverOf c) = true /\
  (exists s url, newURL s = Some url /\ driverOf c = dropLast (protocol url)) /\
  match c with
  | SQLiteConnection d _ _ => hasString SQLITE_DRIVERS d = true
  | NonSQLiteConnection d _ _ _ _ _ _ => hasString NON_SQLITE_DRIVERS d = true
  end.
Proof.
  unfold dsnParser. destruct dsn as [dsn0|]; [|discriminate].
  destruct (Js.trim dsn0 =? ""); [discriminate|].
  set (prefixed := match matchedDriver (Js.trim dsn0) with
                   | Some _ => inr (Js.trim dsn0)
                   | None => _
                   end).
  destruct prefixed as [e|dsn2]; [discriminate|].
  destruct (newURL (Js.trim dsn2)) as [url|] eqn:Eu; [|discriminate].
  destruct (hasString ALL_DRIVERS (dropLast (protocol url))) eqn:Ed; [|discriminate].
  destruct (connectionOf decodeURI (dropLast (protocol url)) url) as [c'|] eqn:Ec;
    [|discriminate].
  intros [= <-]. unfold connectionOf in Ec.
  destruct (hasString SQLITE_DRIVERS (dropLast (protocol url))) eqn:Es.
  - destruct (decodeURI (host url ++ pathname url)); [|discriminate].
    injection Ec as <-. cbn [driverOf].
    split; [assumption|]. split; [now exists (Js.trim dsn2), url | assumption].
  - destruct (decodeUnlessEmpty decodeURI (username url)); [|discriminate].
    destruct (decodeUnlessEmpty decodeURI (password url)); [|discriminate].
    destruct (decodeURI (hostname url)); [|discriminate].
    destruct (decodeURI (pathname url)); [|discriminate].
    injection Ec as <-. cbn [driverOf].
    split; [assumption|]. split; [now exists (Js.trim dsn2), url|].
    unfold ALL_DRIVERS, hasString in Ed. rewrite existsb_app in Ed.
    unfold hasString in Es. rewrite Es in Ed. exact Ed.
Qed.

Lemma dsnParser_returns_supported_driver_witness :
  let newURL (s : string) :=
    if s =? "pg://localhost/app"
    then Some (mkURL "pg:" "" "" "localhost" "localhost" "" "/app" [])
    else None in
  dsnParser newURL Some (Some " localhost/app ") (Some "pg")
    = inr (NonSQLiteConnection "pg" None None "localhost" None "app" []) /\
  hasString NON_SQLITE_DRIVERS "pg" = true.
Proof.
  intros newURL.
  destruct (dsnParser_returns_supported_driver newURL Some (Some " localhost/app ") (Some "pg")
              (NonSQLiteConnection "pg" None None "localhost" None "app" []) eq_refl)
    as (_ & _ & H).
  split; [reflexivity | exact H].
Defined.

(** X30.  The driver given beside the connection string.  A string that
    is missing or blank is refused whatever the driver is.  When the
    string has a scheme the driver is not looked at.  When it has none, no
    driver and an unsupported driver are refused before the URL is
    parsed, and a supported driver gives the same result as the string
    with the driver and [://] in front of it. *)
Theorem dsnParser_driver_argument
    (newURL : string -> option URL) (decodeURI : string -> option string)
    (dsn : string) (driver other : option string) :
  dsnParser newURL decodeURI None driver = inl DbStringRequired /\
  (Js.trim dsn = "" -> dsnParser newURL decodeURI (Some dsn) driver = inl DbStringRequired) /\
  (matchedDriver (Js.trim dsn) <> None ->
   dsnParser newURL decodeURI (Some dsn) driver = dsnParser newURL decodeURI (Some dsn) other) /\
  (Js.trim dsn <> "" -> matchedDriver (Js.trim dsn) = None ->
   dsnParser newURL decodeURI (Some dsn) None = inl DriverRequired /\
   forall d,
     (hasString ALL_DRIVERS d = false ->
      dsnParser newURL decodeURI (Some dsn) (Some d) = inl (UnsupportedDriver d)) /\
     (hasString ALL_DRIVERS d = true ->
      dsnParser newURL decodeURI (Some dsn) (Some d)
      = dsnParser newURL decodeURI (Some (d ++ "://" ++ Js.trim dsn)) other)).
Proof.
  split; [reflexivity|].
  split; [intros H; unfold dsnParser; now rewrite H|].
  split.
  - intros H. unfold dsnParser. destruct (Js.trim dsn =? ""); [reflexivity|].
    destruct (matchedDriver (Js.trim dsn)); [reflexivity | congruence].
  - intros Hne Hm. apply String.eqb_neq in Hne.
    split; [unfold dsnParser; now rewrite Hne, Hm|].
    intros d. split.
    + intros Hd. unfold dsnParser. now rewrite Hne, Hm, Hd.
    + intros Hd.
      assert (Ht : Js.trimEnd (Js.trim dsn) = Js.trim dsn) by apply trimEnd_idempotent.
      apply String.eqb_neq in Hne.
      destruct (prefixed_dsn d (Js.trim dsn) Hd Ht Hne) as [Htrim Hmatch].
      unfold dsnParser at 2. rewrite Htrim, Hmatch.
      assert (Hnb : (d ++ "://" ++ Js.trim dsn =? "") = false).
      { apply String.eqb_neq. intros E. rewrite E in Hmatch. discriminate Hmatch. }
      rewrite Hnb. unfold dsnParser. apply String.eqb_neq in Hne.
      now rewrite Hne, Hm, Hd, Htrim.
Qed.

Lemma dsnParser_driver_argument_witness :
  dsnParser (fun _ => None) Some (Some " localhost/app ") (Some "pg")
  = dsnParser (fun _ => None) Some (Some "pg://localhost/app") None.
Proof.
  destruct (dsnParser_driver_argument (fun _ => None) Some " localhost/app " (Some "pg") None)
    as (_ & _ & _ & H).
  destruct H as [_ H]; [discriminate | reflexivity |].
  destruct (H "pg") as [_ H']. now apply H'.
Defined.
